(** * Unified Django jobs extractor: a shallow embedding of [extractor.py]

    The development follows the layout of the Python module: text helpers,
    the identity key ([norm], [key_for]), the field heuristics
    ([parse_salary]), the URL helpers, the two per-page record builders,
    the merger ([score], [dedupe]) and the feed date renderer
    ([as_rfc2822]).

    Python [str] values are modelled by [string]; a character stands for the
    code point with the same number (0..255).  On that range the character
    tables below ([isspace], [lower_char], [isdecimal], [isword]) are the
    ones CPython uses for [str.strip], [str.lower] and the [\s], [\d] and
    [\w] classes of [re].  Texts with code points above 255 are outside the
    model: the en dash that the salary patterns accept beside the hyphen,
    the few letters outside Latin-1 that [(?i)] lets stand for [i], [s] and
    [k], and the lone surrogates on which [quote] and the UTF-8 encoding of
    the feed raise UnicodeEncodeError.  A value of type [str | None] is an
    [option string]; a call that can raise returns an [outcome].  Functions
    of the Python library that the module calls and that are not written
    out here ([urlparse], [html.unescape], the date parsers and printers)
    are the fields of the class [Library]. *)

From Stdlib Require Import Bool Arith NArith ZArith Lia List.
From Stdlib Require Import Ascii String.
Import ListNotations.
Open Scope string_scope.
Set Warnings "-register-all".

(** ** Characters *)

Module Char.

Definition code (c : ascii) : N := N_of_ascii c.

Definition between (lo hi : N) (c : ascii) : bool :=
  ((lo <=? code c) && (code c <=? hi))%N.

(** [str.isspace] on one character: TAB..CR, FS..US, space, NEL and NBSP. *)
Definition isspace (c : ascii) : bool :=
  between 9 13 c || between 28 32 c || (code c =? 133)%N || (code c =? 160)%N.

(** Characters with a lowercase partner: A..Z and the capital letters of the
    upper Latin block (all of 192..222 except the multiplication sign). *)
Definition isupper (c : ascii) : bool :=
  between 65 90 c || (between 192 222 c && negb (code c =? 215)%N).

Definition lower_char (c : ascii) : ascii :=
  if isupper c then ascii_of_N (code c + 32) else c.

(** The class [[a-z0-9]]. *)
Definition is_az09 (c : ascii) : bool := between 97 122 c || between 48 57 c.

(** The class [\d]. *)
Definition isdecimal (c : ascii) : bool := between 48 57 c.

(** The class [\w]: letters, digits (the superscript ones and the vulgar
    fractions included) and the underscore. *)
Definition isword (c : ascii) : bool :=
  between 48 57 c || between 65 90 c || (code c =? 95)%N || between 97 122 c
  || (code c =? 170)%N || between 178 179 c || (code c =? 181)%N
  || between 185 186 c || between 188 190 c
  || between 192 214 c || between 216 246 c || between 248 255 c.

End Char.

(** ** String primitives of Python used by the module *)

Module Py.

(** Truthiness of a [str | None] value: [None] and the empty string are
    false. *)
Definition truthy (v : option string) : bool :=
  match v with
  | Some (String _ _) => true
  | _ => false
  end.

(** [v or ""] *)
Definition or_empty (v : option string) : string :=
  match v with
  | Some s => s
  | None => ""
  end.

(** [s.lower()] *)
Fixpoint lower (s : string) : string :=
  match s with
  | "" => ""
  | String c s' => String (Char.lower_char c) (lower s')
  end.

(** [s.lstrip()] *)
Fixpoint lstrip (s : string) : string :=
  match s with
  | "" => ""
  | String c s' => if Char.isspace c then lstrip s' else s
  end.

(** [s.rstrip()] *)
Fixpoint rstrip (s : string) : string :=
  match s with
  | "" => ""
  | String c s' =>
      match rstrip s' with
      | "" => if Char.isspace c then "" else String c ""
      | r => String c r
      end
  end.

(** [s.strip()] *)
Definition strip (s : string) : string := rstrip (lstrip s).

(** [c in s] for a one-character needle [c]. *)
Fixpoint contains (c : ascii) (s : string) : bool :=
  match s with
  | "" => false
  | String d s' => Ascii.eqb d c || contains c s'
  end.

(** [s.split(c, 1)[0]]: the part before the first [c], all of [s] when [c]
    does not occur. *)
Fixpoint split_head (c : ascii) (s : string) : string :=
  match s with
  | "" => ""
  | String d s' => if Ascii.eqb d c then "" else String d (split_head c s')
  end.

(** [s.split(c, 1)[1]] when [c] occurs in [s]: the part after the first
    [c]. *)
Fixpoint split_tail (c : ascii) (s : string) : string :=
  match s with
  | "" => ""
  | String d s' => if Ascii.eqb d c then s' else split_tail c s'
  end.

(** [re.sub(cls+, repl, s)] for a character class [cls]: every maximal run
    of class characters is replaced by one copy of [repl].  [inrun] tells
    whether the previous character already belonged to the current run. *)
Fixpoint sub_runs_from (inrun : bool) (cls : ascii -> bool) (repl s : string)
  : string :=
  match s with
  | "" => ""
  | String c s' =>
      if cls c
      then (if inrun then "" else repl) ++ sub_runs_from true cls repl s'
      else String c (sub_runs_from false cls repl s')
  end.

Definition sub_runs := sub_runs_from false.

End Py.

(** ** Further string helpers *)

Module Str.

(** [s.rstrip(c)] for a one-character set. *)
Fixpoint rstrip_char (c : ascii) (s : string) : string :=
  match s with
  | "" => ""
  | String d s' =>
      match rstrip_char c s' with
      | "" => if Ascii.eqb d c then "" else String d ""
      | r => String d r
      end
  end.

(** [s.split(c)[-1]] *)
Fixpoint last_segment (c : ascii) (s : string) : string :=
  match s with
  | "" => ""
  | String d s' =>
      if Ascii.eqb d c then last_segment c s'
      else if Py.contains c s' then last_segment c s' else s
  end.

(** [s[:n]] *)
Definition take (n : nat) (s : string) : string := String.substring 0 n s.

(** [s.startswith(p)] *)
Fixpoint startswith (p s : string) : bool :=
  match p, s with
  | "", _ => true
  | String a p', String b s' => Ascii.eqb a b && startswith p' s'
  | _, _ => false
  end.

(** [p in s] *)
Fixpoint infix (p s : string) : bool :=
  startswith p s
  || match s with
     | "" => false
     | String _ s' => infix p s'
     end.

(** [re.sub(r"<[^>]+>", " ", s)]: [close s] is what follows the first [>]
    of [s] when at least one other character stands before it.  [fuel]
    bounds the number of characters still to be read. *)
Fixpoint close_from (seen : bool) (s : string) : option string :=
  match s with
  | "" => None
  | String c s' =>
      if Ascii.eqb c ">" then (if seen then Some s' else None)
      else close_from true s'
  end.

Fixpoint sub_tags_fuel (fuel : nat) (s : string) : string :=
  match fuel, s with
  | S fuel', String c s' =>
      if Ascii.eqb c "<"
      then match close_from false s' with
           | Some after => " " ++ sub_tags_fuel fuel' after
           | None => String c (sub_tags_fuel fuel' s')
           end
      else String c (sub_tags_fuel fuel' s')
  | _, _ => ""
  end.

Definition sub_tags (s : string) : string := sub_tags_fuel (String.length s) s.

End Str.

(** ** The identity key *)

(** [norm]: lowercase, trim, turn every run outside [[a-z0-9]] into one
    space, collapse whitespace runs, trim. *)
Definition norm (value : option string) : string :=
  if negb (Py.truthy value) then ""
  else
    let value := Py.strip (Py.lower (Py.or_empty value)) in
    let value := Py.sub_runs (fun c => negb (Char.is_az09 c)) " " value in
    Py.strip (Py.sub_runs Char.isspace " " value).

(** [key_for]: the two [if] statements run one after the other, the second
    on the result of the first. *)
Definition key_for (title company : option string) : string :=
  let raw_title := Py.strip (Py.lower (Py.or_empty title)) in
  let raw_title :=
    if Py.contains "@" raw_title
    then Py.strip (Py.split_head "@" raw_title) else raw_title in
  let raw_title :=
    if Py.contains "," raw_title
    then Py.strip (Py.split_head "," raw_title) else raw_title in
  norm (Some raw_title) ++ "|" ++ norm company.

(** ** Python values read from the structured-data object *)

(** [parse_bwd_jobs] stores values of the embedded JSON object in a record
    without converting them, so the fields it fills that way can hold any
    value [json.loads] produces.  A number is represented by an integer:
    the program only tests numbers for zero, so any integer other than 0
    also stands for the floating-point numbers other than zero. *)
Inductive pyval : Type :=
| PNone
| PBool (b : bool)
| PInt (n : Z)
| PStr (s : string)
| PList (l : list pyval)
| PDict (d : list (string * pyval)).

Module Val.

(** Truth value of a Python object. *)
Definition truthy (v : pyval) : bool :=
  match v with
  | PNone => false
  | PBool b => b
  | PInt n => negb (n =? 0)%Z
  | PStr s => match s with "" => false | _ => true end
  | PList l => match l with [] => false | _ => true end
  | PDict d => match d with [] => false | _ => true end
  end.

(** [a or b] *)
Definition or (a b : pyval) : pyval := if truthy a then a else b.

(** A [str | None] value as a Python object. *)
Definition of_opt (v : option string) : pyval :=
  match v with
  | Some s => PStr s
  | None => PNone
  end.

(** [d.get(key, default)] on the entries of a dict. *)
Fixpoint get_default (d : list (string * pyval)) (key : string)
  (default : pyval) : pyval :=
  match d with
  | [] => default
  | (k, v) :: d' => if String.eqb k key then v else get_default d' key default
  end.

(** [d.get(key)] *)
Definition get (d : list (string * pyval)) (key : string) : pyval :=
  get_default d key PNone.

(** [isinstance(v, dict)] *)
Definition is_dict (v : pyval) : bool :=
  match v with
  | PDict _ => true
  | _ => false
  end.

(** [v.get(key)] for a value [v] known to be a dict. *)
Definition get_of (v : pyval) (key : string) : pyval :=
  match v with
  | PDict d => get d key
  | _ => PNone
  end.

End Val.

(** ** The record *)

(** The dataclass [Job].  Four of its fields are typed [pyval]: those
    [parse_bwd_jobs] can fill with a value of the structured-data object.
    [company] can be filled that way too, but only a string survives the
    call of [key_for] that ends the loop body (see [bwd_job]), so it is a
    [str | None] in every record that exists. *)
Record Job : Type := mkJob {
  id : string;
  title : string;
  company : option string;
  url : string;
  source : string;
  location : pyval;
  date_posted : pyval;
  salary : option string;
  employment_type : pyval;
  skills : option (list string);
  categories : option (list string);
  summary : option string;
  full_offer_text : option string;
  full_offer_html : option string;
  apply_url : pyval;
  company_url : option string;
  image_url : option string;
  dedupe_key : option string
}.

(** [job.dedupe_key = key] *)
Definition set_dedupe_key (job : Job) (key : string) : Job :=
  mkJob (id job) (title job) (company job) (url job) (source job)
        (location job) (date_posted job) (salary job) (employment_type job)
        (skills job) (categories job) (summary job) (full_offer_text job)
        (full_offer_html job) (apply_url job) (company_url job)
        (image_url job) (Some key).

(** ** Merger *)

(** [1 for field in fields if field], one summand per field. *)
Definition one_if (b : bool) : nat := if b then 1 else 0.

Definition truthy_list {A : Type} (v : option (list A)) : bool :=
  match v with
  | Some (_ :: _) => true
  | _ => false
  end.

Definition score (job : Job) : nat :=
  one_if (Py.truthy (company job))
  + one_if (Val.truthy (location job))
  + one_if (Val.truthy (date_posted job))
  + one_if (Py.truthy (salary job))
  + one_if (Val.truthy (employment_type job))
  + one_if (truthy_list (skills job))
  + one_if (Py.truthy (full_offer_text job))
  + one_if (Val.truthy (apply_url job))
  + one_if (Py.truthy (company_url job))
  + one_if (Py.truthy (image_url job)).

(** [len(job.full_offer_text or "")] *)
Definition text_len (job : Job) : nat :=
  String.length (Py.or_empty (full_offer_text job)).

(** The condition under which [dedupe] lets [job] replace [existing]. *)
Definition replaces (job existing : Job) : bool :=
  ((score existing <? score job)
   || ((score job =? score existing) && (text_len existing <? text_len job)))%nat.

(** [by_key]: a dict keeps its keys in insertion order, and assigning to a
    key that is present keeps the key's place. *)
Definition by_key_t : Type := list (string * Job).

Fixpoint lookup (key : string) (d : by_key_t) : option Job :=
  match d with
  | [] => None
  | (k, v) :: d' => if String.eqb k key then Some v else lookup key d'
  end.

(** [d[key] = job] *)
Fixpoint assign (key : string) (job : Job) (d : by_key_t) : by_key_t :=
  match d with
  | [] => [(key, job)]
  | (k, v) :: d' =>
      if String.eqb k key then (k, job) :: d' else (k, v) :: assign key job d'
  end.

(** One turn of the loop of [dedupe]. *)
Definition dedupe_step (by_key : by_key_t) (job : Job) : by_key_t :=
  let key := key_for (Some (title job)) (company job) in
  let job := set_dedupe_key job key in
  match lookup key by_key with
  | None => assign key job by_key
  | Some existing =>
      if replaces job existing then assign key job by_key else by_key
  end.

Record Stats : Type := mkStats {
  input_count : Z;
  output_count : Z;
  duplicates_removed : Z
}.

Definition dedupe (jobs : list Job) : list Job * Stats :=
  let by_key := fold_left dedupe_step jobs [] in
  let deduped := map snd by_key in
  (deduped,
   mkStats (Z.of_nat (List.length jobs)) (Z.of_nat (List.length deduped))
           (Z.of_nat (List.length jobs) - Z.of_nat (List.length deduped))).

(** ** Regular expressions, as [re] matches them

    The patterns of [parse_salary] use character classes, literals,
    alternation, optional groups, greedy repetition of a class and one
    capturing group.  [exec r s] lists the ways [r] matches at the start of
    [s] in the order the backtracking matcher of [re] tries them, so the
    head of the list is the match [re] reports. *)

Module Re.

Inductive regex : Type :=
| Eps
| Chr (cls : ascii -> bool)
| Seq (r1 r2 : regex)
| Alt (r1 r2 : regex)
| Opt (r : regex)
| Rep (cls : ascii -> bool) (lo : nat) (hi : option nat)
| Group (r : regex).

Record hit : Type := mkHit {
  matched : string;
  group1 : option string;
  rest : string
}.

(** [cls{lo,hi}], greedy: the longest repetition comes first. *)
Fixpoint rep (cls : ascii -> bool) (lo : nat) (hi : option nat) (s : string)
  : list (string * string) :=
  let stop := if (lo =? 0)%nat then [("", s)] else [] in
  match s with
  | "" => stop
  | String c s' =>
      if cls c && match hi with Some O => false | _ => true end
      then map (fun mr => (String c (fst mr), snd mr))
               (rep cls (pred lo) (option_map pred hi) s') ++ stop
      else stop
  end.

Definition later (c2 c1 : option string) : option string :=
  match c2 with
  | Some _ => c2
  | None => c1
  end.

Fixpoint exec (r : regex) (s : string) : list hit :=
  match r with
  | Eps => [mkHit "" None s]
  | Chr cls =>
      match s with
      | "" => []
      | String c s' => if cls c then [mkHit (String c "") None s'] else []
      end
  | Seq r1 r2 =>
      flat_map
        (fun h1 =>
           map (fun h2 => mkHit (matched h1 ++ matched h2)
                                (later (group1 h2) (group1 h1)) (rest h2))
               (exec r2 (rest h1)))
        (exec r1 s)
  | Alt r1 r2 => exec r1 s ++ exec r2 s
  | Opt r1 => exec r1 s ++ [mkHit "" None s]
  | Rep cls lo hi => map (fun mr => mkHit (fst mr) None (snd mr)) (rep cls lo hi s)
  | Group r1 =>
      map (fun h => mkHit (matched h) (Some (matched h)) (rest h)) (exec r1 s)
  end.

(** [re.search]: the first match at the leftmost position that has one. *)
Fixpoint search (r : regex) (s : string) : option hit :=
  match exec r s with
  | h :: _ => Some h
  | [] =>
      match s with
      | "" => None
      | String _ s' => search r s'
      end
  end.

(** A literal character, and the same under the [(?i)] flag. *)
Definition is_char (p c : ascii) : bool := Ascii.eqb c p.
Definition is_char_i (p c : ascii) : bool :=
  Ascii.eqb (Char.lower_char c) (Char.lower_char p).

(** A literal word under [(?i)]. *)
Fixpoint word_i (w : string) : regex :=
  match w with
  | "" => Eps
  | String p w' => Seq (Chr (is_char_i p)) (word_i w')
  end.

Definition star (cls : ascii -> bool) : regex := Rep cls 0 None.
Definition plus (cls : ascii -> bool) : regex := Rep cls 1 None.

End Re.

Declare Scope regex_scope.
Delimit Scope regex_scope with re.
Notation "r1 ;; r2" := (Re.Seq r1 r2)
  (at level 61, right associativity) : regex_scope.

(** ** Field heuristics: the salary *)

Module Salary.
Import Re.

Definition digit : ascii -> bool := Char.isdecimal.
Definition dollar : ascii -> bool := is_char "$".
(** [[\d,]] *)
Definition digit_or_comma (c : ascii) : bool := digit c || is_char "," c.
(** [[^\d$]] *)
Definition not_digit_or_dollar (c : ascii) : bool := negb (digit c || dollar c).
(** [[kKmM]]; the flag [(?i)] leaves the set as it is. *)
Definition magnitude (c : ascii) : bool := Py.contains c "kKmM".
(** [[–\-]]: the en dash (code point 8211) or the hyphen. *)
Definition dash (c : ascii) : bool :=
  (Char.code c =? 8211)%N || is_char "-" c.

(** [\$?\d[\d,]*(?:[kKmM])?] *)
Definition keyword_amount : regex :=
  (Opt (Chr dollar) ;; Chr digit ;; star digit_or_comma ;; Opt (Chr magnitude))%re.

(** [\$\d[\d,]*(?:\.\d+)?(?:[kKmM])?] *)
Definition dollar_amount : regex :=
  (Chr dollar ;; Chr digit ;; star digit_or_comma
   ;; Opt (Chr (is_char ".") ;; plus digit) ;; Opt (Chr magnitude))%re.

(** [amount(?:\s*[–\-]\s*amount)?] *)
Definition range_of (amount : regex) : regex :=
  (amount
   ;; Opt (star Char.isspace ;; Chr dash ;; star Char.isspace ;; amount))%re.

(** [(?i)(?:salary|compensation)[^\d$]{0,20}(...)] *)
Definition keyword_re : regex :=
  (Alt (word_i "salary") (word_i "compensation")
   ;; Rep not_digit_or_dollar 0 (Some 20)
   ;; Group (range_of keyword_amount))%re.

Definition dollar_re : regex := Group (range_of dollar_amount).

(** [m.group(1).strip()] *)
Definition group1_stripped (m : hit) : option string :=
  option_map Py.strip (group1 m).

End Salary.

Definition parse_salary (text : string) : option string :=
  match Re.search Salary.keyword_re text with
  | Some keyword_match => Salary.group1_stripped keyword_match
  | None =>
      match Re.search Salary.dollar_re text with
      | Some dollar_match => Salary.group1_stripped dollar_match
      | None => None
      end
  end.

(** ** Field heuristics: employment type and skills *)

Module Employment.
Import Re.

(** [[-\s]] *)
Definition hyphen_or_space (c : ascii) : bool := is_char "-" c || Char.isspace c.

(** [(full[-\s]?time|part[-\s]?time|contract|temporary|intern(ship)?)] under
    [(?i)]; the inner group is never read. *)
Definition body : regex :=
  Group
    (Alt (word_i "full" ;; Opt (Chr hyphen_or_space) ;; word_i "time")
    (Alt (word_i "part" ;; Opt (Chr hyphen_or_space) ;; word_i "time")
    (Alt (word_i "contract")
    (Alt (word_i "temporary")
         (word_i "intern" ;; Opt (word_i "ship"))))))%re.

(** [\b] between the character [prev] (if any) and the start of [s]:
    exactly one of the two sides is a word character. *)
Definition boundary (prev : option ascii) (s : string) : bool :=
  xorb (match prev with Some c => Char.isword c | None => false end)
       (match s with String c _ => Char.isword c | "" => false end).

Fixpoint last_char (s : string) (prev : option ascii) : option ascii :=
  match s with
  | "" => prev
  | String c s' => last_char s' (Some c)
  end.

(** [re.search] for [\b body \b]: at the leftmost position with a boundary
    in front, the first match of [body], in the order [re] tries them,
    that has a boundary behind. *)
Fixpoint search_word (prev : option ascii) (r : regex) (s : string)
  : option hit :=
  let here :=
    if boundary prev s
    then find (fun h => boundary (last_char (matched h) prev) (rest h)) (exec r s)
    else None in
  match here with
  | Some h => Some h
  | None =>
      match s with
      | "" => None
      | String c s' => search_word (Some c) r s'
      end
  end.

End Employment.

Definition parse_employment (text : string) : option string :=
  match Employment.search_word None Employment.body text with
  | Some m => option_map Py.strip (Re.group1 m)
  | None => None
  end.

(** [k.capitalize()] for a word of ASCII letters, which is what every key
    of [skills_from_text] is. *)
Definition capitalize (k : string) : string :=
  match k with
  | "" => ""
  | String c k' =>
      String (if Char.between 97 122 c then ascii_of_N (Char.code c - 32) else c)
             (Py.lower k')
  end.

Definition skills_from_text (text : string) : list string :=
  let keys := ["django"; "python"; "postgresql"; "aws"; "kubernetes"; "docker";
               "rest"; "api"; "pytest"; "sql"; "react"] in
  let found := filter (fun k => Str.infix k (Py.lower text)) keys in
  let cases := [("aws", "AWS"); ("api", "API"); ("rest", "REST"); ("sql", "SQL")] in
  map (fun k =>
         match find (fun kv => String.eqb (fst kv) k) cases with
         | Some kv => snd kv
         | None => capitalize k
         end)
      found.

(** ** Exceptions and the library functions the module calls *)

(** A call either returns or raises; [e] names the exception class. *)
Inductive outcome (A : Type) : Type :=
| Returns (a : A)
| Raises (e : string).
Arguments Returns {A} a.
Arguments Raises {A} e.

(** What the module reads of [urlparse(url)]. *)
Record ParseResult : Type := mkParseResult {
  scheme : string;
  netloc : string;
  path : string
}.

(** A [datetime]: the wall-clock reading and, when the value is aware, the
    offset of its [tzinfo] from UTC. *)
Record datetime : Type := mkDatetime {
  wall : Z;
  tzinfo : option Z
}.

(** Functions of the Python library; they are parameters of the
    development. *)
Class Library : Type := {
  (** [urllib.parse.urlparse]; it raises [ValueError] on some inputs. *)
  urlparse : string -> outcome ParseResult;
  (** [html.unescape] *)
  html_unescape : string -> string;
  (** [email.utils.parsedate_to_datetime] *)
  parsedate_to_datetime : string -> outcome datetime;
  (** [datetime.fromisoformat] *)
  fromisoformat : string -> outcome datetime;
  (** [datetime.isoformat] *)
  isoformat : datetime -> string;
  (** [email.utils.format_datetime] *)
  format_datetime : datetime -> string
}.

(** ** Text and URL utilities *)

Section Utilities.
Context {L : Library}.

Definition strip_tags (value : string) : string :=
  let value := Str.sub_tags value in
  let value := html_unescape value in
  Py.strip (Py.sub_runs Char.isspace " " value).

(** [canonical_site_url]: every exception is caught; [urlparse] fails on a
    value that is not a string. *)
Definition canonical_site_url (url : pyval) : option string :=
  if negb (Val.truthy url) then None
  else
    match url with
    | PStr u =>
        match urlparse u with
        | Returns parsed =>
            if negb (Py.truthy (Some (scheme parsed)))
               || negb (Py.truthy (Some (netloc parsed)))
            then None
            else Some (scheme parsed ++ "://" ++ netloc parsed)
        | Raises _ => None
        end
    | _ => None
    end.

End Utilities.

(** [urllib.parse.quote(s, safe=":/")]: the UTF-8 bytes of [s], each kept
    when it is a letter, a digit or one of [_.-~:/] and written [%XX]
    otherwise. *)
Module Quote.

Definition utf8 (c : ascii) : list N :=
  if (Char.code c <? 128)%N then [Char.code c]
  else [192 + Char.code c / 64; 128 + Char.code c mod 64]%N.

Definition unreserved (b : N) : bool :=
  let c := ascii_of_N b in
  (b <? 128)%N
  && (Char.between 65 90 c || Char.between 97 122 c || Char.between 48 57 c
      || Py.contains c "_.-~").

Definition hex_digit (n : N) : ascii :=
  match String.get (N.to_nat n) "0123456789ABCDEF" with
  | Some d => d
  | None => "0"%char
  end.

Definition quote_byte (safe : string) (b : N) : string :=
  if unreserved b || ((b <? 128)%N && Py.contains (ascii_of_N b) safe)
  then String (ascii_of_N b) ""
  else String "%" (String (hex_digit (b / 16)) (String (hex_digit (b mod 16)) "")).

Fixpoint quote (safe s : string) : string :=
  match s with
  | "" => ""
  | String c s' =>
      String.concat "" (map (quote_byte safe) (utf8 c)) ++ quote safe s'
  end.

End Quote.

(** [FAVICON_TMPL.format(url=u)] *)
Definition FAVICON_TMPL (u : string) : string :=
  "https://t0.gstatic.com/faviconV2?client=SOCIAL&type=FAVICON"
  ++ "&fallback_opts=TYPE,SIZE,URL&url=" ++ u ++ "&size=128".

Definition favicon_url (company_url : option string) : option string :=
  if negb (Py.truthy company_url) then None
  else Some (FAVICON_TMPL (Quote.quote ":/" (Py.or_empty company_url))).

(** ** The two source parsers

    Retrieval and the scan of the markup are outside the model: a parser
    receives, for each turn of its loop, what the patterns of the loop body
    captured on the page ([None] where a pattern did not match).  It returns
    the list of records, or the exception that left the loop. *)

(** One feed entry and its detail page, for [parse_python_jobs]. *)
Record PythonPage : Type := mkPythonPage {
  item_title : string;          (* item.findtext("title", default="") *)
  item_description : string;
  item_link : string;
  item_pubDate : string;
  listing_location : option string;
  listing_posted : option string;
  listing_categories : list string;
  web_link : option string;
  apply_link : option string;
  job_description : string     (* page[start:end], or "" *)
}.

(** One detail page for [parse_bwd_jobs]; [ld] is the structured-data
    object, empty when the page has none or it does not parse. *)
Record BwdPage : Type := mkBwdPage {
  page_url : string;            (* urljoin(BWD_JOBS, href) *)
  h1 : option string;
  block : option string;
  location_anchor : option string;
  salary_anchor : option string;
  posted_anchor : option string;
  apply_anchor : option string;
  ld : list (string * pyval)
}.

Section Parsers.
Context {L : Library}.

(** [urlparse(url).path.rstrip("/").split("/")[-1]] *)
Definition job_id (url : string) : outcome string :=
  match urlparse url with
  | Returns parsed =>
      Returns (Str.last_segment "/" (Str.rstrip_char "/" (path parsed)))
  | Raises e => Raises e
  end.

(** The topic filter at the head of the loop of [parse_python_jobs]. *)
Definition mentions_django (p : PythonPage) : bool :=
  Str.infix "django"
    (Py.lower (Py.strip (item_title p) ++ " " ++ Py.strip (item_description p))).

(** The body of the loop of [parse_python_jobs] past the filter. *)
Definition python_job (p : PythonPage) : outcome Job :=
  let title := Py.strip (item_title p) in
  let desc := Py.strip (item_description p) in
  let url := Py.strip (item_link p) in
  let categories :=
    filter (fun v => Py.truthy (Some v)) (map strip_tags (listing_categories p)) in
  let full_html := job_description p in
  let full_text :=
    if Py.truthy (Some full_html) then strip_tags full_html else strip_tags desc in
  let pub := Py.strip (item_pubDate p) in
  let pub_iso :=
    if Py.truthy (Some pub)
    then match parsedate_to_datetime pub with
         | Returns d => Some (isoformat d)
         | Raises _ => Some pub
         end
    else None in
  let company :=
    if Py.contains "," title
    then Some (Py.strip (Py.split_tail "," title)) else None in
  let apply_url := option_map html_unescape (apply_link p) in
  let company_url :=
    canonical_site_url
      (Val.of_opt (match web_link p with
                   | Some w => Some (html_unescape w)
                   | None => apply_url
                   end)) in
  match job_id url with
  | Raises e => Raises e
  | Returns the_id =>
      let job :=
        mkJob the_id title company url "python.org"
          (Val.of_opt (option_map strip_tags (listing_location p)))
          (Val.of_opt (match listing_posted p with
                       | Some posted => Some (Py.strip posted)
                       | None => pub_iso
                       end))
          (parse_salary full_text)
          (Val.of_opt (parse_employment full_text))
          (Some (skills_from_text full_text))
          (match categories with [] => None | _ => Some categories end)
          (Some (Str.take 500 full_text))
          (Some full_text)
          (if Py.truthy (Some full_html) then Some full_html else None)
          (Val.of_opt apply_url)
          company_url
          (favicon_url company_url)
          None in
      Returns (set_dedupe_key job (key_for (Some title) company))
  end.

Fixpoint parse_python_jobs (entries : list PythonPage) : outcome (list Job) :=
  match entries with
  | [] => Returns []
  | p :: entries' =>
      if negb (mentions_django p) then parse_python_jobs entries'
      else
        match python_job p with
        | Raises e => Raises e
        | Returns job =>
            match parse_python_jobs entries' with
            | Raises e => Raises e
            | Returns jobs => Returns (job :: jobs)
            end
        end
  end.

(** [(ld.get(outer, {}) or {}).get(inner) if isinstance(ld.get(outer, {}),
    dict) else None] *)
Definition ld_nested (ld : list (string * pyval)) (outer inner : string)
  : pyval :=
  let v := Val.get_default ld outer (PDict []) in
  if Val.is_dict v then Val.get_of (Val.or v (PDict [])) inner else PNone.

(** The body of the loop of [parse_bwd_jobs]. *)
Definition bwd_job (p : BwdPage) : outcome Job :=
  let url := page_url p in
  let title := match h1 p with Some h => strip_tags h | None => "" end in
  let company :=
    if Py.contains "@" title
    then Some (Py.strip (Py.split_tail "@" title)) else None in
  let full_html := match block p with Some b => b | None => "" end in
  let full_text := strip_tags full_html in
  let ld := ld p in
  let apply_url :=
    Val.or (Val.get ld "url")
           (Val.of_opt (option_map html_unescape (apply_anchor p))) in
  let company_url := canonical_site_url apply_url in
  match job_id url with
  | Raises e => Raises e
  | Returns the_id =>
      let company_value :=
        Val.or (ld_nested ld "hiringOrganization" "name") (Val.of_opt company) in
      let build (company : option string) : Job :=
        mkJob the_id title company url "builtwithdjango.com"
          (match location_anchor p with
           | Some l => PStr (strip_tags l)
           | None => ld_nested ld "jobLocation" "address"
           end)
          (Val.or (Val.get ld "datePosted")
                  (Val.of_opt (option_map strip_tags (posted_anchor p))))
          (match salary_anchor p with
           | Some s => parse_salary (strip_tags s)
           | None => None
           end)
          (Val.or (Val.get ld "employmentType")
                  (Val.of_opt (parse_employment full_text)))
          (Some (skills_from_text (title ++ String (ascii_of_nat 10) full_text)))
          (Some ["Django Job Board"])
          (if Py.truthy (Some full_text)
           then Some (Str.take 500 full_text) else None)
          (Some full_text)
          (Some full_html)
          apply_url
          company_url
          (favicon_url company_url)
          None in
      (* job.dedupe_key = key_for(job.title, job.company): inside, [norm]
         returns "" for a false value and calls [.lower()] on any other,
         which only a string has. *)
      match company_value with
      | PStr c => Returns (set_dedupe_key (build (Some c)) (key_for (Some title) (Some c)))
      | PNone => Returns (set_dedupe_key (build None) (key_for (Some title) None))
      | _ => Raises "AttributeError"
      end
  end.

(** [pages]: the detail pages in the order of the sorted links. *)
Fixpoint parse_bwd_jobs (pages : list BwdPage) : outcome (list Job) :=
  match pages with
  | [] => Returns []
  | p :: pages' =>
      match bwd_job p with
      | Raises e => Raises e
      | Returns job =>
          match parse_bwd_jobs pages' with
          | Raises e => Raises e
          | Returns jobs => Returns (job :: jobs)
          end
      end
  end.

End Parsers.

(** ** The publication date of a feed entry *)

Section Feed.
Context {L : Library}.

(** [datetime.now(timezone.utc)] when the clock reads [now]. *)
Definition utc_now (now : Z) : datetime := mkDatetime now (Some 0%Z).

(** [d.replace(tzinfo=timezone.utc)] *)
Definition replace_tzinfo_utc (d : datetime) : datetime :=
  mkDatetime (wall d) (Some 0%Z).

(** The two parsers applied to any value: both fail on one that is not a
    string. *)
Definition parsedate_value (value : pyval) : outcome datetime :=
  match value with
  | PStr s => parsedate_to_datetime s
  | _ => Raises "TypeError"
  end.

Definition fromisoformat_value (value : pyval) : outcome datetime :=
  match value with
  | PStr s => fromisoformat s
  | _ => Raises "TypeError"
  end.

Definition as_rfc2822 (now : Z) (value : pyval) : outcome string :=
  if negb (Val.truthy value) then Returns (format_datetime (utc_now now))
  else
    let parsed :=
      match parsedate_value value with
      | Returns d => d
      | Raises _ =>
          match fromisoformat_value value with
          | Returns d => d
          | Raises _ => utc_now now
          end
      end in
    let parsed :=
      match tzinfo parsed with
      | None => replace_tzinfo_utc parsed
      | Some _ => parsed
      end in
    Returns (format_datetime parsed).

End Feed.

(** The key as section 4.2 of the specification words it: the comma is
    looked for only when the title has no "@" ("else if"). *)
Definition computeKey_as_specified (title company : option string) : string :=
  let raw_title := Py.strip (Py.lower (Py.or_empty title)) in
  let raw_title :=
    if Py.contains "@" raw_title
    then Py.strip (Py.split_head "@" raw_title)
    else if Py.contains "," raw_title
         then Py.strip (Py.split_head "," raw_title)
         else raw_title in
  norm (Some raw_title) ++ "|" ++ norm company.

(** ** The two outputs *)

Definition PYTHON_RSS : string := "https://www.python.org/jobs/feed/rss/".
Definition BWD_JOBS : string := "https://builtwithdjango.com/jobs/".

(** The dict ["counts"]: the two lengths and, spliced in, the three
    entries of [stats]. *)
Record Counts : Type := mkCounts {
  python_org : Z;
  builtwithdjango : Z;
  merge_stats : Stats
}.

(** The dict [build_feed] returns; [asdict(job)] is the record itself. *)
Record Payload : Type := mkPayload {
  generated_at : string;
  sources : list string;
  counts : Counts;
  jobs : list Job
}.

(** [html.escape(s)]: the five characters of markup become entities. *)
Module Html.

Definition quot : ascii := ascii_of_nat 34.
Definition apos : ascii := ascii_of_nat 39.

Definition escape_char (c : ascii) : string :=
  if Ascii.eqb c "&" then "&amp;"
  else if Ascii.eqb c "<" then "&lt;"
  else if Ascii.eqb c ">" then "&gt;"
  else if Ascii.eqb c quot then "&quot;"
  else if Ascii.eqb c apos then "&#x27;"
  else String c "".

Fixpoint escape (s : string) : string :=
  match s with
  | "" => ""
  | String c s' => escape_char c ++ escape s'
  end.

End Html.

(** [a or b] on two [str | None] values. *)
Definition or_else (a b : option string) : option string :=
  if Py.truthy a then a else b.

(** [html.escape(v or "")] for a field that can hold any value: [escape]
    calls [.replace] on its argument, which only a string has. *)
Definition escape_value (v : pyval) : outcome string :=
  if Val.truthy v
  then match v with
       | PStr s => Returns (Html.escape s)
       | _ => Raises "AttributeError"
       end
  else Returns "".

Section Outputs.
Context {L : Library}.

(** [parse_python_jobs] and [parse_bwd_jobs] are given what they would
    retrieve; [now] is the reading of the clock. *)
Definition build_feed (now : Z) (entries : list PythonPage)
  (pages : list BwdPage) : outcome Payload :=
  match parse_python_jobs entries with
  | Raises e => Raises e
  | Returns python_jobs =>
      match parse_bwd_jobs pages with
      | Raises e => Raises e
      | Returns bwd_jobs =>
          let merged_stats := dedupe (python_jobs ++ bwd_jobs)%list in
          Returns
            (mkPayload (isoformat (utc_now now)) [PYTHON_RSS; BWD_JOBS]
               (mkCounts (Z.of_nat (List.length python_jobs))
                         (Z.of_nat (List.length bwd_jobs))
                         (snd merged_stats))
               (fst merged_stats))
      end
  end.

(** One turn of the loop of [write_rss]: the text of one [<item>]; [now] is
    the reading of the clock during the turn. *)
Definition rss_item (now : Z) (job : Job) : outcome string :=
  let desc :=
    Html.escape (Py.or_empty (or_else (summary job) (full_offer_text job))) in
  let company := Html.escape (Py.or_empty (company job)) in
  match escape_value (location job) with
  | Raises e => Raises e
  | Returns location =>
      let salary := Html.escape (Py.or_empty (salary job)) in
      let image_url := Html.escape (Py.or_empty (image_url job)) in
      let company_url := Html.escape (Py.or_empty (company_url job)) in
      match escape_value (apply_url job) with
      | Raises e => Raises e
      | Returns apply_url =>
          match as_rfc2822 now (date_posted job) with
          | Raises e => Raises e
          | Returns pub_date =>
              Returns
                ("<item>"
                 ++ "<title>" ++ Html.escape (title job) ++ "</title>"
                 ++ "<link>" ++ Html.escape (url job) ++ "</link>"
                 ++ "<guid isPermaLink=" ++ String Html.quot "false"
                 ++ String Html.quot ">"
                 ++ Html.escape
                      (Py.or_empty (or_else (dedupe_key job) (Some (id job))))
                 ++ "</guid>"
                 ++ "<pubDate>" ++ Html.escape pub_date ++ "</pubDate>"
                 ++ "<description>" ++ desc ++ "</description>"
                 ++ "<company>" ++ company ++ "</company>"
                 ++ "<location>" ++ location ++ "</location>"
                 ++ "<salary>" ++ salary ++ "</salary>"
                 ++ "<company_url>" ++ company_url ++ "</company_url>"
                 ++ "<apply_url>" ++ apply_url ++ "</apply_url>"
                 ++ "<image_url>" ++ image_url ++ "</image_url>"
                 ++ "</item>")
          end
      end
  end.

(** The loop of [write_rss]; each record comes with the reading of the
    clock during its turn. *)
Fixpoint channel_items (timed_jobs : list (Z * Job)) : outcome (list string) :=
  match timed_jobs with
  | [] => Returns []
  | (now, job) :: rest =>
      match rss_item now job with
      | Raises e => Raises e
      | Returns item =>
          match channel_items rest with
          | Raises e => Raises e
          | Returns items => Returns (item :: items)
          end
      end
  end.

(** [write_rss]: the text handed to [path.write_text], which encodes it
    as UTF-8 (every text of the model can be encoded); [built] is the
    reading of the clock for [lastBuildDate]. *)
Definition write_rss (built : Z) (timed_jobs : list (Z * Job)) : outcome string :=
  match channel_items timed_jobs with
  | Raises e => Raises e
  | Returns items =>
      let rss :=
        "<?xml version=" ++ String Html.quot "1.0" ++ String Html.quot " encoding="
        ++ String Html.quot "UTF-8" ++ String Html.quot "?>"
        ++ "<rss version=" ++ String Html.quot "2.0" ++ String Html.quot "><channel>"
        ++ "<title>Django Jobs Unified Feed</title>"
        ++ "<link>https://www.python.org/jobs/</link>"
        ++ "<description>Unified deduplicated Django jobs feed</description>"
        ++ "<lastBuildDate>"
        ++ Html.escape (format_datetime (utc_now built))
        ++ "</lastBuildDate>"
        ++ String.concat "" items
        ++ "</channel></rss>" in
      Returns (rss ++ String (ascii_of_nat 10) "")
  end.

End Outputs.

(** * Vocabulary of the properties

    Definitions the statements and their proofs are written with; none of
    them is part of the program. *)

(** ** Strings *)

(** [all_space w]: every character of [w] is white space. *)
Fixpoint all_space (w : string) : bool :=
  match w with
  | "" => true
  | String c w' => Char.isspace c && all_space w'
  end.

(** [headed s]: [s] is empty or starts with a character that is not white
    space, which is how every result of [lstrip] looks. *)
Definition headed (s : string) : bool :=
  match s with
  | "" => true
  | String c _ => negb (Char.isspace c)
  end.

(** [every cls s]: every character of [s] is in the class [cls]. *)
Fixpoint every (cls : ascii -> bool) (s : string) : bool :=
  match s with
  | "" => true
  | String c s' => cls c && every cls s'
  end.

(** [any_suffix p s]: [p] holds of [s] or of what is left of [s] after
    some of its first characters. *)
Fixpoint any_suffix (p : string -> bool) (s : string) : bool :=
  p s || match s with
         | "" => false
         | String _ s' => any_suffix p s'
         end.

(** The number of occurrences of [ch] in [s]. *)
Fixpoint count_char (ch : ascii) (s : string) : nat :=
  match s with
  | "" => 0
  | String c s' => (if Ascii.eqb c ch then 1 else 0) + count_char ch s'
  end.

(** ** Keys *)

(** The body of [norm] past its first test. *)
Definition norm_body (x : string) : string :=
  Py.strip
    (Py.sub_runs Char.isspace " "
       (Py.sub_runs (fun c => negb (Char.is_az09 c)) " " (Py.strip (Py.lower x)))).

(** [tidy s]: [s] is made of characters of [[a-z0-9]] and of spaces, and
    no space is directly followed by another.  [key_fragment] says the same
    with [contains] and [infix]. *)
Definition starts_space (s : string) : bool :=
  match s with
  | String c _ => Ascii.eqb c " "
  | "" => false
  end.

Fixpoint tidy (s : string) : bool :=
  match s with
  | "" => true
  | String c s' =>
      (Char.is_az09 c || (Ascii.eqb c " " && negb (starts_space s'))) && tidy s'
  end.

Definition key_fragment (s : string) : Prop :=
  (forall c, Py.contains c s = true -> Char.is_az09 c = true \/ c = " "%char)
  /\ Str.infix "  " s = false.

(** The role fragment before normalisation: what stands before the first
    comma of what stands before the first "@" of the lowered, trimmed
    title. *)
Definition role_of (title : option string) : string :=
  Py.strip
    (Py.split_head "," (Py.split_head "@" (Py.strip (Py.lower (Py.or_empty title))))).

(** ** Merger *)

(** The key [dedupe] computes for a record, and the record as [dedupe]
    leaves it once the key is written into it. *)
Definition job_key (job : Job) : string :=
  key_for (Some (title job)) (company job).

Definition keyed (job : Job) : Job := set_dedupe_key job (job_key job).

(** [richer a b]: [a] has the higher score, or the same score and the
    longer text.  [at_least a b]: [b] is not richer than [a]. *)
Definition richer (a b : Job) : Prop :=
  score b < score a \/ (score a = score b /\ text_len b < text_len a).

Definition at_least (a b : Job) : Prop :=
  score b < score a \/ (score a = score b /\ text_len b <= text_len a).

(** [best_of done v]: [v] is one of the records read so far, with its key
    written in; it is richer than every earlier record of its group and no
    later record of its group is richer than it. *)
Definition best_of (done : list Job) (v : Job) : Prop :=
  exists pre j post,
    done = (pre ++ j :: post)%list
    /\ v = keyed j
    /\ (forall x, In x pre -> job_key x = job_key j -> richer j x)
    /\ (forall x, In x post -> job_key x = job_key j -> at_least j x).

(** The invariant of the loop of [dedupe]: [d] is the dict after the
    records [done] were read. *)
Record store_ok (done : list Job) (d : by_key_t) : Prop := {
  ok_nodup : NoDup (map fst d);
  ok_entry : forall k v, In (k, v) d -> job_key v = k /\ best_of done v;
  ok_cover : forall j, In j done -> In (job_key j) (map fst d)
}.

(** ** Matches and the salary heuristic *)

(** [reaches r s t]: [r] matches at the start of [s] and leaves [t]. *)
Definition reaches (r : Re.regex) (s t : string) : Prop :=
  exists h, In h (Re.exec r s) /\ Re.rest h = t.

(** A dollar-prefixed amount: "$" directly followed by a decimal digit. *)
Definition starts_dollar_amount (s : string) : bool :=
  match s with
  | String a (String b _) => Salary.dollar a && Salary.digit b
  | _ => false
  end.

Definition has_dollar_amount (text : string) : bool :=
  any_suffix starts_dollar_amount text.

(** A number: a decimal digit, or a dollar-prefixed amount. *)
Definition starts_number (s : string) : bool :=
  match s with
  | String a _ => Salary.digit a || starts_dollar_amount s
  | "" => false
  end.

(** [skip_word_i w s]: what follows [w] at the start of [s], letters
    compared without regard to case. *)
Fixpoint skip_word_i (w s : string) : option string :=
  match w, s with
  | "", _ => Some s
  | String p w', String c s' =>
      if Re.is_char_i p c then skip_word_i w' s' else None
  | String _ _, "" => None
  end.

(** [within_gap n s]: a number starts in [s] after at most [n] characters,
    none of them a digit or "$". *)
Fixpoint within_gap (n : nat) (s : string) : bool :=
  starts_number s
  || match n, s with
     | S n', String c s' => Salary.not_digit_or_dollar c && within_gap n' s'
     | _, _ => false
     end.

Definition anchored_by (keyword s : string) : bool :=
  match skip_word_i keyword s with
  | Some after => within_gap 20 after
  | None => false
  end.

(** A number anchored by one of the two keywords. *)
Definition keyword_number_at (s : string) : bool :=
  anchored_by "salary" s || anchored_by "compensation" s.

Definition has_keyword_number (text : string) : bool :=
  any_suffix keyword_number_at text.

(** The same in words of the text: one of the two keywords in any mix of
    cases, then at most twenty characters that are neither digits nor "$",
    then a number. *)
Definition keyword_number_in (text : string) : Prop :=
  exists pre kw gap rest,
    text = pre ++ kw ++ gap ++ rest
    /\ (Py.lower kw = "salary" \/ Py.lower kw = "compensation")
    /\ String.length gap <= 20
    /\ every Salary.not_digit_or_dollar gap = true
    /\ starts_number rest = true.

(** [keyword_amount_text a]: [a] is a number as the keyword pattern writes
    it: "$" or nothing, a decimal digit, any digits and commas, and then a
    magnitude letter of the class [[kKmM]] or nothing. *)
Definition keyword_amount_text (a : string) : Prop :=
  exists sign d body suffix,
    a = sign ++ String d body ++ suffix
    /\ (sign = "" \/ sign = "$")
    /\ Char.isdecimal d = true
    /\ every Salary.digit_or_comma body = true
    /\ (suffix = ""
        \/ exists c, suffix = String c "" /\ Salary.magnitude c = true).

(** [keyword_range_text v]: one such number, or two of them with a dash of
    the class [[–\-]] between, white space allowed on both sides of the
    dash. *)
Definition keyword_range_text (v : string) : Prop :=
  keyword_amount_text v
  \/ exists a w1 c w2 b,
       v = a ++ w1 ++ String c w2 ++ b
       /\ keyword_amount_text a
       /\ all_space w1 = true
       /\ Salary.dash c = true
       /\ all_space w2 = true
       /\ keyword_amount_text b.

(** ** Example data *)

(** The two records of [test_dedupe_keeps_richer_record]. *)
Definition sparse : Job :=
  mkJob "1" "Senior Django Developer" (Some "Acme") "https://example.com/1"
        "python.org" PNone PNone None PNone None None None (Some "short") None
        PNone None None None.

Definition rich : Job :=
  mkJob "2" "Senior Django Developer @ Acme" (Some "Acme")
        "https://example.com/2" "builtwithdjango.com" (PStr "Remote") PNone None
        PNone (Some ["Django"]) None None (Some "long long text") None
        (PStr "https://apply.example.com/job") (Some "https://apply.example.com")
        (favicon_url (Some "https://apply.example.com")) None.

(** ** A library to run the builders on examples

    [urlparse] here reads [scheme://host/path] and nothing finer; entities
    are left alone; no text is a date in the feed's own grammar, and a text
    that starts with a digit is read as a naive ISO date. *)
Module Example.

Definition split_url (u : string) : outcome ParseResult :=
  if Str.infix "://" u
  then
    let after := Py.split_tail "/" (Py.split_tail "/" u) in
    Returns (mkParseResult (Py.split_head ":" u) (Py.split_head "/" after)
               (String.substring (String.length (Py.split_head "/" after))
                  (String.length after) after))
  else Returns (mkParseResult "" "" u).

Definition naive_date (s : string) : outcome datetime :=
  match s with
  | String c _ =>
      if Char.isdecimal c then Returns (mkDatetime (Z.of_nat (String.length s)) None)
      else Raises "ValueError"
  | "" => Raises "ValueError"
  end.

Definition library : Library := {|
  urlparse := split_url;
  html_unescape := fun s => s;
  parsedate_to_datetime := fun _ => Raises "ValueError";
  fromisoformat := naive_date;
  isoformat := fun _ => "";
  format_datetime :=
    fun d => match tzinfo d with Some _ => "aware" | None => "naive" end
|}.

(** A detail page of the listing site whose markup and structured data
    disagree about the location. *)
Definition page : BwdPage :=
  mkBwdPage "https://builtwithdjango.com/jobs/42/backend-developer"
    (Some "Backend Developer @ Acme")
    (Some "We build things with Django.")
    (Some "Remote") None (Some "Jan. 2, 2024")
    (Some "https://acme.example/careers/42")
    [("url", PStr "https://jobs.acme.example/42");
     ("hiringOrganization", PDict [("name", PStr "Acme Inc")]);
     ("jobLocation", PDict [("address", PStr "Berlin")]);
     ("datePosted", PStr "2024-01-02");
     ("employmentType", PStr "FULL_TIME")].

(** A feed entry with its detail page. *)
Definition entry : PythonPage :=
  mkPythonPage "Django Developer, Acme" "Work on a Django shop."
    "https://www.python.org/jobs/7001/" "Tue, 02 Jan 2024 10:00:00 +0000"
    (Some "Berlin, Germany") None ["Web"]
    (Some "https://acme.example/about") None
    "<div class=job-description>Django and more</div>".

End Example.

(** ** Further vocabulary *)

(** [single_spaced s]: the only white space in [s] is the space character,
    and no space is directly followed by another. *)
Fixpoint single_spaced (s : string) : bool :=
  match s with
  | "" => true
  | String c s' =>
      (negb (Char.isspace c) || (Ascii.eqb c " " && negb (starts_space s')))
      && single_spaced s'
  end.

(** [opens_tag s]: a match of [<[^>]+>] starts at the head of [s];
    [has_tag s]: one starts somewhere in [s]. *)
Definition opens_tag (s : string) : bool :=
  match s with
  | String c s' =>
      Ascii.eqb c "<"
      && match Str.close_from false s' with Some _ => true | None => false end
  | "" => false
  end.

Definition has_tag (s : string) : bool := any_suffix opens_tag s.

(** The characters [quote] with [safe=":/"] can write: ASCII letters and
    digits, [_.-~], the two safe characters, and "%". *)
Definition url_char (c : ascii) : bool :=
  Quote.unreserved (Char.code c) || Py.contains c ":/%".

(** Reading back a text that [quote] wrote.  [unquote_bytes]: "%XY" is the
    byte with the hexadecimal digits X and Y, any other character is its
    own byte.  [decode_utf8]: a byte below 128 is a character, and a byte
    [192 + h] followed by a byte [128 + l] is the character [64 h + l]. *)
Definition hex_value (c : ascii) : N :=
  (if Char.between 48 57 c then Char.code c - 48 else Char.code c - 55)%N.

Fixpoint unquote_bytes (t : string) : list N :=
  match t with
  | "" => []
  | String c t' =>
      if Ascii.eqb c "%"
      then match t' with
           | String x (String y t'') =>
               (16 * hex_value x + hex_value y)%N :: unquote_bytes t''
           | _ => []
           end
      else Char.code c :: unquote_bytes t'
  end.

Fixpoint decode_utf8 (bs : list N) : string :=
  match bs with
  | [] => ""
  | b :: bs' =>
      if (b <? 128)%N then String (ascii_of_N b) (decode_utf8 bs')
      else match bs' with
           | b2 :: bs'' =>
               String (ascii_of_N (64 * (b - 192) + (b2 - 128)))
                      (decode_utf8 bs'')
           | [] => ""
           end
  end.

Definition unquote (t : string) : string := decode_utf8 (unquote_bytes t).

(** [reads_as enc b]: [enc] is how [quote] writes one byte, and
    [unquote_bytes] reads it as [b].  [reads_char bs c]: [bs] are the UTF-8
    bytes of one character, and [decode_utf8] reads them as [c]. *)
Definition reads_as (enc : string) (b : N) : bool :=
  match enc with
  | String ch "" => negb (Ascii.eqb ch "%") && (Char.code ch =? b)%N
  | String ch (String x (String y "")) =>
      Ascii.eqb ch "%" && (16 * hex_value x + hex_value y =? b)%N
  | _ => false
  end.

Definition reads_char (bs : list N) (c : ascii) : bool :=
  match bs with
  | [b] => (b <? 128)%N && Ascii.eqb (ascii_of_N b) c
  | [b; b2] =>
      negb (b <? 128)%N
      && Ascii.eqb (ascii_of_N (64 * (b - 192) + (b2 - 128))) c
  | _ => false
  end.

(** [ascii_only s]: every character of [s] is an ASCII character. *)
Definition ascii_only (s : string) : bool :=
  every (fun c => (Char.code c <? 128)%N) s.

(** [part_of v text]: [v] stands somewhere in [text]. *)
Definition part_of (v text : string) : Prop :=
  exists pre post, text = pre ++ v ++ post.

(** [squeeze s]: [s] without its hyphens and white space. *)
Fixpoint squeeze (s : string) : string :=
  match s with
  | "" => ""
  | String c s' =>
      if Employment.hyphen_or_space c then squeeze s' else String c (squeeze s')
  end.

(** The closed vocabulary of [parse_employment], compound terms written in
    one word. *)
Definition employment_words : list string :=
  ["fulltime"; "parttime"; "contract"; "temporary"; "internship"; "intern"].

(** Whether [s] starts, or ends, with a character of the class [\w]. *)
Definition starts_with_word (s : string) : bool :=
  match s with
  | String c _ => Char.isword c
  | "" => false
  end.

Definition ends_with_word (s : string) : bool :=
  match Employment.last_char s None with
  | Some c => Char.isword c
  | None => false
  end.

(** The labels of [skills_from_text], in the order of its keys. *)
Definition skill_labels : list string :=
  ["Django"; "Python"; "Postgresql"; "AWS"; "Kubernetes"; "Docker"; "REST";
   "API"; "Pytest"; "SQL"; "React"].

(** The separator of a compound term: nothing, or one hyphen or white
    space. *)
Definition separator (m : string) : Prop :=
  m = "" \/ exists c, m = String c "" /\ Employment.hyphen_or_space c = true.

(** The six shapes of a match of the body of the pattern. *)
Definition employment_shape (m : string) : Prop :=
  (exists m1 m2 m3, m = m1 ++ m2 ++ m3 /\ Py.lower m1 = "full"
                    /\ separator m2 /\ Py.lower m3 = "time")
  \/ (exists m1 m2 m3, m = m1 ++ m2 ++ m3 /\ Py.lower m1 = "part"
                       /\ separator m2 /\ Py.lower m3 = "time")
  \/ Py.lower m = "contract"
  \/ Py.lower m = "temporary"
  \/ Py.lower m = "internship"
  \/ Py.lower m = "intern".

(** [first_seen keys]: the keys without repetitions, each at the place
    where it occurs first. *)
Fixpoint first_seen (keys : list string) : list string :=
  match keys with
  | [] => []
  | k :: keys' => k :: filter (fun k' => negb (String.eqb k k')) (first_seen keys')
  end.

(** [absent_from l k]: the key [k] is not in [l]. *)
Definition absent_from (l : list string) (k : string) : bool :=
  negb (existsb (String.eqb k) l).

(** [text_only v]: the value is a string or [None].  [not_text v]: a true
    value that is not a string, the kind on which a string method fails. *)
Definition text_only (v : pyval) : bool :=
  match v with
  | PNone | PStr _ => true
  | _ => false
  end.

Definition not_text (v : pyval) : bool :=
  Val.truthy v && negb (text_only v).

(** [returns o]: the call ended with a value. *)
Definition returns {A : Type} (o : outcome A) : Prop :=
  exists a, o = Returns a.

(** Two more records: another role, and the role of [sparse] at another
    company. *)
Definition backend_job : Job :=
  mkJob "3" "Backend Engineer, Initech" (Some "Initech")
        "https://example.com/3" "python.org" (PStr "Austin") PNone None PNone
        None None None (Some "Python and Django services") None PNone None None
        None.

Definition sparse_elsewhere : Job :=
  mkJob "4" "Senior Django Developer" (Some "Globex") "https://example.com/4"
        "builtwithdjango.com" PNone PNone None PNone None None None
        (Some "short") None PNone None None None.

(** A detail page without a location line in its markup, where the
    structured data has the address. *)
Definition page_without_location_line : BwdPage :=
  mkBwdPage "https://builtwithdjango.com/jobs/43/data-engineer"
    (Some "Data Engineer @ Initech")
    (Some "Pipelines in Python.")
    None None None None
    [("url", PStr "https://initech.example/jobs/43");
     ("jobLocation", PDict [("address", PStr "Austin, TX")])].

(** A detail page whose structured data names the organisation by a
    number, and a record whose location is an object of the structured
    data. *)
Definition page_with_numeric_name : BwdPage :=
  mkBwdPage "https://builtwithdjango.com/jobs/44/platform-engineer"
    (Some "Platform Engineer @ Hooli") (Some "Django at scale.")
    None None None None
    [("hiringOrganization", PDict [("name", PInt 7)])].

Definition located_by_object : Job :=
  mkJob "5" "Platform Engineer @ Hooli" (Some "Hooli")
        "https://example.com/5" "builtwithdjango.com"
        (PDict [("addressLocality", PStr "Palo Alto")]) PNone None PNone None
        None None (Some "Django at scale.") None PNone None None None.

(** * Properties *)

(** ** Characters *)

Ltac each_char c :=
  destruct c as [[|] [|] [|] [|] [|] [|] [|] [|]];
  vm_compute; try reflexivity; try discriminate; auto.

Lemma isspace_lower_char c :
  Char.isspace (Char.lower_char c) = Char.isspace c.
Proof. each_char c. Qed.

Lemma is_az09_not_space c : Char.is_az09 c = true -> Char.isspace c = false.
Proof. each_char c. Qed.

(** ** Strings *)

Lemma app_empty_r (s : string) : s ++ "" = s.
Proof. induction s; simpl; congruence. Qed.

Lemma app_assoc_s (a b c : string) : (a ++ b) ++ c = a ++ b ++ c.
Proof. induction a; simpl; congruence. Qed.

Lemma lower_app a b : Py.lower (a ++ b) = Py.lower a ++ Py.lower b.
Proof. induction a; simpl; congruence. Qed.

Lemma lstrip_app_space w x : all_space w = true -> Py.lstrip (w ++ x) = Py.lstrip x.
Proof.
  induction w as [|c w IH]; simpl; intros H; [reflexivity|].
  apply andb_true_iff in H as [Hc Hw]. rewrite Hc. auto.
Qed.

Lemma rstrip_all_space w : all_space w = true -> Py.rstrip w = "".
Proof.
  induction w as [|c w IH]; simpl; intros H; [reflexivity|].
  apply andb_true_iff in H as [Hc Hw]. rewrite (IH Hw), Hc. reflexivity.
Qed.

Lemma rstrip_empty_all_space w : Py.rstrip w = "" -> all_space w = true.
Proof.
  induction w as [|c w IH]; simpl; intros H; [reflexivity|].
  destruct (Py.rstrip w) eqn:E.
  - destruct (Char.isspace c); [simpl; auto | discriminate].
  - discriminate.
Qed.

Lemma rstrip_app_space x w : all_space w = true -> Py.rstrip (x ++ w) = Py.rstrip x.
Proof.
  intros H. induction x as [|c x IH]; simpl.
  - apply rstrip_all_space, H.
  - rewrite IH. reflexivity.
Qed.

Lemma lstrip_split s : exists w, s = w ++ Py.lstrip s /\ all_space w = true.
Proof.
  induction s as [|c s [w [E H]]]; simpl.
  - exists "". auto.
  - destruct (Char.isspace c) eqn:Hc.
    + exists (String c w). simpl. rewrite Hc, H. split; [congruence | reflexivity].
    + exists "". auto.
Qed.

Lemma rstrip_split s : exists w, s = Py.rstrip s ++ w /\ all_space w = true.
Proof.
  induction s as [|c s [w [E H]]]; simpl.
  - exists "". auto.
  - destruct (Py.rstrip s) eqn:Er.
    + destruct (Char.isspace c) eqn:Hc.
      * exists (String c s). simpl. rewrite Hc. split; [reflexivity|].
        apply rstrip_empty_all_space, Er.
      * exists w. simpl in *. split; [congruence | exact H].
    + exists w. simpl in *. split; [congruence | exact H].
Qed.

Lemma headed_lstrip s : headed (Py.lstrip s) = true.
Proof.
  induction s as [|c s IH]; simpl; [reflexivity|].
  destruct (Char.isspace c) eqn:Hc; [exact IH | simpl; rewrite Hc; reflexivity].
Qed.

Lemma lstrip_headed s : headed s = true -> Py.lstrip s = s.
Proof.
  destruct s as [|c s]; simpl; [reflexivity|].
  destruct (Char.isspace c); [discriminate | reflexivity].
Qed.

Lemma lstrip_all_space w : all_space w = true -> Py.lstrip w = "".
Proof.
  intros H. rewrite <- (app_empty_r w). rewrite lstrip_app_space by exact H.
  reflexivity.
Qed.

Lemma headed_rstrip s : headed s = true -> headed (Py.rstrip s) = true.
Proof.
  destruct s as [|c s]; simpl; [reflexivity|].
  intros H. destruct (Py.rstrip s); simpl.
  - destruct (Char.isspace c) eqn:Hc; [discriminate | simpl; rewrite Hc; reflexivity].
  - exact H.
Qed.

Lemma rstrip_idem s : Py.rstrip (Py.rstrip s) = Py.rstrip s.
Proof.
  induction s as [|c s IH]; simpl; [reflexivity|].
  destruct (Py.rstrip s) eqn:E; simpl.
  - destruct (Char.isspace c) eqn:Hc; simpl; [reflexivity|].
    rewrite Hc. reflexivity.
  - simpl in IH. rewrite IH. reflexivity.
Qed.

Lemma headed_strip s : headed (Py.strip s) = true.
Proof. apply headed_rstrip, headed_lstrip. Qed.

Lemma rstrip_strip s : Py.rstrip (Py.strip s) = Py.strip s.
Proof. apply rstrip_idem. Qed.

(** [strip] removes white space on both sides and nothing else. *)
Lemma strip_split s :
  exists w1 w2,
    s = w1 ++ Py.strip s ++ w2 /\ all_space w1 = true /\ all_space w2 = true.
Proof.
  destruct (lstrip_split s) as [w1 [E1 H1]].
  destruct (rstrip_split (Py.lstrip s)) as [w2 [E2 H2]].
  exists w1, w2. unfold Py.strip. rewrite <- E2. auto.
Qed.

Lemma strip_app_space_l w x : all_space w = true -> Py.strip (w ++ x) = Py.strip x.
Proof. intros H. unfold Py.strip. rewrite lstrip_app_space by exact H. reflexivity. Qed.

Lemma strip_app_space_r x w : all_space w = true -> Py.strip (x ++ w) = Py.strip x.
Proof.
  intros H. unfold Py.strip.
  destruct (lstrip_split x) as [w1 [E1 H1]].
  rewrite E1 at 1. rewrite app_assoc_s, lstrip_app_space by exact H1.
  pose proof (headed_lstrip x) as Hh.
  destruct (Py.lstrip x) as [|c l] eqn:El.
  - simpl. rewrite lstrip_all_space by exact H. reflexivity.
  - rewrite lstrip_headed by exact Hh. apply rstrip_app_space, H.
Qed.

Lemma strip_idem s : Py.strip (Py.strip s) = Py.strip s.
Proof.
  unfold Py.strip at 1. rewrite lstrip_headed by apply headed_strip.
  apply rstrip_strip.
Qed.

Lemma lower_lstrip s : Py.lstrip (Py.lower s) = Py.lower (Py.lstrip s).
Proof.
  induction s as [|c s IH]; simpl; [reflexivity|].
  rewrite isspace_lower_char. destruct (Char.isspace c); [exact IH | reflexivity].
Qed.

Lemma lower_rstrip s : Py.rstrip (Py.lower s) = Py.lower (Py.rstrip s).
Proof.
  induction s as [|c s IH]; simpl; [reflexivity|].
  rewrite IH, isspace_lower_char.
  destruct (Py.rstrip s); simpl; [destruct (Char.isspace c)|]; reflexivity.
Qed.

Lemma lower_strip s : Py.strip (Py.lower s) = Py.lower (Py.strip s).
Proof. unfold Py.strip. rewrite lower_lstrip, lower_rstrip. reflexivity. Qed.

(** *** Membership and splitting at a character *)

Lemma contains_app ch a b :
  Py.contains ch (a ++ b) = Py.contains ch a || Py.contains ch b.
Proof.
  induction a as [|c a IH]; simpl; [reflexivity|].
  rewrite IH, orb_assoc. reflexivity.
Qed.

Lemma contains_all_space ch w :
  Char.isspace ch = false -> all_space w = true -> Py.contains ch w = false.
Proof.
  intros Hch. induction w as [|c w IH]; simpl; intros H; [reflexivity|].
  apply andb_true_iff in H as [Hc Hw]. rewrite (IH Hw), orb_false_r.
  destruct (Ascii.eqb_spec c ch); [congruence | reflexivity].
Qed.

Lemma split_head_absent ch s : Py.contains ch s = false -> Py.split_head ch s = s.
Proof.
  induction s as [|c s IH]; simpl; intros H; [reflexivity|].
  apply orb_false_iff in H as [Hc Hs]. rewrite Hc, (IH Hs). reflexivity.
Qed.

Lemma split_head_app ch a b :
  Py.split_head ch (a ++ b)
  = if Py.contains ch a then Py.split_head ch a else a ++ Py.split_head ch b.
Proof.
  induction a as [|c a IH]; simpl; [reflexivity|].
  destruct (Ascii.eqb c ch); simpl; [reflexivity|].
  rewrite IH. destruct (Py.contains ch a); reflexivity.
Qed.

Lemma contains_strip ch s :
  Py.contains ch s = false -> Py.contains ch (Py.strip s) = false.
Proof.
  destruct (strip_split s) as [w1 [w2 [E _]]]. intros H.
  rewrite E in H. rewrite !contains_app in H.
  apply orb_false_iff in H as [_ H]. apply orb_false_iff in H as [H _]. exact H.
Qed.

Lemma strip_split_head_strip ch x :
  Char.isspace ch = false ->
  Py.strip (Py.split_head ch (Py.strip x)) = Py.strip (Py.split_head ch x).
Proof.
  intros Hch. destruct (strip_split x) as [w1 [w2 [E [H1 H2]]]].
  rewrite E at 2.
  rewrite split_head_app, (contains_all_space ch w1 Hch H1).
  rewrite strip_app_space_l by exact H1.
  rewrite split_head_app.
  destruct (Py.contains ch (Py.strip x)) eqn:Hc; [reflexivity|].
  rewrite !split_head_absent; auto using contains_all_space.
  rewrite strip_app_space_r by exact H2. reflexivity.
Qed.

(** ** [norm] *)

Lemma norm_Some x : norm (Some x) = norm_body x.
Proof. destruct x; reflexivity. Qed.

Lemma norm_strip x : norm (Some (Py.strip x)) = norm (Some x).
Proof.
  rewrite !norm_Some. unfold norm_body.
  rewrite <- lower_strip, strip_idem. reflexivity.
Qed.

Lemma norm_app_space x w :
  all_space w = true -> norm (Some (x ++ w)) = norm (Some x).
Proof.
  intros H. rewrite !norm_Some. unfold norm_body.
  rewrite lower_app, strip_app_space_r; [reflexivity|].
  clear x. induction w as [|c w IH]; simpl in *; [reflexivity|].
  apply andb_true_iff in H as [Hc Hw].
  rewrite isspace_lower_char, Hc. auto.
Qed.

Lemma is_az09_not_blank c : Char.is_az09 c = true -> Ascii.eqb c " " = false.
Proof. each_char c. Qed.

Lemma tidy_sub_nonalnum w b :
  let out := Py.sub_runs_from b (fun c => negb (Char.is_az09 c)) " " w in
  tidy out = true /\ (b = true -> starts_space out = false).
Proof.
  revert b. induction w as [|c w IH]; intros b; simpl.
  - auto.
  - destruct (Char.is_az09 c) eqn:Hc; simpl.
    + rewrite Hc. simpl. split; [apply IH | intros _; apply is_az09_not_blank, Hc].
    + destruct (IH true) as [Ht Hs]. specialize (Hs eq_refl).
      destruct b; simpl; [auto|]. rewrite Hs, Ht. split; [reflexivity | discriminate].
Qed.

Lemma sub_space_tidy s b :
  tidy s = true -> (b = true -> starts_space s = false) ->
  Py.sub_runs_from b Char.isspace " " s = s.
Proof.
  revert b. induction s as [|c s IH]; intros b Ht Hb; simpl; [reflexivity|].
  simpl in Ht. apply andb_true_iff in Ht as [Hc Ht].
  destruct (Char.is_az09 c) eqn:Ha.
  - rewrite (is_az09_not_space c Ha). f_equal. apply IH; [exact Ht | discriminate].
  - simpl in Hc. apply andb_true_iff in Hc as [Hc Hn].
    apply Ascii.eqb_eq in Hc. subst c. simpl.
    destruct b; [specialize (Hb eq_refl); discriminate|].
    simpl. f_equal. apply IH; [exact Ht|].
    intros _. destruct (starts_space s); [discriminate | reflexivity].
Qed.

Lemma tidy_tail c s : tidy (String c s) = true -> tidy s = true.
Proof. simpl. intros H. apply andb_true_iff in H. tauto. Qed.

Lemma tidy_lstrip s : tidy s = true -> tidy (Py.lstrip s) = true.
Proof.
  induction s as [|c s IH]; intros H; [reflexivity|]. simpl.
  destruct (Char.isspace c); [apply IH, (tidy_tail c), H | exact H].
Qed.

Lemma starts_space_rstrip s :
  Py.rstrip s <> "" -> starts_space (Py.rstrip s) = starts_space s.
Proof.
  destruct s as [|c s]; simpl; [reflexivity|].
  destruct (Py.rstrip s); [destruct (Char.isspace c)|]; simpl; congruence.
Qed.

Lemma tidy_rstrip s : tidy s = true -> tidy (Py.rstrip s) = true.
Proof.
  induction s as [|c s IH]; intros H; [reflexivity|].
  pose proof (IH (tidy_tail _ _ H)) as Hr.
  simpl in H. apply andb_true_iff in H as [Hc Ht]. simpl.
  destruct (Py.rstrip s) as [|d r] eqn:E.
  - destruct (Char.isspace c) eqn:Hs; [reflexivity|]. simpl.
    destruct (Char.is_az09 c); [reflexivity|]. simpl in Hc.
    apply andb_true_iff in Hc as [Hc _]. apply Ascii.eqb_eq in Hc. subst c.
    discriminate.
  - change (tidy (String c (String d r)) = true).
    assert (Hss : starts_space (String d r) = starts_space s).
    { rewrite <- E. apply starts_space_rstrip. rewrite E. discriminate. }
    cbn [tidy]. rewrite Hss. cbn [tidy] in Hr. rewrite Hr, Hc. reflexivity.
Qed.

Lemma tidy_norm v : tidy (norm v) = true.
Proof.
  destruct v as [x|]; [|reflexivity]. rewrite norm_Some. unfold norm_body.
  set (w := Py.strip (Py.lower x)).
  destruct (tidy_sub_nonalnum w false) as [Ht _].
  unfold Py.sub_runs. rewrite (sub_space_tidy _ false Ht) by discriminate.
  apply tidy_rstrip, tidy_lstrip, Ht.
Qed.

Lemma tidy_chars s c :
  tidy s = true -> Py.contains c s = true -> Char.is_az09 c = true \/ c = " "%char.
Proof.
  induction s as [|d s IH]; simpl; intros Ht Hc; [discriminate|].
  apply andb_true_iff in Ht as [Hd Ht].
  apply orb_true_iff in Hc as [Hc|Hc]; [|auto].
  apply Ascii.eqb_eq in Hc. subst d.
  apply orb_true_iff in Hd as [Hd|Hd]; [auto|].
  apply andb_true_iff in Hd as [Hd _]. apply Ascii.eqb_eq in Hd. auto.
Qed.

Lemma startswith_two_blanks c s :
  Str.startswith "  " (String c s) = Ascii.eqb c " " && starts_space s.
Proof.
  cbn [Str.startswith]. rewrite (Ascii.eqb_sym " " c).
  destruct s as [|d s]; cbn [Str.startswith starts_space]; [reflexivity|].
  rewrite (Ascii.eqb_sym " " d), andb_true_r. reflexivity.
Qed.

Lemma tidy_single_spaces s : tidy s = true -> Str.infix "  " s = false.
Proof.
  induction s as [|c s IH]; intros Ht; [reflexivity|].
  pose proof (IH (tidy_tail _ _ Ht)) as Hi.
  cbn [tidy] in Ht. apply andb_true_iff in Ht as [Hc _].
  cbn [Str.infix]. rewrite Hi, orb_false_r, startswith_two_blanks.
  destruct (Char.is_az09 c) eqn:Ha.
  - rewrite (is_az09_not_blank c Ha). reflexivity.
  - cbn [orb] in Hc. apply andb_true_iff in Hc as [_ Hn].
    destruct (starts_space s); [discriminate | apply andb_false_r].
Qed.

Lemma tidy_fragment s : tidy s = true -> key_fragment s.
Proof.
  intros H. split; [intros c; apply tidy_chars, H | apply tidy_single_spaces, H].
Qed.

Lemma tidy_no_bar s : tidy s = true -> count_char "|" s = 0.
Proof.
  induction s as [|c s IH]; intros Ht; [reflexivity|].
  simpl. rewrite (IH (tidy_tail _ _ Ht)).
  destruct (tidy_chars _ c Ht) as [H|H].
  - simpl. rewrite Ascii.eqb_refl. reflexivity.
  - destruct (Ascii.eqb_spec c "|"); [subst c; discriminate | reflexivity].
  - subst c. reflexivity.
Qed.

Lemma count_char_app ch a b :
  count_char ch (a ++ b) = count_char ch a + count_char ch b.
Proof. induction a as [|c a IH]; simpl; [reflexivity|]. rewrite IH. lia. Qed.

(** ** [key_for] *)

Lemma key_for_role title company :
  key_for title company = norm (Some (role_of title)) ++ "|" ++ norm company.
Proof.
  unfold key_for, role_of.
  set (raw := Py.strip (Py.lower (Py.or_empty title))).
  assert (H1 : (if Py.contains "@" raw then Py.strip (Py.split_head "@" raw) else raw)
               = Py.strip (Py.split_head "@" raw)).
  { destruct (Py.contains "@" raw) eqn:E; [reflexivity|].
    rewrite split_head_absent by exact E. unfold raw. symmetry. apply strip_idem. }
  rewrite H1. set (r1 := Py.strip (Py.split_head "@" raw)).
  assert (H2 : (if Py.contains "," r1 then Py.strip (Py.split_head "," r1) else r1)
               = Py.strip (Py.split_head "," r1)).
  { destruct (Py.contains "," r1) eqn:E; [reflexivity|].
    rewrite split_head_absent by exact E. unfold r1. symmetry. apply strip_idem. }
  rewrite H2. unfold r1.
  rewrite strip_split_head_strip by reflexivity. reflexivity.
Qed.

Lemma norm_role_of title :
  norm (Some (role_of title))
  = norm (Some (Py.split_head "," (Py.split_head "@" (Py.lower (Py.or_empty title))))).
Proof.
  unfold role_of. rewrite norm_strip. rewrite <- norm_strip.
  rewrite <- (strip_split_head_strip "," (Py.split_head "@" _)) by reflexivity.
  rewrite (strip_split_head_strip "@") by reflexivity.
  rewrite (strip_split_head_strip ",") by reflexivity.
  apply norm_strip.
Qed.

Lemma role_before_comma r c :
  Py.split_head "," (Py.split_head "@" (r ++ ", " ++ c))
  = if Py.contains "@" r || Py.contains "," r
    then Py.split_head "," (Py.split_head "@" r) else r.
Proof.
  rewrite split_head_app. destruct (Py.contains "@" r) eqn:Ea; [reflexivity|].
  change (Py.split_head "@" (", " ++ c)) with (", " ++ Py.split_head "@" c).
  rewrite split_head_app, (split_head_absent "@" r Ea).
  destruct (Py.contains "," r); [reflexivity|]. apply app_empty_r.
Qed.

Lemma role_before_at r c :
  Py.split_head "," (Py.split_head "@" (r ++ " @ " ++ c))
  = if Py.contains "@" r || Py.contains "," r
    then Py.split_head "," (Py.split_head "@" r) else r ++ " ".
Proof.
  rewrite split_head_app. destruct (Py.contains "@" r) eqn:Ea; [reflexivity|].
  change (Py.split_head "@" (" @ " ++ c)) with " ".
  rewrite split_head_app, (split_head_absent "@" r Ea).
  destruct (Py.contains "," r); reflexivity.
Qed.

(** The two keys of [test_key_normalizes_title_variants]. *)
Example key_for_title_variants :
  key_for (Some "Senior Django Developer, Acme") (Some "Acme")
  = "senior django developer|acme"
  /\ key_for (Some "Senior Django Developer @ Acme") (Some "Acme")
     = "senior django developer|acme".
Proof. split; vm_compute; reflexivity. Qed.

(** With the comma looked for only in titles without "@", as the
    specification words it, the two formats of a title would not always get
    the same key. *)
Example specified_key_depends_on_format :
  computeKey_as_specified (Some ("Developer, Backend" ++ ", " ++ "Acme")) (Some "Acme")
  = "developer|acme"
  /\ computeKey_as_specified (Some ("Developer, Backend" ++ " @ " ++ "Acme")) (Some "Acme")
     = "developer backend|acme".
Proof. split; vm_compute; reflexivity. Qed.

(** C10.  [key_for] returns a key for every title and company, absent ones
    included: with both absent or empty the key is the bare separator, and
    in general the key is two fragments around one "|", each made of
    characters of [[a-z0-9]] and single spaces only. *)
Theorem key_for_total_two_fragments :
  key_for None None = "|"
  /\ key_for None (Some "") = "|"
  /\ key_for (Some "") None = "|"
  /\ key_for (Some "") (Some "") = "|"
  /\ forall title company : option string,
       exists role org : string,
         key_for title company = role ++ "|" ++ org
         /\ key_fragment role
         /\ key_fragment org
         /\ count_char "|" (key_for title company) = 1.
Proof.
  repeat (split; [vm_compute; reflexivity|]).
  intros title company.
  exists (norm (Some (role_of title))), (norm company).
  rewrite key_for_role.
  repeat split; try (apply tidy_fragment, tidy_norm).
  rewrite !count_char_app.
  rewrite (tidy_no_bar _ (tidy_norm (Some (role_of title)))).
  rewrite (tidy_no_bar _ (tidy_norm company)). reflexivity.
Qed.

(** C3, what the claim says fails here: with a comma before the "@" the
    code cuts the title at the comma as well. *)
Lemma key_for_cuts_at_comma_before_at :
  key_for (Some "Developer, Backend @ Acme") (Some "Acme") = "developer|acme"
  /\ computeKey_as_specified (Some "Developer, Backend @ Acme") (Some "Acme")
     = "developer backend|acme".
Proof. split; vm_compute; reflexivity. Qed.

(** C3, as the code has it.  The title is lowered and trimmed; what stands
    before the first "@" is kept (all of it when there is none); of that,
    what stands before the first comma is kept, whether or not an "@" was
    found.  The result is the one the specification describes whenever the
    title has no "@" or has no comma before its first "@". *)
Theorem key_for_splits_in_sequence :
  forall title company : option string,
    key_for title company
    = norm (Some (Py.strip
                    (Py.split_head ","
                       (Py.split_head "@"
                          (Py.strip (Py.lower (Py.or_empty title)))))))
      ++ "|" ++ norm company
    /\ (Py.contains "@" (Py.strip (Py.lower (Py.or_empty title))) = false
        \/ Py.contains ","
             (Py.split_head "@" (Py.strip (Py.lower (Py.or_empty title)))) = false
        -> key_for title company = computeKey_as_specified title company).
Proof.
  intros title company. split; [apply key_for_role|].
  unfold key_for, computeKey_as_specified.
  set (raw := Py.strip (Py.lower (Py.or_empty title))).
  intros [H|H].
  - rewrite H. reflexivity.
  - destruct (Py.contains "@" raw) eqn:Ea; [|reflexivity].
    rewrite (contains_strip "," _ H). reflexivity.
Qed.

Lemma key_for_splits_in_sequence_witness :
  key_for (Some "Senior Django Developer @ Acme, Inc") (Some "Acme")
  = computeKey_as_specified (Some "Senior Django Developer @ Acme, Inc") (Some "Acme").
Proof.
  apply (proj2 (key_for_splits_in_sequence
                  (Some "Senior Django Developer @ Acme, Inc") (Some "Acme"))).
  right. vm_compute. reflexivity.
Defined.

(** C2.  With the company argument held fixed, a title written
    "Role, Company" and the same title written "Role @ Company" get the
    same key. *)
Theorem key_for_comma_or_at :
  forall r c : string,
    key_for (Some (r ++ ", " ++ c)) (Some c)
    = key_for (Some (r ++ " @ " ++ c)) (Some c).
Proof.
  intros r c. rewrite !key_for_role. f_equal.
  rewrite !norm_role_of. cbn [Py.or_empty].
  rewrite !lower_app.
  change (Py.lower ", ") with ", ". change (Py.lower " @ ") with " @ ".
  rewrite role_before_comma, role_before_at.
  destruct (Py.contains "@" (Py.lower r) || Py.contains "," (Py.lower r));
    [reflexivity|].
  symmetry. apply norm_app_space. reflexivity.
Qed.

(** ** The merger *)

Lemma replaces_richer a b : replaces a b = true <-> richer a b.
Proof.
  unfold replaces, richer.
  rewrite orb_true_iff, andb_true_iff, !Nat.ltb_lt, Nat.eqb_eq. reflexivity.
Qed.

Lemma not_replaces_at_least a b : replaces a b = false <-> at_least b a.
Proof.
  unfold replaces, at_least.
  rewrite orb_false_iff, andb_false_iff, !Nat.ltb_ge, Nat.eqb_neq. lia.
Qed.

Lemma at_least_not_richer a b : at_least a b <-> ~ richer b a.
Proof. unfold richer, at_least. lia. Qed.

Lemma richer_at_least_trans a b c : richer a b -> at_least b c -> richer a c.
Proof. unfold richer, at_least. lia. Qed.

Lemma richer_at_least a b : richer a b -> at_least a b.
Proof. unfold richer, at_least. lia. Qed.

Lemma at_least_refl a : at_least a a.
Proof. unfold at_least. lia. Qed.

Lemma score_keyed job : score (keyed job) = score job.
Proof. reflexivity. Qed.

Lemma job_key_keyed job : job_key (keyed job) = job_key job.
Proof. reflexivity. Qed.

Lemma keyed_keyed job : keyed (keyed job) = keyed job.
Proof. reflexivity. Qed.

Lemma dedupe_step_eq by_key job :
  dedupe_step by_key job
  = match lookup (job_key job) by_key with
    | None => assign (job_key job) (keyed job) by_key
    | Some existing =>
        if replaces (keyed job) existing
        then assign (job_key job) (keyed job) by_key else by_key
    end.
Proof. reflexivity. Qed.

(** *** The dict [by_key] *)

Lemma lookup_None key d : lookup key d = None <-> ~ In key (map fst d).
Proof.
  induction d as [|[k v] d IH]; simpl; [tauto|].
  destruct (String.eqb_spec k key); [|tauto].
  split; [discriminate | intros H; exfalso; auto].
Qed.

Lemma lookup_Some_in key d v : lookup key d = Some v -> In (key, v) d.
Proof.
  induction d as [|[k w] d IH]; simpl; [discriminate|].
  destruct (String.eqb_spec k key); [|auto].
  intros [= <-]. subst k. auto.
Qed.

Lemma in_lookup key d v :
  NoDup (map fst d) -> In (key, v) d -> lookup key d = Some v.
Proof.
  induction d as [|[k w] d IH]; simpl; [tauto|].
  intros Hnd [H|H].
  - injection H as -> ->. rewrite String.eqb_refl. reflexivity.
  - inversion Hnd as [|? ? Hk Hnd']; subst.
    destruct (String.eqb_spec k key) as [->|]; [|auto].
    exfalso. apply Hk. change key with (fst (key, v)). apply in_map, H.
Qed.

Lemma assign_fresh key job d :
  lookup key d = None -> assign key job d = (d ++ [(key, job)])%list.
Proof.
  induction d as [|[k w] d IH]; simpl; [reflexivity|].
  destruct (String.eqb k key); [discriminate|]. intros H. rewrite IH by exact H.
  reflexivity.
Qed.

Lemma assign_keys key job d v :
  lookup key d = Some v -> map fst (assign key job d) = map fst d.
Proof.
  induction d as [|[k w] d IH]; simpl; [discriminate|].
  destruct (String.eqb k key); [reflexivity|]. intros H. simpl.
  rewrite IH by exact H. reflexivity.
Qed.

Lemma in_assign key job d k v :
  NoDup (map fst d) ->
  In (k, v) (assign key job d) ->
  (k = key /\ v = job) \/ (k <> key /\ In (k, v) d).
Proof.
  induction d as [|[k0 w] d IH]; simpl.
  - intros _ [[= <- <-]|[]]. auto.
  - intros Hnd. inversion Hnd as [|? ? Hk Hnd']; subst.
    destruct (String.eqb_spec k0 key) as [->|Hne]; simpl.
    + intros [[= <- <-]|H]; [auto|]. right. split; [|auto].
      intros ->. apply Hk. change key with (fst (key, v)). apply in_map, H.
    + intros [[= <- <-]|H]; [auto|].
      destruct (IH Hnd' H) as [?|[? ?]]; auto.
Qed.

(** *** The invariant of the loop *)

Lemma best_of_dominates done v x :
  best_of done v -> In x done -> job_key x = job_key v -> at_least v x.
Proof.
  intros (pre & j & post & -> & -> & Hpre & Hpost) Hx Hk.
  rewrite job_key_keyed in Hk.
  assert (at_least j x) as H; [|exact H].
  apply in_app_or in Hx as [Hx|[<-|Hx]].
  - apply richer_at_least, Hpre; assumption.
  - apply at_least_refl.
  - apply Hpost; assumption.
Qed.

Lemma best_of_snoc_other done v job :
  best_of done v -> job_key job <> job_key v -> best_of (done ++ [job]) v.
Proof.
  intros (pre & j & post & -> & -> & Hpre & Hpost) Hk.
  exists pre, j, (post ++ [job])%list.
  rewrite <- app_assoc. repeat split; auto.
  intros x Hx Hkx. apply in_app_or in Hx as [Hx|[<-|[]]]; [auto|].
  rewrite job_key_keyed in Hk. congruence.
Qed.

Lemma best_of_snoc_weaker done v job :
  best_of done v -> at_least v job -> best_of (done ++ [job]) v.
Proof.
  intros (pre & j & post & -> & -> & Hpre & Hpost) Hw.
  exists pre, j, (post ++ [job])%list.
  rewrite <- app_assoc. repeat split; auto.
  intros x Hx Hkx. apply in_app_or in Hx as [Hx|[<-|[]]]; [auto|]. exact Hw.
Qed.

Lemma best_of_snoc_new done job :
  (forall x, In x done -> job_key x = job_key job -> richer job x) ->
  best_of (done ++ [job]) (keyed job).
Proof.
  intros H. exists done, job, []. repeat split; auto. intros x [].
Qed.

Lemma store_ok_nil : store_ok [] [].
Proof. split; simpl; [constructor | tauto | tauto]. Qed.

Lemma store_ok_step done d job :
  store_ok done d -> store_ok (done ++ [job]) (dedupe_step d job).
Proof.
  intros [Hnd Hent Hcov]. rewrite dedupe_step_eq.
  destruct (lookup (job_key job) d) as [existing|] eqn:El.
  - (* the key is in the dict *)
    pose proof (lookup_Some_in _ _ _ El) as Hin.
    destruct (Hent _ _ Hin) as [Hke Hbest].
    destruct (replaces (keyed job) existing) eqn:Er.
    + apply replaces_richer in Er.
      split.
      * rewrite (assign_keys _ _ _ _ El). exact Hnd.
      * intros k v Hkv. apply (in_assign _ _ _ _ _ Hnd) in Hkv as [[-> ->]|[Hne Hkv]].
        -- split; [apply job_key_keyed|]. apply best_of_snoc_new.
           intros x Hx Hkx.
           apply (richer_at_least_trans _ existing); [exact Er|].
           apply (best_of_dominates done); congruence.
        -- destruct (Hent _ _ Hkv) as [Hk Hb]. split; [exact Hk|].
           apply best_of_snoc_other; congruence.
      * intros j Hj. rewrite (assign_keys _ _ _ _ El).
        apply in_app_or in Hj as [Hj|[<-|[]]]; [auto|].
        change (job_key job) with (fst (job_key job, existing)). apply in_map, Hin.
    + apply not_replaces_at_least in Er.
      split.
      * exact Hnd.
      * intros k v Hkv. destruct (Hent _ _ Hkv) as [Hk Hb]. split; [exact Hk|].
        destruct (String.eqb_spec k (job_key job)) as [->|Hne].
        -- rewrite (in_lookup _ _ _ Hnd Hkv) in El. injection El as ->.
           apply best_of_snoc_weaker; assumption.
        -- apply best_of_snoc_other; congruence.
      * intros j Hj. apply in_app_or in Hj as [Hj|[<-|[]]]; [auto|].
        change (job_key job) with (fst (job_key job, existing)). apply in_map, Hin.
  - (* a new key *)
    pose proof (proj1 (lookup_None _ _) El) as Hfresh.
    rewrite (assign_fresh _ _ _ El). split.
    + rewrite map_app. simpl. apply NoDup_app; [exact Hnd | repeat constructor; auto | ].
      intros k Hk [<-|[]]. auto.
    + intros k v Hkv. apply in_app_or in Hkv as [Hkv|[[= <- <-]|[]]].
      * destruct (Hent _ _ Hkv) as [Hk Hb]. split; [exact Hk|].
        apply best_of_snoc_other; [exact Hb|].
        intros E. apply Hfresh. rewrite E, Hk.
        change k with (fst (k, v)). apply in_map, Hkv.
      * split; [apply job_key_keyed|]. apply best_of_snoc_new.
        intros x Hx Hkx. exfalso. apply Hfresh. rewrite <- Hkx. auto.
    + intros j Hj. rewrite map_app. apply in_or_app.
      apply in_app_or in Hj as [Hj|[<-|[]]]; [auto | right; simpl; auto].
Qed.

Lemma store_ok_fold jobs : forall done d,
  store_ok done d -> store_ok (done ++ jobs) (fold_left dedupe_step jobs d).
Proof.
  induction jobs as [|job jobs IH]; intros done d H; simpl.
  - rewrite app_nil_r. exact H.
  - replace (done ++ job :: jobs)%list with ((done ++ [job]) ++ jobs)%list
      by (rewrite <- app_assoc; reflexivity).
    apply IH, store_ok_step, H.
Qed.

Lemma store_ok_dedupe jobs : store_ok jobs (fold_left dedupe_step jobs []).
Proof. apply (store_ok_fold jobs [] []), store_ok_nil. Qed.

Lemma map_key_entries (d : by_key_t) :
  (forall k v, In (k, v) d -> job_key v = k) ->
  map job_key (map snd d) = map fst d.
Proof.
  induction d as [|[k v] d IH]; simpl; intros H; [reflexivity|].
  rewrite (H k v), IH; auto.
Qed.

Lemma dedupe_pair_rich_first a b :
  job_key a = job_key b -> score b < score a ->
  fst (dedupe [a; b]) = [keyed a].
Proof.
  intros Hk Hs. unfold dedupe. simpl fold_left.
  rewrite (dedupe_step_eq [] a). simpl lookup. simpl assign.
  rewrite dedupe_step_eq. simpl lookup. rewrite Hk, String.eqb_refl.
  assert (replaces (keyed b) (keyed a) = false) as ->.
  { apply not_replaces_at_least. left. rewrite !score_keyed. exact Hs. }
  reflexivity.
Qed.

Lemma dedupe_pair_rich_last a b :
  job_key a = job_key b -> score b < score a ->
  fst (dedupe [b; a]) = [keyed a].
Proof.
  intros Hk Hs. unfold dedupe. simpl fold_left.
  rewrite (dedupe_step_eq [] b). simpl lookup. simpl assign.
  rewrite dedupe_step_eq. simpl lookup. rewrite Hk, String.eqb_refl.
  assert (replaces (keyed a) (keyed b) = true) as ->.
  { apply replaces_richer. left. rewrite !score_keyed. exact Hs. }
  simpl. rewrite String.eqb_refl. reflexivity.
Qed.

(** [test_dedupe_keeps_richer_record]. *)
Example dedupe_keeps_richer_record :
  duplicates_removed (snd (dedupe [sparse; rich])) = 1%Z
  /\ map url (fst (dedupe [sparse; rich])) = ["https://example.com/2"].
Proof. split; vm_compute; reflexivity. Qed.

(** The three counts always add up. *)
Lemma dedupe_counts jobs :
  (output_count (snd (dedupe jobs)) + duplicates_removed (snd (dedupe jobs))
   = input_count (snd (dedupe jobs)))%Z.
Proof. unfold dedupe. simpl. lia. Qed.

(** C1.  Every record [dedupe] returns is one of the records it read, with
    its key written in, and within the records that share its key it has
    the highest score, among those the longest text, and among those it
    came first: each earlier record of the group has a lower score, or the
    same score and a shorter text; no later one has a higher score, or the
    same score and a longer text.  Every group has exactly one such
    record.  In particular, of two records with one key and different
    scores, the one with the higher score is kept in either order. *)
Theorem dedupe_keeps_the_best :
  (forall jobs : list Job,
      (forall s, In s (fst (dedupe jobs)) ->
         exists pre j post,
           jobs = (pre ++ j :: post)%list
           /\ s = keyed j
           /\ (forall x, In x pre -> job_key x = job_key j -> richer j x)
           /\ (forall x, In x post -> job_key x = job_key j -> at_least j x))
      /\ (forall j, In j jobs ->
            exists s, In s (fst (dedupe jobs)) /\ job_key s = job_key j)
      /\ NoDup (map job_key (fst (dedupe jobs))))
  /\ (forall a b : Job,
        job_key a = job_key b -> score b < score a ->
        fst (dedupe [a; b]) = [keyed a] /\ fst (dedupe [b; a]) = [keyed a]).
Proof.
  split.
  - intros jobs. destruct (store_ok_dedupe jobs) as [Hnd Hent Hcov].
    unfold dedupe. cbn [fst]. set (d := fold_left dedupe_step jobs []) in *.
    repeat split.
    + intros s Hs. apply in_map_iff in Hs as [[k v] [<- Hkv]].
      apply (Hent k v Hkv).
    + intros j Hj. apply Hcov in Hj. apply in_map_iff in Hj as [[k v] [Hk Hkv]].
      simpl in Hk. subst k. exists v. split.
      * change v with (snd (job_key j, v)). apply in_map, Hkv.
      * apply (Hent _ _ Hkv).
    + rewrite map_key_entries; [exact Hnd|]. intros k v Hkv. apply (Hent _ _ Hkv).
  - intros a b Hk Hs. split.
    + apply dedupe_pair_rich_first; assumption.
    + apply dedupe_pair_rich_last; assumption.
Qed.

Lemma dedupe_keeps_the_best_witness :
  fst (dedupe [sparse; rich]) = [keyed rich]
  /\ fst (dedupe [rich; sparse]) = [keyed rich].
Proof.
  apply (proj2 dedupe_keeps_the_best rich sparse).
  - vm_compute. reflexivity.
  - vm_compute. lia.
Defined.

(** *** Merging a merged list *)

Lemma nodup_app_head_fresh (ks : list string) k rest :
  NoDup (ks ++ k :: rest) -> ~ In k ks.
Proof.
  induction ks as [|k0 ks IH]; simpl; [tauto|].
  intros Hnd [->|Hin]; inversion Hnd as [|? ? Hx Hnd']; subst.
  - apply Hx, in_or_app. right. simpl. auto.
  - exact (IH Hnd' Hin).
Qed.

Lemma fold_distinct_keys l : forall d,
  NoDup (map fst d ++ map job_key l) ->
  (forall v, In v l -> keyed v = v) ->
  fold_left dedupe_step l d = (d ++ map (fun v => (job_key v, v)) l)%list.
Proof.
  induction l as [|v l IH]; intros d Hnd Hk; simpl.
  - symmetry. apply app_nil_r.
  - assert (Hl : lookup (job_key v) d = None).
    { apply lookup_None. exact (nodup_app_head_fresh _ _ _ Hnd). }
    rewrite dedupe_step_eq, Hl, (assign_fresh _ _ _ Hl).
    rewrite (Hk v) by (simpl; auto).
    rewrite IH.
    + rewrite <- app_assoc. reflexivity.
    + rewrite map_app. simpl. rewrite <- app_assoc. exact Hnd.
    + intros w Hw. apply Hk. simpl. auto.
Qed.

(** C4.  Merging the list a merge returned gives that list back: the same
    records in the same order. *)
Theorem dedupe_idempotent :
  forall jobs : list Job, fst (dedupe (fst (dedupe jobs))) = fst (dedupe jobs).
Proof.
  intros jobs. destruct (store_ok_dedupe jobs) as [Hnd Hent Hcov].
  unfold dedupe. cbn [fst]. set (d := fold_left dedupe_step jobs []) in *.
  rewrite fold_distinct_keys.
  - simpl. rewrite map_map. simpl. apply map_id.
  - simpl. rewrite map_key_entries; [exact Hnd|].
    intros k v Hkv. apply (Hent _ _ Hkv).
  - intros v Hv. apply in_map_iff in Hv as [[k w] [<- Hkw]].
    destruct (Hent _ _ Hkw) as [_ (pre & j & post & _ & -> & _)].
    apply keyed_keyed.
Qed.

(** ** The matcher *)

Lemma in_exec_chr cls s h :
  In h (Re.exec (Re.Chr cls) s) ->
  exists c, s = String c (Re.rest h) /\ cls c = true
            /\ Re.matched h = String c "" /\ Re.group1 h = None.
Proof.
  destruct s as [|c s]; simpl; [tauto|].
  destruct (cls c) eqn:E; simpl; [|tauto].
  intros [<-|[]]. exists c. auto.
Qed.

Lemma in_exec_seq r1 r2 s h :
  In h (Re.exec (Re.Seq r1 r2) s) ->
  exists h1 h2,
    In h1 (Re.exec r1 s) /\ In h2 (Re.exec r2 (Re.rest h1))
    /\ Re.matched h = Re.matched h1 ++ Re.matched h2
    /\ Re.group1 h = Re.later (Re.group1 h2) (Re.group1 h1)
    /\ Re.rest h = Re.rest h2.
Proof.
  simpl. intros H. apply in_flat_map in H as [h1 [H1 H]].
  apply in_map_iff in H as [h2 [<- H2]]. exists h1, h2. auto.
Qed.

Lemma in_exec_group r s h :
  In h (Re.exec (Re.Group r) s) ->
  exists h', In h' (Re.exec r s) /\ Re.matched h = Re.matched h'
             /\ Re.group1 h = Some (Re.matched h') /\ Re.rest h = Re.rest h'.
Proof.
  simpl. intros H. apply in_map_iff in H as [h' [<- H']]. exists h'. auto.
Qed.

Lemma in_exec_opt r s h :
  In h (Re.exec (Re.Opt r) s) ->
  In h (Re.exec r s) \/ h = Re.mkHit "" None s.
Proof.
  simpl. intros H. apply in_app_or in H as [H|[<-|[]]]; auto.
Qed.

Lemma in_exec_alt r1 r2 s h :
  In h (Re.exec (Re.Alt r1 r2) s) -> In h (Re.exec r1 s) \/ In h (Re.exec r2 s).
Proof. simpl. apply in_app_or. Qed.

Lemma in_exec_rep cls lo hi s h :
  In h (Re.exec (Re.Rep cls lo hi) s) ->
  In (Re.matched h, Re.rest h) (Re.rep cls lo hi s) /\ Re.group1 h = None.
Proof.
  simpl. intros H. apply in_map_iff in H as [[m r] [<- H]]. auto.
Qed.

Lemma search_None r (p : string -> bool) s :
  (forall t h, In h (Re.exec r t) -> p t = true) ->
  any_suffix p s = false -> Re.search r s = None.
Proof.
  intros Hp. induction s as [|c s IH]; intros H; simpl in *.
  - destruct (Re.exec r "") as [|h l] eqn:E; [reflexivity|].
    rewrite (Hp "" h) in H; [discriminate | rewrite E; simpl; auto].
  - apply orb_false_iff in H as [H1 H2].
    destruct (Re.exec r (String c s)) as [|h l] eqn:E; [auto|].
    rewrite (Hp _ h) in H1; [discriminate | rewrite E; simpl; auto].
Qed.

Lemma search_Some r s h :
  Re.search r s = Some h -> exists pre t, s = pre ++ t /\ In h (Re.exec r t).
Proof.
  induction s as [|c s IH]; simpl.
  - destruct (Re.exec r "") as [|h0 l] eqn:E; [discriminate|].
    intros [= <-]. exists "", "". rewrite E. simpl. auto.
  - destruct (Re.exec r (String c s)) as [|h0 l] eqn:E.
    + intros H. destruct (IH H) as (pre & t & -> & Hin).
      exists (String c pre), t. auto.
    + intros [= <-]. exists "", (String c s). rewrite E. simpl. auto.
Qed.

(** ** The salary heuristic *)

Lemma exec_word_i w : forall s h,
  In h (Re.exec (Re.word_i w) s) -> skip_word_i w s = Some (Re.rest h).
Proof.
  induction w as [|p w IH]; intros s h H.
  - simpl in H. destruct H as [<-|[]]. destruct s; reflexivity.
  - cbn [Re.word_i] in H.
    apply in_exec_seq in H as (h1 & h2 & H1 & H2 & _ & _ & Hr).
    apply in_exec_chr in H1 as (c & Hs & Hc & _).
    rewrite Hs. cbn [skip_word_i]. rewrite Hc, Hr. apply IH, H2.
Qed.

Lemma rep_within_gap s : forall lo n m r,
  In (m, r) (Re.rep Salary.not_digit_or_dollar lo (Some n) s) ->
  starts_number r = true -> within_gap n s = true.
Proof.
  induction s as [|c s IH]; intros lo n m r H Hr.
  - cbn [Re.rep] in H. destruct (lo =? 0)%nat; [|destruct H].
    destruct H as [[= <- <-]|[]]. destruct n; simpl in *; rewrite Hr; reflexivity.
  - assert (Hstop : In (m, r) (if (lo =? 0)%nat then [("", String c s)] else []) ->
                    within_gap n (String c s) = true).
    { destruct (lo =? 0)%nat; [|intros []]. intros [[= <- <-]|[]].
      destruct n; cbn [within_gap]; rewrite Hr; reflexivity. }
    cbn [Re.rep] in H.
    destruct (Salary.not_digit_or_dollar c) eqn:Hc; [|auto].
    destruct n as [|n]; [auto|]. cbn [andb option_map Nat.pred] in H.
    apply in_app_or in H as [H|H]; [|auto].
    apply in_map_iff in H as [[m' r'] [[= <- <-] H]]. cbn [snd] in Hr.
    cbn [within_gap]. rewrite Hc, (IH _ _ _ _ H Hr). apply orb_true_r.
Qed.

(** The start of a match of [\$?\d...]. *)
Lemma exec_keyword_amount s h :
  In h (Re.exec Salary.keyword_amount s) ->
  exists d tl r,
    Salary.digit d = true
    /\ ((Re.matched h = String d tl /\ s = String d r)
        \/ (Re.matched h = String "$" (String d tl) /\ s = String "$" (String d r))).
Proof.
  unfold Salary.keyword_amount. intros H.
  apply in_exec_seq in H as (h1 & h2 & H1 & H2 & Hm & _ & _).
  apply in_exec_seq in H2 as (h3 & h4 & H3 & _ & Hm2 & _ & _).
  apply in_exec_chr in H3 as (d & Hs3 & Hd & Hm3 & _).
  rewrite Hm, Hm2, Hm3.
  apply in_exec_opt in H1 as [H1| ->].
  - apply in_exec_chr in H1 as (c & Hs1 & Hc & Hm1 & _).
    apply Ascii.eqb_eq in Hc. subst c.
    exists d, (Re.matched h4), (Re.rest h3). split; [exact Hd|]. right.
    rewrite Hm1, Hs1, Hs3. auto.
  - exists d, (Re.matched h4), (Re.rest h3). split; [exact Hd|]. left.
    simpl in *. auto.
Qed.

Lemma exec_keyword_amount_starts s h :
  In h (Re.exec Salary.keyword_amount s) -> starts_number s = true.
Proof.
  intros H. apply exec_keyword_amount in H as (d & tl & r & Hd & [[_ ->]|[_ ->]]).
  - cbn [starts_number]. rewrite Hd. reflexivity.
  - cbn [starts_number starts_dollar_amount]. rewrite Hd. apply orb_true_r.
Qed.

Lemma exec_dollar_amount_starts s h :
  In h (Re.exec Salary.dollar_amount s) -> starts_dollar_amount s = true.
Proof.
  unfold Salary.dollar_amount. intros H.
  apply in_exec_seq in H as (h1 & h2 & H1 & H2 & _).
  apply in_exec_seq in H2 as (h3 & h4 & H3 & _).
  apply in_exec_chr in H1 as (c & Hs1 & Hc & _).
  apply in_exec_chr in H3 as (d & Hs3 & Hd & _).
  rewrite Hs1, Hs3. cbn [starts_dollar_amount]. rewrite Hc, Hd. reflexivity.
Qed.

Lemma exec_range_of amount s h :
  In h (Re.exec (Salary.range_of amount) s) ->
  exists h1 tl, In h1 (Re.exec amount s) /\ Re.matched h = Re.matched h1 ++ tl.
Proof.
  unfold Salary.range_of. intros H.
  apply in_exec_seq in H as (h1 & h2 & H1 & _ & Hm & _).
  exists h1, (Re.matched h2). auto.
Qed.

Lemma exec_dollar_re s h :
  In h (Re.exec Salary.dollar_re s) -> starts_dollar_amount s = true.
Proof.
  unfold Salary.dollar_re. intros H.
  apply in_exec_group in H as (h' & H & _).
  apply exec_range_of in H as (h1 & tl & H & _).
  apply (exec_dollar_amount_starts _ _ H).
Qed.

(** What a match of the keyword pattern captures. *)
Lemma exec_keyword_re s h :
  In h (Re.exec Salary.keyword_re s) ->
  keyword_number_at s = true
  /\ exists d tl,
       Salary.digit d = true
       /\ (Re.group1 h = Some (String d tl)
           \/ Re.group1 h = Some (String "$" (String d tl))).
Proof.
  unfold Salary.keyword_re. intros H.
  apply in_exec_seq in H as (h1 & h2 & H1 & H2 & _ & Hg & _).
  apply in_exec_seq in H2 as (h3 & h4 & H3 & H4 & _ & Hg2 & _).
  apply in_exec_rep in H3 as [H3 _].
  apply in_exec_group in H4 as (h5 & H5 & _ & Hg4 & _).
  apply exec_range_of in H5 as (h6 & tl & H6 & Hm5).
  pose proof (exec_keyword_amount_starts _ _ H6) as Hn.
  pose proof (rep_within_gap _ _ _ _ _ H3 Hn) as Hgap.
  split.
  - unfold keyword_number_at, anchored_by.
    apply in_exec_alt in H1 as [H1|H1]; apply exec_word_i in H1; rewrite H1, Hgap;
      [reflexivity | apply orb_true_r].
  - rewrite Hg, Hg2, Hg4. cbn [Re.later]. rewrite Hm5.
    apply exec_keyword_amount in H6 as (d & tl' & r & Hd & [[-> _]|[-> _]]);
      exists d, (tl' ++ tl); split; auto.
Qed.

Lemma digit_not_space d : Salary.digit d = true -> Char.isspace d = false.
Proof. unfold Salary.digit. each_char d. Qed.

Lemma rstrip_cons c s :
  Char.isspace c = false -> exists r, Py.rstrip (String c s) = String c r.
Proof.
  intros Hc. simpl. destruct (Py.rstrip s) as [|e r].
  - rewrite Hc. exists "". reflexivity.
  - exists (String e r). reflexivity.
Qed.

Lemma strip_cons c s :
  Char.isspace c = false -> exists r, Py.strip (String c s) = String c r.
Proof.
  intros Hc. unfold Py.strip. cbn [Py.lstrip]. rewrite Hc.
  apply rstrip_cons, Hc.
Qed.

Lemma strip_cons2 c d s :
  Char.isspace c = false -> Char.isspace d = false ->
  exists r, Py.strip (String c (String d s)) = String c (String d r).
Proof.
  intros Hc Hd. unfold Py.strip. cbn [Py.lstrip]. rewrite Hc.
  destruct (rstrip_cons d s Hd) as [r Hr].
  exists r. cbn [Py.rstrip] in *. rewrite Hr. reflexivity.
Qed.

Lemma any_suffix_spec p s :
  any_suffix p s = true <-> exists pre t, s = pre ++ t /\ p t = true.
Proof.
  split.
  - induction s as [|c s IH]; simpl; intros H.
    + rewrite orb_false_r in H. exists "", "". auto.
    + apply orb_true_iff in H as [H|H]; [exists "", (String c s); auto|].
      destruct (IH H) as (pre & t & -> & Ht). exists (String c pre), t. auto.
  - intros (pre & t & -> & Ht). induction pre as [|c pre IH]; simpl.
    + destruct t; simpl; rewrite Ht; reflexivity.
    + rewrite IH. apply orb_true_r.
Qed.

(** [has_dollar_amount] says what it should: somewhere in the text a "$"
    is directly followed by a decimal digit. *)
Lemma has_dollar_amount_spec text :
  has_dollar_amount text = true
  <-> exists pre d post,
        text = pre ++ String "$" (String d post) /\ Char.isdecimal d = true.
Proof.
  unfold has_dollar_amount. rewrite any_suffix_spec. split.
  - intros (pre & t & -> & Ht). destruct t as [|a [|b t]]; try discriminate.
    simpl in Ht. apply andb_true_iff in Ht as [Ha Hb].
    apply Ascii.eqb_eq in Ha. subst a. exists pre, b, t. auto.
  - intros (pre & d & post & -> & Hd). exists pre, (String "$" (String d post)).
    split; [reflexivity|]. simpl. exact Hd.
Qed.

(** The three texts of [test_parse_salary_ignores_punctuation_noise], and
    a range written with decimals and magnitudes. *)
Example parse_salary_tests :
  parse_salary "hello, world" = None
  /\ parse_salary "Raised 3.1M and growing month-on-month" = None
  /\ parse_salary "Salary: $120,000 - $150,000" = Some "$120,000 - $150,000"
  /\ parse_salary "We pay $3.5k-$4k a month" = Some "$3.5k-$4k".
Proof. repeat split; vm_compute; reflexivity. Qed.

(** C5.  A text with no dollar-prefixed amount and no number anchored by
    "salary" or "compensation" has no salary; the two examples of the
    specification come out as stated. *)
Theorem parse_salary_needs_anchor :
  (forall text : string,
      has_dollar_amount text = false ->
      has_keyword_number text = false ->
      parse_salary text = None)
  /\ parse_salary "Raised 3.1M and growing month-on-month" = None
  /\ parse_salary "Salary: $120,000 - $150,000" = Some "$120,000 - $150,000".
Proof.
  split; [|split; vm_compute; reflexivity].
  intros text Hd Hk. unfold parse_salary.
  rewrite (search_None Salary.keyword_re keyword_number_at text).
  - rewrite (search_None Salary.dollar_re starts_dollar_amount text);
      [reflexivity | apply exec_dollar_re | exact Hd].
  - intros t h H. apply (exec_keyword_re t h H).
  - exact Hk.
Qed.

Lemma parse_salary_needs_anchor_witness :
  parse_salary "Raised 3.1M and growing month-on-month" = None.
Proof.
  apply (proj1 parse_salary_needs_anchor); vm_compute; reflexivity.
Defined.

Lemma every_app cls a b : every cls (a ++ b) = every cls a && every cls b.
Proof.
  induction a as [|c a IH]; [reflexivity|]. cbn [append every].
  rewrite IH, andb_assoc. reflexivity.
Qed.

Lemma rep_every cls s : forall lo hi m r,
  In (m, r) (Re.rep cls lo hi s) -> every cls m = true.
Proof.
  induction s as [|c s IH]; intros lo hi m r H; cbn [Re.rep] in H.
  - destruct (lo =? 0)%nat; [|destruct H]. destruct H as [[= <- <-]|[]]. reflexivity.
  - assert (Hstop : In (m, r) (if (lo =? 0)%nat then [("", String c s)] else []) ->
                    every cls m = true).
    { destruct (lo =? 0)%nat; [|intros []]. intros [[= <- <-]|[]]. reflexivity. }
    destruct (cls c) eqn:Hc; cbn [andb] in H; [|auto].
    destruct (match hi with Some 0 => false | _ => true end); [|auto].
    apply in_app_or in H as [H|H]; [|auto].
    apply in_map_iff in H as [[m' r'] [[= <- <-] H]].
    cbn [fst every]. rewrite Hc. exact (IH _ _ _ _ H).
Qed.

Lemma all_space_every w : all_space w = every Char.isspace w.
Proof. induction w as [|c w IH]; cbn; congruence. Qed.

(** *** The shape of a number after a keyword *)

Lemma exec_keyword_amount_text s h :
  In h (Re.exec Salary.keyword_amount s) -> keyword_amount_text (Re.matched h).
Proof.
  unfold Salary.keyword_amount. intros H.
  apply in_exec_seq in H as (h1 & h2 & H1 & H2 & -> & _ & _).
  apply in_exec_seq in H2 as (h3 & h4 & H3 & H4 & -> & _ & _).
  apply in_exec_seq in H4 as (h5 & h6 & H5 & H6 & -> & _ & _).
  apply in_exec_chr in H3 as (d & _ & Hd & -> & _).
  apply in_exec_rep in H5 as [H5 _]. apply rep_every in H5.
  exists (Re.matched h1), d, (Re.matched h5), (Re.matched h6).
  split; [reflexivity|]. split; [|split; [exact Hd|split; [exact H5|]]].
  - apply in_exec_opt in H1 as [H1| ->]; [|left; reflexivity].
    apply in_exec_chr in H1 as (c & _ & Hc & -> & _).
    apply Ascii.eqb_eq in Hc. subst c. right. reflexivity.
  - apply in_exec_opt in H6 as [H6| ->]; [|left; reflexivity].
    apply in_exec_chr in H6 as (c & _ & Hc & -> & _).
    right. exists c. split; [reflexivity | exact Hc].
Qed.

Lemma exec_keyword_range_text s h :
  In h (Re.exec (Salary.range_of Salary.keyword_amount) s) ->
  keyword_range_text (Re.matched h).
Proof.
  unfold Salary.range_of. intros H.
  apply in_exec_seq in H as (h1 & h2 & H1 & H2 & -> & _ & _).
  apply exec_keyword_amount_text in H1.
  apply in_exec_opt in H2 as [H2| ->].
  - apply in_exec_seq in H2 as (h3 & h4 & H3 & H4 & -> & _ & _).
    apply in_exec_seq in H4 as (h5 & h6 & H5 & H6 & -> & _ & _).
    apply in_exec_seq in H6 as (h7 & h8 & H7 & H8 & -> & _ & _).
    apply in_exec_rep in H3 as [H3 _]. apply rep_every in H3.
    apply in_exec_chr in H5 as (c & _ & Hc & -> & _).
    apply in_exec_rep in H7 as [H7 _]. apply rep_every in H7.
    apply exec_keyword_amount_text in H8.
    right. exists (Re.matched h1), (Re.matched h3), c, (Re.matched h7),
             (Re.matched h8).
    rewrite !all_space_every. cbn [append]. auto 10.
  - left. cbn [Re.matched]. rewrite app_empty_r. exact H1.
Qed.

Lemma exec_keyword_re_group s h :
  In h (Re.exec Salary.keyword_re s) ->
  exists g, Re.group1 h = Some g /\ keyword_range_text g.
Proof.
  unfold Salary.keyword_re. intros H.
  apply in_exec_seq in H as (h1 & h2 & _ & H2 & _ & Hg & _).
  apply in_exec_seq in H2 as (h3 & h4 & _ & H4 & _ & Hg2 & _).
  apply in_exec_group in H4 as (h5 & H5 & _ & Hg4 & _).
  exists (Re.matched h5). split.
  - rewrite Hg, Hg2, Hg4. reflexivity.
  - apply exec_keyword_range_text in H5. exact H5.
Qed.

Lemma digit_or_comma_not_space c :
  Salary.digit_or_comma c = true -> Char.isspace c = false.
Proof. each_char c. Qed.

Lemma magnitude_not_space c :
  Salary.magnitude c = true -> Char.isspace c = false.
Proof. each_char c. Qed.

Lemma every_weaken (p q : ascii -> bool) s :
  (forall c, p c = true -> q c = true) -> every p s = true -> every q s = true.
Proof.
  intros Hpq. induction s as [|c s IH]; cbn [every]; [reflexivity|].
  intros H. apply andb_true_iff in H as [Hc Hs]. rewrite (Hpq c Hc), (IH Hs).
  reflexivity.
Qed.

(** A number has no white space in it and is not empty. *)
Lemma keyword_amount_text_solid a :
  keyword_amount_text a ->
  every (fun c => negb (Char.isspace c)) a = true /\ a <> "".
Proof.
  intros (sign & d & body & suffix & -> & Hsign & Hd & Hbody & Hsuffix).
  split.
  - rewrite every_app. cbn [append every]. rewrite every_app.
    rewrite (digit_not_space d Hd). cbn [negb andb].
    rewrite (every_weaken _ (fun c => negb (Char.isspace c)) body
               (fun c Hc => f_equal negb (digit_or_comma_not_space c Hc)) Hbody).
    destruct Hsign as [-> | ->], Hsuffix as [-> | (c & -> & Hc)];
      cbn [every andb]; try rewrite (magnitude_not_space c Hc); reflexivity.
  - destruct Hsign as [-> | ->]; discriminate.
Qed.

Lemma lstrip_solid a x :
  every (fun c => negb (Char.isspace c)) a = true -> a <> "" ->
  Py.lstrip (a ++ x) = a ++ x.
Proof.
  destruct a as [|c a]; [congruence|]. cbn [every append Py.lstrip].
  intros H _. apply andb_true_iff in H as [Hc _].
  apply negb_true_iff in Hc. rewrite Hc. reflexivity.
Qed.

Lemma rstrip_solid b :
  every (fun c => negb (Char.isspace c)) b = true -> Py.rstrip b = b.
Proof.
  induction b as [|c b IH]; cbn [every Py.rstrip]; [reflexivity|].
  intros H. apply andb_true_iff in H as [Hc Hb]. rewrite (IH Hb).
  apply negb_true_iff in Hc. rewrite Hc. destruct b; reflexivity.
Qed.

Lemma rstrip_app_solid x b :
  every (fun c => negb (Char.isspace c)) b = true -> b <> "" ->
  Py.rstrip (x ++ b) = x ++ b.
Proof.
  intros Hb Hne. induction x as [|c x IH]; cbn [append Py.rstrip].
  - apply rstrip_solid, Hb.
  - rewrite IH. destruct (x ++ b) eqn:E; [|reflexivity].
    destruct x; cbn [append] in E; [congruence | discriminate].
Qed.

Lemma keyword_range_text_strip g : keyword_range_text g -> Py.strip g = g.
Proof.
  unfold Py.strip.
  intros [Ha|(a & w1 & c & w2 & b & -> & Ha & _ & _ & _ & Hb)].
  - destruct (keyword_amount_text_solid g Ha) as [Hs Hne].
    pose proof (lstrip_solid g "" Hs Hne) as Hl. rewrite app_empty_r in Hl.
    rewrite Hl. apply rstrip_solid, Hs.
  - destruct (keyword_amount_text_solid a Ha) as [Hs Hne].
    destruct (keyword_amount_text_solid b Hb) as [Hs' Hne'].
    rewrite (lstrip_solid a _ Hs Hne).
    replace (a ++ w1 ++ String c w2 ++ b)
      with ((a ++ w1 ++ String c w2) ++ b)
      by (rewrite !app_assoc_s; reflexivity).
    apply rstrip_app_solid; assumption.
Qed.

Lemma keyword_amount_text_starts a x :
  keyword_amount_text a ->
  exists d tl,
    Char.isdecimal d = true
    /\ (a ++ x = String d tl \/ a ++ x = String "$" (String d tl)).
Proof.
  intros (sign & d & body & suffix & -> & [-> | ->] & Hd & _).
  - exists d, ((body ++ suffix) ++ x). split; [exact Hd|]. left. reflexivity.
  - exists d, ((body ++ suffix) ++ x). split; [exact Hd|]. right. reflexivity.
Qed.

Lemma keyword_range_text_starts g :
  keyword_range_text g ->
  exists d tl,
    Char.isdecimal d = true
    /\ (g = String d tl \/ g = String "$" (String d tl)).
Proof.
  intros [Ha|(a & w1 & c & w2 & b & -> & Ha & _)].
  - rewrite <- (app_empty_r g). apply keyword_amount_text_starts, Ha.
  - apply keyword_amount_text_starts, Ha.
Qed.

(** C6, what the claim says fails here: the keyword pattern matches a
    number that has no "$", and returns it. *)
Lemma keyword_salary_without_dollar :
  (exists m, Re.search Salary.keyword_re "Salary: 120000" = Some m)
  /\ parse_salary "Salary: 120000" = Some "120000"
  /\ Str.startswith "$" "120000" = false.
Proof.
  split; [eexists; vm_compute; reflexivity|].
  split; vm_compute; reflexivity.
Qed.

(** C6, as the code has it.  When the keyword pattern matches,
    [parse_salary] returns a value, and the value is a number whose "$" is
    optional: "$" or nothing, a decimal digit, digits and commas, and a
    magnitude letter or nothing; or two such numbers with a dash between
    them, white space allowed around the dash.  So it begins with a
    decimal digit or with "$" and a decimal digit. *)
Theorem keyword_salary_is_amount_or_range :
  forall (text : string) (m : Re.hit),
    Re.search Salary.keyword_re text = Some m ->
    exists v,
      parse_salary text = Some v
      /\ keyword_range_text v
      /\ exists d tl,
           Char.isdecimal d = true
           /\ (v = String d tl \/ v = String "$" (String d tl)).
Proof.
  intros text m Hm. unfold parse_salary. rewrite Hm.
  apply search_Some in Hm as (pre & t & _ & Hin).
  destruct (exec_keyword_re_group _ _ Hin) as (g & Hg & Hshape).
  unfold Salary.group1_stripped. rewrite Hg. cbn [option_map].
  rewrite (keyword_range_text_strip g Hshape).
  exists g. split; [reflexivity|]. split; [exact Hshape|].
  apply keyword_range_text_starts, Hshape.
Qed.

Lemma keyword_salary_is_amount_or_range_witness :
  exists v,
    parse_salary "Compensation: up to 90k - $110,000 a year" = Some v
    /\ keyword_range_text v
    /\ exists d tl,
         Char.isdecimal d = true
         /\ (v = String d tl \/ v = String "$" (String d tl)).
Proof.
  eapply (keyword_salary_is_amount_or_range
            "Compensation: up to 90k - $110,000 a year").
  vm_compute. reflexivity.
Defined.

(** ** The record builders *)

Section Builders.
Context {L : Library}.

Lemma canonical_site_url_truthy url u :
  canonical_site_url url = Some u -> Py.truthy (Some u) = true.
Proof.
  unfold canonical_site_url.
  destruct (Val.truthy url); cbn [negb]; [|discriminate].
  destruct url as [| | |s| |]; try discriminate.
  destruct (urlparse s) as [parsed|]; [|discriminate].
  destruct (scheme parsed) as [|c sch]; [discriminate|].
  destruct (negb _ || negb _); [discriminate|].
  intros [= <-]. reflexivity.
Qed.

Lemma favicon_url_of_site url :
  (canonical_site_url url = None -> favicon_url (canonical_site_url url) = None)
  /\ (forall u, canonical_site_url url = Some u ->
         favicon_url (canonical_site_url url)
         = Some (FAVICON_TMPL (Quote.quote ":/" u))).
Proof.
  split.
  - intros ->. reflexivity.
  - intros u Hu. pose proof (canonical_site_url_truthy _ _ Hu) as Ht.
    rewrite Hu. unfold favicon_url. rewrite Ht. reflexivity.
Qed.

(** Both builders fill [company_url] with a result of
    [canonical_site_url] and [image_url] with [favicon_url] of it. *)
Lemma python_job_urls p job :
  python_job p = Returns job ->
  exists url,
    company_url job = canonical_site_url url
    /\ image_url job = favicon_url (canonical_site_url url).
Proof.
  unfold python_job. destruct (job_id _); [|discriminate].
  intros [= <-]. eexists. split; reflexivity.
Qed.

Lemma bwd_job_urls p job :
  bwd_job p = Returns job ->
  exists url,
    company_url job = canonical_site_url url
    /\ image_url job = favicon_url (canonical_site_url url).
Proof.
  unfold bwd_job. destruct (job_id _); [|discriminate].
  destruct (Val.or _ (Val.of_opt _)); try discriminate;
    intros [= <-]; eexists; split; reflexivity.
Qed.

Lemma urls_paired job url :
  company_url job = canonical_site_url url ->
  image_url job = favicon_url (canonical_site_url url) ->
  (company_url job = None <-> image_url job = None)
  /\ (forall u, company_url job = Some u ->
         image_url job = Some (FAVICON_TMPL (Quote.quote ":/" u)))
  /\ image_url job = favicon_url (company_url job).
Proof.
  intros Hc Hi. destruct (favicon_url_of_site url) as [Hn Hs].
  rewrite Hc, Hi. repeat split.
  - exact Hn.
  - destruct (canonical_site_url url) as [u|] eqn:E; [|reflexivity].
    rewrite (Hs u eq_refl). discriminate.
  - exact Hs.
Qed.

Lemma parse_python_jobs_each entries : forall jobs,
  parse_python_jobs entries = Returns jobs ->
  Forall2 (fun p job => python_job p = Returns job)
          (filter mentions_django entries) jobs.
Proof.
  induction entries as [|p entries IH]; simpl; intros jobs H.
  - injection H as <-. constructor.
  - destruct (mentions_django p); cbn [negb] in H; [|auto].
    destruct (python_job p) as [job|] eqn:Ej; [|discriminate].
    destruct (parse_python_jobs entries) as [jobs'|]; [|discriminate].
    injection H as <-. constructor; auto.
Qed.

Lemma parse_bwd_jobs_each pages : forall jobs,
  parse_bwd_jobs pages = Returns jobs ->
  Forall2 (fun p job => bwd_job p = Returns job) pages jobs.
Proof.
  induction pages as [|p pages IH]; simpl; intros jobs H.
  - injection H as <-. constructor.
  - destruct (bwd_job p) as [job|] eqn:Ej; [|discriminate].
    destruct (parse_bwd_jobs pages) as [jobs'|]; [|discriminate].
    injection H as <-. constructor; auto.
Qed.

Lemma Forall2_in_r {A B} (R : A -> B -> Prop) l1 l2 b :
  Forall2 R l1 l2 -> In b l2 -> exists a, In a l1 /\ R a b.
Proof.
  induction 1 as [|a0 b0 l1 l2 H0 _ IH]; simpl; [tauto|].
  intros [<-|Hb]; [eauto|]. destruct (IH Hb) as (a & Ha & HR). eauto.
Qed.

End Builders.

(** [test_favicon_url_pattern], and a URL with characters that are
    encoded. *)
Example favicon_url_tests :
  favicon_url (Some "https://example.com")
  = Some ("https://t0.gstatic.com/faviconV2?client=SOCIAL&type=FAVICON"
          ++ "&fallback_opts=TYPE,SIZE,URL&url=https://example.com&size=128")
  /\ Quote.quote ":/" "https://example.com/a b?c~d" = "https://example.com/a%20b%3Fc~d"
  /\ favicon_url (Some "") = None
  /\ favicon_url None = None.
Proof. repeat split; vm_compute; reflexivity. Qed.

(** C8.  In a record built by either parser, [image_url] is present exactly
    when [company_url] is, and is then the favicon template filled with
    the percent-encoded [company_url]: it is [favicon_url] of that field
    and of nothing else. *)
Theorem image_url_iff_company_url :
  forall (L : Library),
    (forall entries jobs job,
       parse_python_jobs entries = Returns jobs -> In job jobs ->
       (company_url job <> None <-> image_url job <> None)
       /\ (forall u, company_url job = Some u ->
             image_url job = Some (FAVICON_TMPL (Quote.quote ":/" u)))
       /\ image_url job = favicon_url (company_url job))
    /\ (forall pages jobs job,
          parse_bwd_jobs pages = Returns jobs -> In job jobs ->
          (company_url job <> None <-> image_url job <> None)
          /\ (forall u, company_url job = Some u ->
                image_url job = Some (FAVICON_TMPL (Quote.quote ":/" u)))
          /\ image_url job = favicon_url (company_url job)).
Proof.
  intros L.
  assert (H : forall job url,
             company_url job = canonical_site_url url ->
             image_url job = favicon_url (canonical_site_url url) ->
             (company_url job <> None <-> image_url job <> None)
             /\ (forall u, company_url job = Some u ->
                   image_url job = Some (FAVICON_TMPL (Quote.quote ":/" u)))
             /\ image_url job = favicon_url (company_url job)).
  { intros job url Hc Hi.
    destruct (urls_paired job url Hc Hi) as [Hn [Hs He]].
    repeat split; auto; intros H1 H2; apply H1, Hn, H2. }
  split.
  - intros entries jobs job Hj Hin. apply parse_python_jobs_each in Hj.
    destruct (Forall2_in_r _ _ _ _ Hj Hin) as (p & _ & Hp).
    apply python_job_urls in Hp as (url & Hc & Hi). exact (H job url Hc Hi).
  - intros pages jobs job Hj Hin. apply parse_bwd_jobs_each in Hj.
    destruct (Forall2_in_r _ _ _ _ Hj Hin) as (p & _ & Hp).
    apply bwd_job_urls in Hp as (url & Hc & Hi). exact (H job url Hc Hi).
Qed.

Lemma image_url_iff_company_url_witness :
  exists job,
    @parse_python_jobs Example.library [Example.entry] = Returns [job]
    /\ image_url job = favicon_url (company_url job).
Proof.
  eexists. split; [vm_compute; reflexivity|].
  eapply (proj1 (image_url_iff_company_url Example.library) [Example.entry]).
  - vm_compute. reflexivity.
  - left. reflexivity.
Defined.

(** C7, what the claim says fails here: the page gives a location in its
    markup and another in its structured data, and the record takes the
    one of the markup. *)
Lemma bwd_job_location_from_markup :
  exists job,
    @parse_bwd_jobs Example.library [Example.page] = Returns [job]
    /\ location_anchor Example.page = Some "Remote"
    /\ ld_nested (ld Example.page) "jobLocation" "address" = PStr "Berlin"
    /\ location job = PStr "Remote".
Proof.
  eexists. split; [vm_compute; reflexivity|].
  repeat split; vm_compute; reflexivity.
Qed.

Lemma bwd_job_fields (L : Library) (p : BwdPage) (job : Job) :
  bwd_job p = Returns job ->
  apply_url job
  = Val.or (Val.get (ld p) "url")
           (Val.of_opt (option_map html_unescape (apply_anchor p)))
  /\ Val.of_opt (company job)
     = Val.or (ld_nested (ld p) "hiringOrganization" "name")
              (Val.of_opt (if Py.contains "@" (title job)
                           then Some (Py.strip (Py.split_tail "@" (title job)))
                           else None))
  /\ date_posted job
     = Val.or (Val.get (ld p) "datePosted")
              (Val.of_opt (option_map strip_tags (posted_anchor p)))
  /\ employment_type job
     = Val.or (Val.get (ld p) "employmentType")
              (Val.of_opt (parse_employment (Py.or_empty (full_offer_text job))))
  /\ location job
     = match location_anchor p with
       | Some l => PStr (strip_tags l)
       | None => ld_nested (ld p) "jobLocation" "address"
       end.
Proof.
  unfold bwd_job. destruct (job_id _); [|discriminate].
  destruct (Val.or (ld_nested (ld p) "hiringOrganization" "name") _) eqn:Ec;
    try discriminate; intros [= <-];
    cbn [apply_url company date_posted employment_type location title
         full_offer_text set_dedupe_key Py.or_empty];
    rewrite Ec; repeat split; reflexivity.
Qed.

(** C7, as the code has it.  In every record of the listing-site parser, a
    true value of the structured data for [url], [hiringOrganization.name],
    [datePosted] or [employmentType] is the one the record gets.  The
    location is read the other way round: a match of the markup anchor
    decides it, and [jobLocation.address] is used only when the anchor did
    not match. *)
Theorem bwd_job_precedence :
  forall (L : Library) (pages : list BwdPage) (jobs : list Job),
    parse_bwd_jobs pages = Returns jobs ->
    Forall2
      (fun p job =>
         (Val.truthy (Val.get (ld p) "url") = true ->
          apply_url job = Val.get (ld p) "url")
         /\ (Val.truthy (ld_nested (ld p) "hiringOrganization" "name") = true ->
             Val.of_opt (company job)
             = ld_nested (ld p) "hiringOrganization" "name")
         /\ (Val.truthy (Val.get (ld p) "datePosted") = true ->
             date_posted job = Val.get (ld p) "datePosted")
         /\ (Val.truthy (Val.get (ld p) "employmentType") = true ->
             employment_type job = Val.get (ld p) "employmentType")
         /\ (forall l, location_anchor p = Some l ->
               location job = PStr (strip_tags l))
         /\ (location_anchor p = None ->
             location job = ld_nested (ld p) "jobLocation" "address"))
      pages jobs.
Proof.
  intros L pages jobs H. apply parse_bwd_jobs_each in H.
  induction H as [|p job pages jobs Hj _ IH]; constructor; [|exact IH].
  destruct (bwd_job_fields L p job Hj) as (Hu & Hc & Hd & He & Hl).
  rewrite Hu, Hc, Hd, He, Hl. unfold Val.or.
  repeat split; try (intros ->; reflexivity).
  intros l ->. reflexivity.
Qed.

Lemma bwd_job_precedence_witness :
  exists job,
    @parse_bwd_jobs Example.library [Example.page] = Returns [job]
    /\ apply_url job = PStr "https://jobs.acme.example/42".
Proof.
  eexists. split; [vm_compute; reflexivity|].
  match goal with
  | |- apply_url ?j = _ =>
      assert (H : @parse_bwd_jobs Example.library [Example.page] = Returns [j])
        by (vm_compute; reflexivity);
      apply (bwd_job_precedence Example.library) in H
  end.
  inversion H as [|p job ps js Hh Ht]; subst.
  apply (proj1 Hh). vm_compute. reflexivity.
Defined.

(** ** The publication date *)

(** C9.  [as_rfc2822] never raises.  It renders the current time for an
    absent (false) value; otherwise the date read in the feed's own
    grammar, or else the date read as an ISO date, or else the current
    time; and the date it renders always has a time zone, UTC being given
    to a date read without one. *)
Theorem as_rfc2822_fallbacks :
  forall (L : Library) (now : Z) (value : pyval),
    exists d : datetime,
      as_rfc2822 now value = Returns (format_datetime d)
      /\ tzinfo d <> None
      /\ (Val.truthy value = false -> d = utc_now now)
      /\ (Val.truthy value = true ->
          forall p,
            (parsedate_value value = Returns p
             \/ ((exists e, parsedate_value value = Raises e)
                 /\ fromisoformat_value value = Returns p)) ->
            d = match tzinfo p with
                | None => replace_tzinfo_utc p
                | Some _ => p
                end)
      /\ (Val.truthy value = true ->
          (exists e, parsedate_value value = Raises e) ->
          (exists e, fromisoformat_value value = Raises e) ->
          d = utc_now now).
Proof.
  intros L now value. unfold as_rfc2822.
  destruct (Val.truthy value) eqn:Ht; cbn [negb].
  - set (chosen := match parsedate_value value with
                   | Returns d => d
                   | Raises _ =>
                       match fromisoformat_value value with
                       | Returns d => d
                       | Raises _ => utc_now now
                       end
                   end).
    exists (match tzinfo chosen with
            | None => replace_tzinfo_utc chosen
            | Some _ => chosen
            end).
    split; [reflexivity|]. split.
    { destruct (tzinfo chosen) eqn:E; [rewrite E|]; discriminate. }
    split; [discriminate|]. unfold chosen. split.
    + intros _ p [Hp|[[e He] Hp]].
      * rewrite Hp. reflexivity.
      * rewrite He, Hp. reflexivity.
    + intros _ [e He] [e' He']. rewrite He, He'. reflexivity.
  - exists (utc_now now). split; [reflexivity|].
    split; [discriminate|]. split; [reflexivity|]. split; discriminate.
Qed.

Lemma as_rfc2822_fallbacks_witness :
  exists d : datetime,
    @as_rfc2822 Example.library 1704189600 (PStr "2024-01-02")
    = Returns (@format_datetime Example.library d)
    /\ d = mkDatetime 10 (Some 0%Z).
Proof.
  destruct (as_rfc2822_fallbacks Example.library 1704189600 (PStr "2024-01-02"))
    as (d & Hr & _ & _ & Hp & _).
  exists d. split; [exact Hr|].
  apply (Hp eq_refl (mkDatetime 10 None)).
  right. split; [exists "ValueError"|]; reflexivity.
Defined.

(** ** The salary heuristic, the other way round *)

Lemma reaches_chr (cls : ascii -> bool) c s :
  cls c = true -> reaches (Re.Chr cls) (String c s) s.
Proof. intros H. eexists. simpl. rewrite H. split; [left; reflexivity | reflexivity]. Qed.

Lemma reaches_seq r1 r2 s t u :
  reaches r1 s t -> reaches r2 t u -> reaches (Re.Seq r1 r2) s u.
Proof.
  intros (h1 & H1 & <-) (h2 & H2 & <-). eexists. split.
  - simpl. apply in_flat_map. exists h1. split; [exact H1|].
    apply in_map. exact H2.
  - reflexivity.
Qed.

Lemma reaches_alt_l r1 r2 s t : reaches r1 s t -> reaches (Re.Alt r1 r2) s t.
Proof. intros (h & H & <-). exists h. simpl. split; [apply in_or_app; auto | reflexivity]. Qed.

Lemma reaches_alt_r r1 r2 s t : reaches r2 s t -> reaches (Re.Alt r1 r2) s t.
Proof. intros (h & H & <-). exists h. simpl. split; [apply in_or_app; auto | reflexivity]. Qed.

Lemma reaches_opt_take r s t : reaches r s t -> reaches (Re.Opt r) s t.
Proof. intros (h & H & <-). exists h. simpl. split; [apply in_or_app; auto | reflexivity]. Qed.

Lemma reaches_opt_skip r s : reaches (Re.Opt r) s s.
Proof. eexists. simpl. split; [apply in_or_app; right; left; reflexivity | reflexivity]. Qed.

Lemma reaches_group r s t : reaches r s t -> reaches (Re.Group r) s t.
Proof.
  intros (h & H & <-). eexists. simpl. split; [apply in_map, H | reflexivity].
Qed.

Lemma rep_stop cls hi s : In ("", s) (Re.rep cls 0 hi s).
Proof.
  destruct s as [|c s]; simpl; [auto|].
  destruct (cls c && _); [apply in_or_app; right|]; simpl; auto.
Qed.

Lemma reaches_rep_stop cls hi s : reaches (Re.Rep cls 0 hi) s s.
Proof.
  exists (Re.mkHit "" None s). split; [|reflexivity].
  simpl. apply (in_map (fun mr => Re.mkHit (fst mr) None (snd mr)) _ ("", s)).
  apply rep_stop.
Qed.

Lemma reaches_rep_more cls n c s t :
  cls c = true -> reaches (Re.Rep cls 0 (Some n)) s t ->
  reaches (Re.Rep cls 0 (Some (S n))) (String c s) t.
Proof.
  intros Hc (h & H & <-). apply in_exec_rep in H as [H _].
  exists (Re.mkHit (String c (Re.matched h)) None (Re.rest h)). split; [|reflexivity].
  cbn [Re.exec Re.rep]. rewrite Hc. cbn [andb option_map Nat.pred].
  apply (in_map (fun mr => Re.mkHit (fst mr) None (snd mr)) _
           (String c (Re.matched h), Re.rest h)).
  apply in_or_app. left.
  apply (in_map (fun mr => (String c (fst mr), snd mr)) _ (Re.matched h, Re.rest h)).
  exact H.
Qed.

Lemma reaches_word_i w : forall s r,
  skip_word_i w s = Some r -> reaches (Re.word_i w) s r.
Proof.
  induction w as [|p w IH]; intros s r H.
  - destruct s; injection H as <-; eexists; simpl; auto.
  - destruct s as [|c s]; [discriminate|]. cbn [skip_word_i] in H.
    destruct (Re.is_char_i p c) eqn:Hc; [|discriminate].
    cbn [Re.word_i]. apply (reaches_seq _ _ _ s); [apply reaches_chr, Hc | auto].
Qed.

Lemma reaches_gap n : forall s,
  within_gap n s = true ->
  exists t, reaches (Re.Rep Salary.not_digit_or_dollar 0 (Some n)) s t
            /\ starts_number t = true.
Proof.
  induction n as [|n IH]; intros s H.
  - exists s. split; [apply reaches_rep_stop|].
    cbn [within_gap] in H. rewrite orb_false_r in H. exact H.
  - destruct (starts_number s) eqn:Hn.
    + exists s. split; [apply reaches_rep_stop | exact Hn].
    + destruct s as [|c s]; [simpl in H; discriminate|].
      cbn [within_gap] in H. rewrite Hn in H. cbn [orb] in H.
      apply andb_true_iff in H as [Hc Hg].
      destruct (IH s Hg) as (t & Hr & Ht).
      exists t. split; [apply reaches_rep_more; assumption | exact Ht].
Qed.

Lemma reaches_keyword_amount s :
  starts_number s = true -> exists t, reaches Salary.keyword_amount s t.
Proof.
  intros H. unfold Salary.keyword_amount.
  assert (Htail : forall u, reaches (Re.Seq (Re.star Salary.digit_or_comma)
                                            (Re.Opt (Re.Chr Salary.magnitude))) u u).
  { intros u. apply (reaches_seq _ _ _ u); [apply reaches_rep_stop | apply reaches_opt_skip]. }
  destruct s as [|a s]; [discriminate|]. cbn [starts_number] in H.
  destruct (Salary.digit a) eqn:Ha.
  - exists s. apply (reaches_seq _ _ _ (String a s)); [apply reaches_opt_skip|].
    apply (reaches_seq _ _ _ s); [apply reaches_chr, Ha | apply Htail].
  - cbn [orb] in H. destruct s as [|b s]; [discriminate|]. cbn in H.
    apply andb_true_iff in H as [Hd Hb].
    exists s. apply (reaches_seq _ _ _ (String b s)).
    + apply reaches_opt_take, reaches_chr, Hd.
    + apply (reaches_seq _ _ _ s); [apply reaches_chr, Hb | apply Htail].
Qed.

Lemma reaches_dollar_amount s :
  starts_dollar_amount s = true -> exists t, reaches Salary.dollar_amount s t.
Proof.
  intros H. destruct s as [|a [|b s]]; try discriminate. cbn in H.
  apply andb_true_iff in H as [Ha Hb]. exists s. unfold Salary.dollar_amount.
  apply (reaches_seq _ _ _ (String b s)); [apply reaches_chr, Ha|].
  apply (reaches_seq _ _ _ s); [apply reaches_chr, Hb|].
  apply (reaches_seq _ _ _ s); [apply reaches_rep_stop|].
  apply (reaches_seq _ _ _ s); apply reaches_opt_skip.
Qed.

Lemma reaches_range_of amount s t :
  reaches amount s t -> reaches (Salary.range_of amount) s t.
Proof.
  intros H. unfold Salary.range_of.
  apply (reaches_seq _ _ _ t); [exact H | apply reaches_opt_skip].
Qed.

Lemma reaches_keyword_re s :
  keyword_number_at s = true -> exists t, reaches Salary.keyword_re s t.
Proof.
  unfold keyword_number_at, anchored_by. intros H.
  assert (Hrest : forall after, within_gap 20 after = true ->
                    exists t, reaches
                      (Re.Seq (Re.Rep Salary.not_digit_or_dollar 0 (Some 20))
                              (Re.Group (Salary.range_of Salary.keyword_amount)))
                      after t).
  { intros after Hg. destruct (reaches_gap _ _ Hg) as (u & Hu & Hn).
    destruct (reaches_keyword_amount _ Hn) as (t & Ht).
    exists t. apply (reaches_seq _ _ _ u); [exact Hu|].
    apply reaches_group, reaches_range_of, Ht. }
  unfold Salary.keyword_re.
  apply orb_true_iff in H as [H|H].
  - destruct (skip_word_i "salary" s) as [after|] eqn:E; [|discriminate].
    destruct (Hrest after H) as (t & Ht). exists t.
    apply (reaches_seq _ _ _ after); [|exact Ht].
    apply reaches_alt_l, reaches_word_i, E.
  - destruct (skip_word_i "compensation" s) as [after|] eqn:E; [|discriminate].
    destruct (Hrest after H) as (t & Ht). exists t.
    apply (reaches_seq _ _ _ after); [|exact Ht].
    apply reaches_alt_r, reaches_word_i, E.
Qed.

Lemma reaches_dollar_re s :
  starts_dollar_amount s = true -> exists t, reaches Salary.dollar_re s t.
Proof.
  intros H. destruct (reaches_dollar_amount s H) as (t & Ht).
  exists t. apply reaches_group, reaches_range_of, Ht.
Qed.

Lemma search_finds r (p : string -> bool) s :
  (forall t, p t = true -> exists u, reaches r t u) ->
  any_suffix p s = true -> exists h, Re.search r s = Some h.
Proof.
  intros Hp. induction s as [|c s IH]; intros H; simpl in *.
  - rewrite orb_false_r in H. destruct (Hp _ H) as (u & h & Hin & _).
    destruct (Re.exec r "") as [|h0 l]; [destruct Hin | eauto].
  - destruct (Re.exec r (String c s)) as [|h0 l] eqn:E; [|eauto].
    apply orb_true_iff in H as [H|H]; [|auto].
    destruct (Hp _ H) as (u & h & Hin & _). rewrite E in Hin. destruct Hin.
Qed.

Lemma search_dollar_re_group text h :
  Re.search Salary.dollar_re text = Some h -> exists g, Re.group1 h = Some g.
Proof.
  intros H. apply search_Some in H as (pre & t & _ & Hin).
  apply in_exec_group in Hin as (h' & _ & _ & Hg & _). eauto.
Qed.

Lemma search_keyword_re_group text h :
  Re.search Salary.keyword_re text = Some h -> exists g, Re.group1 h = Some g.
Proof.
  intros H. apply search_Some in H as (pre & t & _ & Hin).
  apply exec_keyword_re in Hin as [_ (d & tl & _ & [Hg|Hg])]; eauto.
Qed.

(** The two tests of C5 are exact: [parse_salary] finds nothing only when
    both fail. *)
Lemma parse_salary_None_iff text :
  parse_salary text = None
  <-> has_dollar_amount text = false /\ has_keyword_number text = false.
Proof.
  split.
  - unfold parse_salary, Salary.group1_stripped. intros H.
    destruct (Re.search Salary.keyword_re text) as [m|] eqn:Ek.
    { destruct (search_keyword_re_group _ _ Ek) as [g Hg].
      rewrite Hg in H. discriminate. }
    destruct (Re.search Salary.dollar_re text) as [m|] eqn:Ed.
    { destruct (search_dollar_re_group _ _ Ed) as [g Hg].
      rewrite Hg in H. discriminate. }
    split.
    + destruct (has_dollar_amount text) eqn:E; [|reflexivity].
      destruct (search_finds _ _ _ reaches_dollar_re E) as [h Hh]. congruence.
    + destruct (has_keyword_number text) eqn:E; [|reflexivity].
      destruct (search_finds _ _ _ reaches_keyword_re E) as [h Hh]. congruence.
  - intros [Hd Hk]. unfold parse_salary.
    rewrite (search_None Salary.keyword_re keyword_number_at text).
    + rewrite (search_None Salary.dollar_re starts_dollar_amount text);
        [reflexivity | apply exec_dollar_re | exact Hd].
    + intros t h H. apply (exec_keyword_re t h H).
    + exact Hk.
Qed.

Lemma skip_word_i_spec w : forall s r,
  skip_word_i w s = Some r <-> exists kw, s = kw ++ r /\ Py.lower kw = Py.lower w.
Proof.
  induction w as [|p w IH]; intros s r; split.
  - destruct s; intros [= <-]; exists ""; auto.
  - intros (kw & -> & Hk). destruct kw; [|discriminate]. destruct r; reflexivity.
  - destruct s as [|c s]; [discriminate|]. cbn [skip_word_i].
    destruct (Re.is_char_i p c) eqn:Hc; [|discriminate]. intros H.
    apply IH in H as (kw & -> & Hk). exists (String c kw). split; [reflexivity|].
    cbn [Py.lower]. apply Ascii.eqb_eq in Hc. congruence.
  - intros (kw & -> & Hk). destruct kw as [|c kw]; [discriminate|].
    cbn [Py.lower] in Hk. injection Hk as Hc Hk.
    cbn [append skip_word_i]. unfold Re.is_char_i. rewrite Hc, Ascii.eqb_refl.
    apply IH. eauto.
Qed.

Lemma within_gap_spec n : forall s,
  within_gap n s = true
  <-> exists gap r,
        s = gap ++ r /\ String.length gap <= n
        /\ every Salary.not_digit_or_dollar gap = true
        /\ starts_number r = true.
Proof.
  induction n as [|n IH]; intros s; split.
  - cbn [within_gap]. rewrite orb_false_r. intros H. exists "", s. simpl. auto.
  - intros (gap & r & -> & Hl & _ & Hr). destruct gap; [|simpl in Hl; lia].
    cbn [within_gap append]. rewrite Hr. reflexivity.
  - cbn [within_gap]. intros H. apply orb_true_iff in H as [H|H].
    + exists "", s. simpl. repeat split; auto. lia.
    + destruct s as [|c s]; [discriminate|].
      apply andb_true_iff in H as [Hc Hg].
      apply IH in Hg as (gap & r & -> & Hl & He & Hr).
      exists (String c gap), r. simpl. rewrite Hc, He. repeat split; auto. lia.
  - intros (gap & r & -> & Hl & He & Hr). cbn [within_gap].
    destruct gap as [|c gap]; [simpl; rewrite Hr; reflexivity|].
    simpl in He, Hl. apply andb_true_iff in He as [Hc He].
    cbn [append]. rewrite Hc. cbn [andb].
    replace (within_gap n (gap ++ r)) with true; [apply orb_true_r|].
    symmetry. apply IH. exists gap, r. repeat split; auto. lia.
Qed.

Lemma has_keyword_number_spec text :
  has_keyword_number text = true <-> keyword_number_in text.
Proof.
  unfold has_keyword_number, keyword_number_in, keyword_number_at, anchored_by.
  rewrite any_suffix_spec. split.
  - intros (pre & t & -> & H). apply orb_true_iff in H.
    assert (Hw : exists w after,
               (w = "salary" \/ w = "compensation")
               /\ skip_word_i w t = Some after /\ within_gap 20 after = true).
    { destruct H as [H|H].
      - destruct (skip_word_i "salary" t) as [after|] eqn:E; [|discriminate].
        exists "salary", after. auto.
      - destruct (skip_word_i "compensation" t) as [after|] eqn:E; [|discriminate].
        exists "compensation", after. auto. }
    destruct Hw as (w & after & Hw & Hs & Hg).
    apply skip_word_i_spec in Hs as (kw & -> & Hk).
    apply within_gap_spec in Hg as (gap & r & -> & Hl & He & Hr).
    exists pre, kw, gap, r. repeat split; auto.
    destruct Hw as [-> | ->]; [left | right]; exact Hk.
  - intros (pre & kw & gap & r & -> & Hk & Hl & He & Hr).
    exists pre, (kw ++ gap ++ r). split; [reflexivity|].
    assert (Hg : within_gap 20 (gap ++ r) = true).
    { apply within_gap_spec. exists gap, r. auto. }
    destruct Hk as [Hk|Hk].
    + assert (skip_word_i "salary" (kw ++ gap ++ r) = Some (gap ++ r)) as ->.
      { apply skip_word_i_spec. exists kw. auto. }
      rewrite Hg. reflexivity.
    + assert (skip_word_i "compensation" (kw ++ gap ++ r) = Some (gap ++ r)) as ->.
      { apply skip_word_i_spec. exists kw. auto. }
      rewrite Hg. apply orb_true_r.
Qed.

(** * Further properties *)

(** ** Keys *)

Lemma lower_char_fixes_key_chars c :
  Char.is_az09 c = true \/ c = " "%char -> Char.lower_char c = c.
Proof. intros [H| ->]; [revert H; each_char c | reflexivity]. Qed.

Lemma lower_tidy s : tidy s = true -> Py.lower s = s.
Proof.
  induction s as [|c s IH]; intros H; [reflexivity|].
  cbn [Py.lower]. rewrite (IH (tidy_tail _ _ H)). f_equal.
  apply lower_char_fixes_key_chars. apply (tidy_chars _ c H).
  cbn [Py.contains]. rewrite Ascii.eqb_refl. reflexivity.
Qed.

Lemma sub_nonalnum_tidy s b :
  tidy s = true -> (b = true -> starts_space s = false) ->
  Py.sub_runs_from b (fun c => negb (Char.is_az09 c)) " " s = s.
Proof.
  revert b. induction s as [|c s IH]; intros b Ht Hb; [reflexivity|].
  cbn [Py.sub_runs_from]. cbn [tidy] in Ht. apply andb_true_iff in Ht as [Hc Ht].
  destruct (Char.is_az09 c) eqn:Ha; cbn [negb].
  - f_equal. apply IH; [exact Ht | discriminate].
  - cbn [orb] in Hc. apply andb_true_iff in Hc as [Hc Hn].
    apply Ascii.eqb_eq in Hc. subst c.
    destruct b; [specialize (Hb eq_refl); discriminate|].
    cbn [append]. f_equal. apply IH; [exact Ht|].
    intros _. destruct (starts_space s); [discriminate | reflexivity].
Qed.

Lemma strip_norm v : Py.strip (norm v) = norm v.
Proof.
  destruct v as [x|]; [|reflexivity]. rewrite norm_Some. apply strip_idem.
Qed.

Lemma norm_fixed s : tidy s = true -> Py.strip s = s -> norm (Some s) = s.
Proof.
  intros Ht Hs. rewrite norm_Some. unfold norm_body, Py.sub_runs.
  rewrite (lower_tidy s Ht), Hs.
  rewrite (sub_nonalnum_tidy s false Ht) by discriminate.
  rewrite (sub_space_tidy s false Ht) by discriminate. exact Hs.
Qed.

(** X1.  [norm] is idempotent: a normalised text is its own normal
    form. *)
Theorem norm_idempotent :
  forall value : option string, norm (Some (norm value)) = norm value.
Proof.
  intros value. apply norm_fixed; [apply tidy_norm | apply strip_norm].
Qed.

Lemma lower_lower s : Py.lower (Py.lower s) = Py.lower s.
Proof.
  induction s as [|c s IH]; [reflexivity|]. cbn [Py.lower]. rewrite IH. f_equal.
  each_char c.
Qed.

Lemma norm_by_lower x y : Py.lower x = Py.lower y -> norm (Some x) = norm (Some y).
Proof. intros H. rewrite !norm_Some. unfold norm_body. rewrite H. reflexivity. Qed.

(** X2.  The key does not see the case of letters: titles that agree once
    lowered, with companies that agree once lowered, get the same key. *)
Theorem key_for_ignores_case :
  forall title title' company company' : string,
    Py.lower title = Py.lower title' ->
    Py.lower company = Py.lower company' ->
    key_for (Some title) (Some company) = key_for (Some title') (Some company').
Proof.
  intros t t' c c' Ht Hc. unfold key_for. cbn [Py.or_empty].
  rewrite Ht, (norm_by_lower c c' Hc). reflexivity.
Qed.

Lemma key_for_ignores_case_witness :
  key_for (Some "SENIOR Django Developer") (Some "ACME")
  = key_for (Some "senior django developer") (Some "Acme").
Proof. apply key_for_ignores_case; vm_compute; reflexivity. Defined.

Lemma tidy_no_bar_char s : tidy s = true -> Py.contains "|" s = false.
Proof.
  intros Ht. destruct (Py.contains "|" s) eqn:E; [|reflexivity].
  destruct (tidy_chars s "|" Ht E) as [H|H]; discriminate.
Qed.

Lemma app_bar_inj a a' b b' :
  Py.contains "|" a = false -> Py.contains "|" a' = false ->
  a ++ "|" ++ b = a' ++ "|" ++ b' -> a = a' /\ b = b'.
Proof.
  revert a'. induction a as [|c a IH]; intros [|c' a'] Ha Ha' H.
  - injection H as H. auto.
  - injection H as Hc _. subst c'. cbn [Py.contains] in Ha'.
    rewrite Ascii.eqb_refl in Ha'. discriminate.
  - injection H as Hc _. subst c. cbn [Py.contains] in Ha.
    rewrite Ascii.eqb_refl in Ha. discriminate.
  - injection H as Hc H. subst c'.
    cbn [Py.contains] in Ha, Ha'.
    apply orb_false_iff in Ha as [_ Ha]. apply orb_false_iff in Ha' as [_ Ha'].
    destruct (IH a' Ha Ha' H) as [-> ->]. auto.
Qed.

(** X3.  Two keys are equal exactly when the two normalised roles are
    equal and the two normalised companies are equal: joining the two
    fragments with "|" never makes two different pairs collide. *)
Theorem key_for_equal_iff :
  forall title company title' company' : option string,
    key_for title company = key_for title' company'
    <-> norm (Some (role_of title)) = norm (Some (role_of title'))
        /\ norm company = norm company'.
Proof.
  intros t c t' c'. rewrite !key_for_role. split.
  - apply app_bar_inj; apply tidy_no_bar_char, tidy_norm.
  - intros [-> ->]. reflexivity.
Qed.

Lemma contains_lower_at s : Py.contains "@" (Py.lower s) = Py.contains "@" s.
Proof.
  induction s as [|c s IH]; [reflexivity|]. cbn [Py.lower Py.contains].
  rewrite IH. f_equal. each_char c.
Qed.

Lemma contains_lower_comma s : Py.contains "," (Py.lower s) = Py.contains "," s.
Proof.
  induction s as [|c s IH]; [reflexivity|]. cbn [Py.lower Py.contains].
  rewrite IH. f_equal. each_char c.
Qed.

Lemma role_ignores_suffix r sep rest :
  sep = "@"%char \/ sep = ","%char ->
  Py.contains "@" r = false -> Py.contains "," r = false ->
  Py.split_head "," (Py.split_head "@" (r ++ String sep rest))
  = Py.split_head "," (Py.split_head "@" r).
Proof.
  intros Hsep Ha Hc.
  rewrite (split_head_absent "@" r Ha), (split_head_absent "," r Hc).
  rewrite split_head_app, Ha. destruct Hsep as [-> | ->].
  - change (Py.split_head "@" (String "@" rest)) with "".
    rewrite app_empty_r. apply split_head_absent, Hc.
  - change (Py.split_head "@" (String "," rest))
      with (String "," (Py.split_head "@" rest)).
    rewrite split_head_app, Hc.
    change (Py.split_head "," (String "," (Py.split_head "@" rest))) with "".
    apply app_empty_r.
Qed.

(** X4.  A title that is only a role gets the key of the same role followed
    by "@" or "," and anything else: the key reads the title up to its
    first "@" or comma. *)
Theorem key_for_ignores_suffix :
  forall (role : string) (sep : ascii) (rest : string) (company : option string),
    sep = "@"%char \/ sep = ","%char ->
    Py.contains "@" role = false ->
    Py.contains "," role = false ->
    key_for (Some (role ++ String sep rest)) company = key_for (Some role) company.
Proof.
  intros r sep rest co Hsep Ha Hc. rewrite !key_for_role. f_equal.
  rewrite !norm_role_of. cbn [Py.or_empty]. rewrite lower_app.
  assert (Hl : Py.lower (String sep rest) = String sep (Py.lower rest))
    by (destruct Hsep as [-> | ->]; reflexivity).
  rewrite Hl. rewrite role_ignores_suffix; auto.
  - rewrite contains_lower_at. exact Ha.
  - rewrite contains_lower_comma. exact Hc.
Qed.

Lemma key_for_ignores_suffix_witness :
  key_for (Some ("Senior Django Developer" ++ String "@" " Acme (remote, EU)"))
          (Some "Acme")
  = key_for (Some "Senior Django Developer") (Some "Acme").
Proof.
  apply key_for_ignores_suffix; [left; reflexivity | reflexivity | reflexivity].
Defined.

(** ** Text utilities *)

Lemma single_spaced_tail c s : single_spaced (String c s) = true -> single_spaced s = true.
Proof. cbn [single_spaced]. intros H. apply andb_true_iff in H. tauto. Qed.

Lemma blank_is_space c : Ascii.eqb c " " = true -> Char.isspace c = true.
Proof. intros H. apply Ascii.eqb_eq in H. subst c. reflexivity. Qed.

Lemma single_spaced_sub w b :
  let out := Py.sub_runs_from b Char.isspace " " w in
  single_spaced out = true /\ (b = true -> starts_space out = false).
Proof.
  revert b. induction w as [|c w IH]; intros b; cbn [Py.sub_runs_from].
  - cbn zeta. auto.
  - cbn zeta. destruct (Char.isspace c) eqn:Hc.
    + destruct (IH true) as [Ht Hs]. cbn zeta in Ht, Hs. specialize (Hs eq_refl).
      destruct b; cbn [append]; [auto|].
      cbn [single_spaced starts_space]. rewrite Hs, Ht.
      split; [reflexivity | discriminate].
    + destruct (IH false) as [Ht _]. cbn zeta in Ht.
      cbn [single_spaced starts_space]. rewrite Hc, Ht. split; [reflexivity|].
      intros _. destruct (Ascii.eqb c " ") eqn:E; [|reflexivity].
      apply blank_is_space in E. congruence.
Qed.

Lemma single_spaced_lstrip s : single_spaced s = true -> single_spaced (Py.lstrip s) = true.
Proof.
  induction s as [|c s IH]; intros H; [reflexivity|]. cbn [Py.lstrip].
  destruct (Char.isspace c); [apply IH, (single_spaced_tail c), H | exact H].
Qed.

Lemma single_spaced_rstrip s : single_spaced s = true -> single_spaced (Py.rstrip s) = true.
Proof.
  induction s as [|c s IH]; intros H; [reflexivity|].
  pose proof (IH (single_spaced_tail _ _ H)) as Hr.
  cbn [single_spaced] in H. apply andb_true_iff in H as [Hc Ht]. cbn [Py.rstrip].
  destruct (Py.rstrip s) as [|d r] eqn:E.
  - destruct (Char.isspace c) eqn:Hs; [reflexivity|].
    cbn [single_spaced]. rewrite Hs. reflexivity.
  - assert (Hss : starts_space (String d r) = starts_space s).
    { rewrite <- E. apply starts_space_rstrip. rewrite E. discriminate. }
    cbn [single_spaced]. rewrite Hss. cbn [single_spaced] in Hr. rewrite Hr, Hc.
    reflexivity.
Qed.

Lemma single_spaced_chars s c :
  single_spaced s = true -> Py.contains c s = true -> Char.isspace c = true ->
  c = " "%char.
Proof.
  induction s as [|d s IH]; cbn [single_spaced Py.contains]; intros Ht Hc Hs;
    [discriminate|].
  apply andb_true_iff in Ht as [Hd Ht].
  apply orb_true_iff in Hc as [Hc|Hc]; [|auto].
  apply Ascii.eqb_eq in Hc. subst d. rewrite Hs in Hd. cbn [negb orb] in Hd.
  apply andb_true_iff in Hd as [Hd _]. apply Ascii.eqb_eq in Hd. exact Hd.
Qed.

Lemma single_spaced_no_double s : single_spaced s = true -> Str.infix "  " s = false.
Proof.
  induction s as [|c s IH]; intros Ht; [reflexivity|].
  pose proof (IH (single_spaced_tail _ _ Ht)) as Hi.
  cbn [single_spaced] in Ht. apply andb_true_iff in Ht as [Hc _].
  cbn [Str.infix]. rewrite Hi, orb_false_r, startswith_two_blanks.
  destruct (Ascii.eqb c " ") eqn:E; [|reflexivity].
  rewrite (blank_is_space c E) in Hc. cbn [negb orb andb] in Hc.
  destruct (starts_space s); [discriminate | reflexivity].
Qed.

(** X5.  Whatever the markup and the entities in it, the text [strip_tags]
    returns has no white space other than single spaces between other
    characters: no tab or line break, no two spaces in a row, none at
    either end. *)
Theorem strip_tags_single_spaced :
  forall (L : Library) (value : string),
    (forall c, Py.contains c (strip_tags value) = true ->
               Char.isspace c = true -> c = " "%char)
    /\ Str.infix "  " (strip_tags value) = false
    /\ Py.strip (strip_tags value) = strip_tags value.
Proof.
  intros L value. unfold strip_tags.
  set (w := html_unescape (Str.sub_tags value)).
  assert (Hs : single_spaced (Py.strip (Py.sub_runs Char.isspace " " w)) = true).
  { apply single_spaced_rstrip, single_spaced_lstrip.
    apply (single_spaced_sub w false). }
  split; [|split].
  - intros c. apply single_spaced_chars, Hs.
  - apply single_spaced_no_double, Hs.
  - apply strip_idem.
Qed.

(** *** Tags *)

Lemma close_from_split seen s after :
  Str.close_from seen s = Some after ->
  exists inside, s = inside ++ String ">" after /\ Py.contains ">" inside = false.
Proof.
  revert seen. induction s as [|c s IH]; intros seen H; [discriminate|].
  cbn [Str.close_from] in H. destruct (Ascii.eqb c ">") eqn:E.
  - destruct seen; [|discriminate]. injection H as <-.
    apply Ascii.eqb_eq in E. subst c. exists "". auto.
  - destruct (IH _ H) as (inside & -> & Hi). exists (String c inside).
    cbn [append Py.contains]. rewrite E, Hi. auto.
Qed.

Lemma close_from_shorter seen s after :
  Str.close_from seen s = Some after -> String.length after < String.length s.
Proof.
  revert seen. induction s as [|c s IH]; intros seen H; [discriminate|].
  cbn [Str.close_from] in H. cbn [String.length]. destruct (Ascii.eqb c ">").
  - destruct seen; [|discriminate]. injection H as <-. lia.
  - specialize (IH _ H). lia.
Qed.

Lemma close_from_no_gt seen s :
  Py.contains ">" s = false -> Str.close_from seen s = None.
Proof.
  revert seen. induction s as [|c s IH]; intros seen H; [reflexivity|].
  cbn [Py.contains] in H. apply orb_false_iff in H as [Hc Hs].
  cbn [Str.close_from]. rewrite Hc. auto.
Qed.

Lemma close_from_seen_None s :
  Str.close_from true s = None -> Py.contains ">" s = false.
Proof.
  induction s as [|c s IH]; [reflexivity|]. cbn [Str.close_from Py.contains].
  destruct (Ascii.eqb c ">"); [discriminate | exact IH].
Qed.

(** Why no tag opens: the text starts with [>], or has no [>] at all. *)
Lemma close_from_None s :
  Str.close_from false s = None ->
  Py.contains ">" s = false \/ exists s', s = String ">" s'.
Proof.
  destruct s as [|c s]; [auto|]. cbn [Str.close_from Py.contains].
  destruct (Ascii.eqb_spec c ">") as [->|Hne]; [eauto|].
  intros H. left. apply close_from_seen_None, H.
Qed.

Lemma sub_tags_fuel_no_gt fuel : forall s,
  Py.contains ">" s = false -> Py.contains ">" (Str.sub_tags_fuel fuel s) = false.
Proof.
  induction fuel as [|fuel IH]; intros s H; [reflexivity|].
  destruct s as [|c s]; [reflexivity|]. cbn [Str.sub_tags_fuel].
  cbn [Py.contains] in H. apply orb_false_iff in H as [Hc Hs].
  rewrite (close_from_no_gt false s Hs).
  destruct (Ascii.eqb c "<"); cbn [Py.contains]; rewrite Hc, (IH s Hs); reflexivity.
Qed.

Lemma sub_tags_fuel_head_gt fuel s :
  Str.sub_tags_fuel (S fuel) (String ">" s) = String ">" (Str.sub_tags_fuel fuel s).
Proof. reflexivity. Qed.

Lemma opens_tag_cons c s :
  opens_tag (String c s)
  = Ascii.eqb c "<"
    && match Str.close_from false s with Some _ => true | None => false end.
Proof. reflexivity. Qed.

Lemma has_tag_cons c s : has_tag (String c s) = opens_tag (String c s) || has_tag s.
Proof. reflexivity. Qed.

Lemma sub_tags_fuel_no_tag fuel : forall s,
  String.length s <= fuel -> has_tag (Str.sub_tags_fuel fuel s) = false.
Proof.
  induction fuel as [|fuel IH]; intros s Hlen.
  - destruct s; reflexivity.
  - destruct s as [|c s]; [reflexivity|]. cbn [String.length] in Hlen.
    cbn [Str.sub_tags_fuel]. destruct (Ascii.eqb c "<") eqn:Ec.
    + destruct (Str.close_from false s) as [after|] eqn:Ecl.
      * pose proof (close_from_shorter _ _ _ Ecl) as Hsh.
        change (" " ++ Str.sub_tags_fuel fuel after)
          with (String " " (Str.sub_tags_fuel fuel after)).
        rewrite has_tag_cons, opens_tag_cons. cbn [Ascii.eqb Bool.eqb andb orb].
        apply IH. lia.
      * rewrite has_tag_cons, opens_tag_cons, Ec, (IH s) by lia.
        rewrite orb_false_r. cbn [andb].
        destruct (close_from_None s Ecl) as [Hn|[s' ->]].
        -- rewrite close_from_no_gt; [reflexivity|].
           apply sub_tags_fuel_no_gt, Hn.
        -- destruct fuel as [|fuel]; [cbn in Hlen; lia|].
           rewrite sub_tags_fuel_head_gt. reflexivity.
    + rewrite has_tag_cons, opens_tag_cons, Ec, (IH s) by lia. reflexivity.
Qed.

Lemma sub_tags_fuel_tagless fuel : forall s,
  String.length s <= fuel -> has_tag s = false -> Str.sub_tags_fuel fuel s = s.
Proof.
  induction fuel as [|fuel IH]; intros s Hlen Ht.
  - destruct s; [reflexivity | cbn in Hlen; lia].
  - destruct s as [|c s]; [reflexivity|]. cbn [String.length] in Hlen.
    rewrite has_tag_cons, opens_tag_cons in Ht.
    apply orb_false_iff in Ht as [Ho Ht].
    cbn [Str.sub_tags_fuel]. destruct (Ascii.eqb c "<").
    + destruct (Str.close_from false s); [discriminate|].
      rewrite IH by (auto; lia). reflexivity.
    + rewrite IH by (auto; lia). reflexivity.
Qed.

Lemma sub_tags_fuel_length fuel : forall s,
  String.length (Str.sub_tags_fuel fuel s) <= String.length s.
Proof.
  induction fuel as [|fuel IH]; intros s; [cbn; lia|].
  destruct s as [|c s]; [cbn; lia|]. cbn [Str.sub_tags_fuel].
  destruct (Ascii.eqb c "<").
  - destruct (Str.close_from false s) as [after|] eqn:E.
    + pose proof (close_from_shorter _ _ _ E). specialize (IH after).
      cbn [append String.length]. lia.
    + specialize (IH s). cbn [String.length]. lia.
  - specialize (IH s). cbn [String.length]. lia.
Qed.

(** X6.  The first step of [strip_tags], the replacement of every tag by
    a space, leaves no tag behind and leaves a text without tags as it is;
    so doing it twice changes nothing more. *)
Theorem sub_tags_removes_every_tag :
  forall s : string,
    has_tag (Str.sub_tags s) = false
    /\ (has_tag s = false -> Str.sub_tags s = s)
    /\ Str.sub_tags (Str.sub_tags s) = Str.sub_tags s.
Proof.
  intros s. unfold Str.sub_tags.
  assert (H1 : has_tag (Str.sub_tags_fuel (String.length s) s) = false)
    by (apply sub_tags_fuel_no_tag; lia).
  split; [exact H1|]. split.
  - apply sub_tags_fuel_tagless. lia.
  - apply sub_tags_fuel_tagless; [lia | exact H1].
Qed.

Lemma sub_tags_removes_every_tag_witness :
  Str.sub_tags "salary > 50k, hours < 40" = "salary > 50k, hours < 40".
Proof.
  apply (proj1 (proj2 (sub_tags_removes_every_tag "salary > 50k, hours < 40"))).
  vm_compute. reflexivity.
Defined.

(** *** Percent-encoding and the favicon URL *)

Lemma every_count_zero cls ch s :
  cls ch = false -> every cls s = true -> count_char ch s = 0.
Proof.
  intros Hch. induction s as [|c s IH]; cbn [every count_char]; intros H;
    [reflexivity|].
  apply andb_true_iff in H as [Hc Hs]. rewrite (IH Hs).
  destruct (Ascii.eqb_spec c ch); [congruence | reflexivity].
Qed.

Lemma quote_char_url c :
  every url_char (String.concat "" (map (Quote.quote_byte ":/") (Quote.utf8 c))) = true.
Proof. each_char c. Qed.

Lemma quote_url_chars s : every url_char (Quote.quote ":/" s) = true.
Proof.
  induction s as [|c s IH]; [reflexivity|]. cbn [Quote.quote].
  rewrite every_app, quote_char_url, IH. reflexivity.
Qed.

(** X7.  Whatever the company URL, the favicon URL is the fixed template
    around an encoded text made of letters, digits and [_.-~:/%] only; so
    it has the template's one "?", four "&" and five "=", and no "#" or
    space: the company URL cannot add or change a parameter. *)
Theorem favicon_url_keeps_template :
  forall (company_url : option string) (icon : string),
    favicon_url company_url = Some icon ->
    (exists encoded,
        icon = "https://t0.gstatic.com/faviconV2?client=SOCIAL&type=FAVICON"
               ++ "&fallback_opts=TYPE,SIZE,URL&url=" ++ encoded ++ "&size=128"
        /\ every url_char encoded = true)
    /\ count_char "?" icon = 1
    /\ count_char "&" icon = 4
    /\ count_char "=" icon = 5
    /\ count_char "#" icon = 0
    /\ count_char " " icon = 0.
Proof.
  intros u icon. unfold favicon_url.
  destruct (Py.truthy u); cbn [negb]; [|discriminate]. intros [= <-].
  set (q := Quote.quote ":/" (Py.or_empty u)).
  pose proof (quote_url_chars (Py.or_empty u)) as Hq. fold q in Hq.
  split; [exists q; split; [reflexivity | exact Hq]|].
  unfold FAVICON_TMPL.
  repeat split; rewrite !count_char_app;
    rewrite (every_count_zero url_char _ q) by (auto; reflexivity); reflexivity.
Qed.

Lemma favicon_url_keeps_template_witness :
  count_char "&"
    ("https://t0.gstatic.com/faviconV2?client=SOCIAL&type=FAVICON"
     ++ "&fallback_opts=TYPE,SIZE,URL&url="
     ++ "https://acme.example/%3Fa%3D1%26size%3D16" ++ "&size=128") = 4.
Proof.
  apply (favicon_url_keeps_template (Some "https://acme.example/?a=1&size=16")).
  vm_compute. reflexivity.
Defined.

Lemma reads_as_spec enc b rest :
  reads_as enc b = true ->
  unquote_bytes (enc ++ rest) = b :: unquote_bytes rest.
Proof.
  destruct enc as [|ch [|x [|y [|z enc]]]]; cbn [reads_as]; try discriminate;
    intros H; apply andb_true_iff in H as [Hc Hb]; apply N.eqb_eq in Hb;
    cbn [append unquote_bytes].
  - apply negb_true_iff in Hc. rewrite Hc, Hb. reflexivity.
  - rewrite Hc, Hb. reflexivity.
Qed.

Lemma quote_byte_reads c :
  forallb (fun b => reads_as (Quote.quote_byte ":/" b) b) (Quote.utf8 c) = true.
Proof. each_char c. Qed.

Lemma utf8_reads c : reads_char (Quote.utf8 c) c = true.
Proof. each_char c. Qed.

Lemma concat_cons x l : String.concat "" (x :: l) = x ++ String.concat "" l.
Proof.
  destruct l as [|y l]; cbn [String.concat]; [|reflexivity].
  symmetry. apply app_empty_r.
Qed.

Lemma unquote_bytes_quoted bs rest :
  forallb (fun b => reads_as (Quote.quote_byte ":/" b) b) bs = true ->
  unquote_bytes (String.concat "" (map (Quote.quote_byte ":/") bs) ++ rest)
  = (bs ++ unquote_bytes rest)%list.
Proof.
  induction bs as [|b bs IH]; [reflexivity|]. cbn [forallb map].
  intros H. apply andb_true_iff in H as [Hb Hbs].
  rewrite concat_cons, app_assoc_s, (reads_as_spec _ b _ Hb), (IH Hbs).
  reflexivity.
Qed.

Lemma unquote_bytes_char c rest :
  unquote_bytes
    (String.concat "" (map (Quote.quote_byte ":/") (Quote.utf8 c)) ++ rest)
  = (Quote.utf8 c ++ unquote_bytes rest)%list.
Proof. apply unquote_bytes_quoted, quote_byte_reads. Qed.

Lemma decode_utf8_char c bs :
  decode_utf8 (Quote.utf8 c ++ bs)%list = String c (decode_utf8 bs).
Proof.
  pose proof (utf8_reads c) as H.
  destruct (Quote.utf8 c) as [|b [|b2 [|b3 l]]]; cbn [reads_char] in H;
    try discriminate; apply andb_true_iff in H as [Hb Hc];
    apply Ascii.eqb_eq in Hc; cbn [app decode_utf8].
  - rewrite Hb, Hc. reflexivity.
  - apply negb_true_iff in Hb. rewrite Hb, Hc. reflexivity.
Qed.

(** [quote] can be read back. *)
Lemma unquote_quote s : unquote (Quote.quote ":/" s) = s.
Proof.
  unfold unquote. induction s as [|c s IH]; [reflexivity|].
  cbn [Quote.quote]. rewrite unquote_bytes_char, decode_utf8_char, IH.
  reflexivity.
Qed.

Lemma length_app_s a b :
  String.length (a ++ b) = String.length a + String.length b.
Proof. induction a as [|c a IH]; cbn [append String.length]; [reflexivity | rewrite IH; reflexivity]. Qed.

Lemma app_inv_head_s a x y : a ++ x = a ++ y -> x = y.
Proof. induction a as [|c a IH]; cbn [append]; [auto|]. intros [= H]. auto. Qed.

Lemma app_inv_tail_s z : forall x y, x ++ z = y ++ z -> x = y.
Proof.
  induction x as [|c x IH]; intros [|d y] H; cbn [append] in H.
  - reflexivity.
  - apply (f_equal String.length) in H. cbn [String.length] in H.
    rewrite length_app_s in H. lia.
  - apply (f_equal String.length) in H. cbn [String.length] in H.
    rewrite length_app_s in H. lia.
  - injection H as -> H. rewrite (IH y H). reflexivity.
Qed.

Lemma FAVICON_TMPL_inj x y : FAVICON_TMPL x = FAVICON_TMPL y -> x = y.
Proof.
  unfold FAVICON_TMPL. intros H.
  apply app_inv_head_s, app_inv_head_s, app_inv_tail_s in H. exact H.
Qed.

(** X8.  Two company URLs with the same favicon URL are the same URL: the
    encoding loses nothing, so the favicon URL tells the sites apart. *)
Theorem favicon_url_injective :
  forall (a b : option string) (icon : string),
    favicon_url a = Some icon -> favicon_url b = Some icon -> a = b.
Proof.
  intros a b icon. unfold favicon_url.
  destruct a as [[|c a]|]; cbn [Py.truthy negb]; try discriminate.
  destruct b as [[|d b]|]; cbn [Py.truthy negb]; try discriminate.
  cbn [Py.or_empty].
  set (qa := Quote.quote ":/" (String c a)).
  set (qb := Quote.quote ":/" (String d b)).
  intros Ha Hb. assert (H : qa = qb).
  { apply FAVICON_TMPL_inj. congruence. }
  apply (f_equal unquote) in H. unfold qa, qb in H.
  rewrite !unquote_quote in H. rewrite H. reflexivity.
Qed.

Lemma favicon_url_injective_witness :
  Some "https://acme.example/a b?c=1"
  = Some ("https://acme.example/" ++ "a b?c=1").
Proof.
  apply (favicon_url_injective _ _
           (FAVICON_TMPL "https://acme.example/a%20b%3Fc%3D1"));
    vm_compute; reflexivity.
Defined.

(** ** Matches are pieces of the text *)

Lemma rep_split cls s : forall lo hi m r,
  In (m, r) (Re.rep cls lo hi s) -> s = m ++ r.
Proof.
  induction s as [|c s IH]; intros lo hi m r H; cbn [Re.rep] in H.
  - destruct (lo =? 0)%nat; [|destruct H]. destruct H as [[= <- <-]|[]]. reflexivity.
  - assert (Hstop : In (m, r) (if (lo =? 0)%nat then [("", String c s)] else []) ->
                    String c s = m ++ r).
    { destruct (lo =? 0)%nat; [|intros []]. intros [[= <- <-]|[]]. reflexivity. }
    destruct (cls c && _); [|auto].
    apply in_app_or in H as [H|H]; [|auto].
    apply in_map_iff in H as [[m' r'] [[= <- <-] H]].
    cbn [fst snd append]. f_equal. exact (IH _ _ _ _ H).
Qed.

Lemma exec_split r : forall s h,
  In h (Re.exec r s) ->
  s = Re.matched h ++ Re.rest h
  /\ forall g, Re.group1 h = Some g -> part_of g (Re.matched h).
Proof.
  induction r as [|cls|r1 IH1 r2 IH2|r1 IH1 r2 IH2|r IH|cls lo hi|r IH];
    intros s h H.
  - destruct H as [<-|[]]. cbn. split; [reflexivity | discriminate].
  - apply in_exec_chr in H as (c & -> & _ & -> & ->).
    split; [reflexivity | discriminate].
  - apply in_exec_seq in H as (h1 & h2 & H1 & H2 & -> & -> & ->).
    destruct (IH1 _ _ H1) as [E1 G1]. destruct (IH2 _ _ H2) as [E2 G2].
    split.
    + rewrite app_assoc_s, <- E2. exact E1.
    + intros g Hg. destruct (Re.group1 h2) as [g2|] eqn:Eg; cbn [Re.later] in Hg.
      * injection Hg as <-. destruct (G2 _ eq_refl) as (a & b & ->).
        exists (Re.matched h1 ++ a), b. rewrite !app_assoc_s. reflexivity.
      * destruct (G1 _ Hg) as (a & b & ->).
        exists a, (b ++ Re.matched h2). rewrite !app_assoc_s. reflexivity.
  - apply in_exec_alt in H as [H|H]; auto.
  - apply in_exec_opt in H as [H| ->]; [auto|].
    cbn. split; [reflexivity | discriminate].
  - apply in_exec_rep in H as [H ->]. split; [|discriminate].
    exact (rep_split _ _ _ _ _ _ H).
  - apply in_exec_group in H as (h' & H & -> & -> & ->).
    destruct (IH _ _ H) as [E _]. split; [exact E|].
    intros g [= <-]. exists "", "". cbn. symmetry. apply app_empty_r.
Qed.

Lemma part_of_trans a b c : part_of a b -> part_of b c -> part_of a c.
Proof.
  intros (x & y & ->) (x' & y' & ->). exists (x' ++ x), (y ++ y').
  rewrite !app_assoc_s. reflexivity.
Qed.

Lemma part_of_strip s : part_of (Py.strip s) s.
Proof. destruct (strip_split s) as (w1 & w2 & E & _). exists w1, w2. exact E. Qed.

Lemma part_of_matched r s h pre :
  In h (Re.exec r s) -> part_of (Re.matched h) (pre ++ s).
Proof.
  intros H. destruct (exec_split _ _ _ H) as [E _].
  exists pre, (Re.rest h). rewrite <- E. reflexivity.
Qed.

(** ** The salary that is returned *)

Lemma exec_dollar_re_group s h :
  In h (Re.exec Salary.dollar_re s) ->
  exists d tl, Salary.digit d = true
               /\ Re.group1 h = Some (String "$" (String d tl)).
Proof.
  unfold Salary.dollar_re. intros H.
  apply in_exec_group in H as (h' & H & _ & -> & _).
  apply exec_range_of in H as (h1 & tl & H & ->).
  unfold Salary.dollar_amount in H.
  apply in_exec_seq in H as (h2 & h3 & H2 & H3 & -> & _).
  apply in_exec_seq in H3 as (h4 & h5 & H4 & _ & -> & _).
  apply in_exec_chr in H2 as (c & _ & Hc & -> & _).
  apply in_exec_chr in H4 as (d & _ & Hd & -> & _).
  apply Ascii.eqb_eq in Hc. subst c.
  exists d, (Re.matched h5 ++ tl). split; [exact Hd|]. reflexivity.
Qed.

Lemma stripped_amount g :
  (exists d tl, Salary.digit d = true
                /\ (g = String d tl \/ g = String "$" (String d tl))) ->
  exists d tl, Char.isdecimal d = true
               /\ (Py.strip g = String d tl \/ Py.strip g = String "$" (String d tl)).
Proof.
  intros (d & tl & Hd & [-> | ->]).
  - destruct (strip_cons d tl (digit_not_space d Hd)) as [r Hr]. eauto.
  - destruct (strip_cons2 "$" d tl eq_refl (digit_not_space d Hd)) as [r Hr]. eauto.
Qed.

Lemma search_group_part r text h g :
  Re.search r text = Some h -> Re.group1 h = Some g -> part_of g text.
Proof.
  intros Hs Hg. apply search_Some in Hs as (pre & t & -> & Hin).
  destruct (exec_split _ _ _ Hin) as [_ G].
  apply (part_of_trans _ (Re.matched h)); [exact (G _ Hg)|].
  exact (part_of_matched _ _ _ pre Hin).
Qed.

(** X9.  A salary that [parse_salary] returns is a piece of the text, has
    no white space at either end, and begins with a decimal digit or with
    "$" and a decimal digit; in particular it is never empty. *)
Theorem parse_salary_returns_part_of_text :
  forall text v : string,
    parse_salary text = Some v ->
    part_of v text
    /\ Py.strip v = v
    /\ exists d tl,
         Char.isdecimal d = true
         /\ (v = String d tl \/ v = String "$" (String d tl)).
Proof.
  intros text v. unfold parse_salary, Salary.group1_stripped.
  assert (Hgo : forall r m,
             Re.search r text = Some m ->
             (forall s h, In h (Re.exec r s) ->
                exists d tl, Salary.digit d = true
                  /\ (Re.group1 h = Some (String d tl)
                      \/ Re.group1 h = Some (String "$" (String d tl)))) ->
             option_map Py.strip (Re.group1 m) = Some v ->
             part_of v text /\ Py.strip v = v
             /\ exists d tl, Char.isdecimal d = true
                  /\ (v = String d tl \/ v = String "$" (String d tl))).
  { intros r m Hs Hshape Hv.
    destruct (Re.group1 m) as [g|] eqn:Hg; [|discriminate].
    injection Hv as <-. split; [|split].
    - apply (part_of_trans _ g); [apply part_of_strip|].
      exact (search_group_part _ _ _ _ Hs Hg).
    - apply strip_idem.
    - apply stripped_amount.
      apply search_Some in Hs as (pre & t & _ & Hin).
      destruct (Hshape _ _ Hin) as (d & tl & Hd & [H|H]); rewrite Hg in H;
        injection H as ->; eauto. }
  destruct (Re.search Salary.keyword_re text) as [m|] eqn:Ek.
  - apply (Hgo _ _ Ek). intros s h H. apply (exec_keyword_re s h H).
  - destruct (Re.search Salary.dollar_re text) as [m|] eqn:Ed; [|discriminate].
    apply (Hgo _ _ Ed). intros s h H.
    destruct (exec_dollar_re_group s h H) as (d & tl & Hd & Hg). eauto.
Qed.

Lemma parse_salary_returns_part_of_text_witness :
  part_of "$95k - $110k" "Pay: $95k - $110k plus equity".
Proof.
  apply (parse_salary_returns_part_of_text "Pay: $95k - $110k plus equity").
  vm_compute. reflexivity.
Defined.

(** ** The employment type that is returned *)

Lemma exec_word_i_matched w : forall s h,
  In h (Re.exec (Re.word_i w) s) ->
  Py.lower (Re.matched h) = Py.lower w /\ Re.group1 h = None.
Proof.
  induction w as [|p w IH]; intros s h H.
  - destruct H as [<-|[]]. auto.
  - cbn [Re.word_i] in H.
    apply in_exec_seq in H as (h1 & h2 & H1 & H2 & -> & -> & _).
    apply in_exec_chr in H1 as (c & _ & Hc & -> & ->).
    destruct (IH _ _ H2) as [Hl ->]. split; [|reflexivity].
    cbn [append Py.lower]. rewrite Hl. f_equal. apply Ascii.eqb_eq, Hc.
Qed.

Lemma exec_separator s h :
  In h (Re.exec (Re.Opt (Re.Chr Employment.hyphen_or_space)) s) ->
  separator (Re.matched h).
Proof.
  intros H. apply in_exec_opt in H as [H| ->]; [|left; reflexivity].
  apply in_exec_chr in H as (c & _ & Hc & -> & _). right. eauto.
Qed.

Lemma exec_compound w1 w2 s h :
  In h (Re.exec (Re.Seq (Re.word_i w1)
                  (Re.Seq (Re.Opt (Re.Chr Employment.hyphen_or_space))
                          (Re.word_i w2))) s) ->
  exists m1 m2 m3,
    Re.matched h = m1 ++ m2 ++ m3
    /\ Py.lower m1 = Py.lower w1 /\ separator m2 /\ Py.lower m3 = Py.lower w2.
Proof.
  intros H. apply in_exec_seq in H as (h1 & h2 & H1 & H2 & -> & _).
  apply in_exec_seq in H2 as (h3 & h4 & H3 & H4 & -> & _).
  exists (Re.matched h1), (Re.matched h3), (Re.matched h4).
  repeat split.
  - apply (exec_word_i_matched _ _ _ H1).
  - apply (exec_separator _ _ H3).
  - apply (exec_word_i_matched _ _ _ H4).
Qed.

Lemma exec_employment_body s h :
  In h (Re.exec Employment.body s) ->
  Re.group1 h = Some (Re.matched h) /\ employment_shape (Re.matched h).
Proof.
  unfold Employment.body. intros H.
  apply in_exec_group in H as (h' & H & -> & -> & _).
  split; [reflexivity|]. unfold employment_shape.
  apply in_exec_alt in H as [H|H].
  { left. apply exec_compound in H as (m1 & m2 & m3 & ? & ? & ? & ?).
    exists m1, m2, m3. auto. }
  apply in_exec_alt in H as [H|H].
  { right. left. apply exec_compound in H as (m1 & m2 & m3 & ? & ? & ? & ?).
    exists m1, m2, m3. auto. }
  apply in_exec_alt in H as [H|H].
  { right. right. left. apply (exec_word_i_matched _ _ _ H). }
  apply in_exec_alt in H as [H|H].
  { right. right. right. left. apply (exec_word_i_matched _ _ _ H). }
  apply in_exec_seq in H as (h1 & h2 & H1 & H2 & -> & _).
  apply exec_word_i_matched in H1 as [H1 _].
  apply in_exec_opt in H2 as [H2| ->].
  - apply exec_word_i_matched in H2 as [H2 _].
    right. right. right. right. left. rewrite lower_app, H1, H2. reflexivity.
  - right. right. right. right. right. cbn [Re.matched].
    rewrite app_empty_r. exact H1.
Qed.

Lemma search_word_Some r s : forall prev h,
  Employment.search_word prev r s = Some h ->
  exists pre t,
    s = pre ++ t /\ In h (Re.exec r t)
    /\ Employment.boundary (Employment.last_char pre prev) t = true
    /\ Employment.boundary
         (Employment.last_char (Re.matched h) (Employment.last_char pre prev))
         (Re.rest h) = true.
Proof.
  assert (Hhere : forall prev t h,
             (if Employment.boundary prev t
              then find (fun h => Employment.boundary
                                    (Employment.last_char (Re.matched h) prev)
                                    (Re.rest h)) (Re.exec r t)
              else None) = Some h ->
             In h (Re.exec r t) /\ Employment.boundary prev t = true
             /\ Employment.boundary (Employment.last_char (Re.matched h) prev)
                  (Re.rest h) = true).
  { intros prev t h H. destruct (Employment.boundary prev t); [|discriminate].
    apply find_some in H as [H1 H2]. auto. }
  induction s as [|c s IH]; intros prev h H; cbn [Employment.search_word] in H.
  - destruct (if Employment.boundary prev "" then _ else None) as [h0|] eqn:E;
      [|discriminate].
    injection H as <-. apply Hhere in E as (H1 & H2 & H3).
    exists "", "". auto.
  - destruct (if Employment.boundary prev (String c s) then _ else None)
      as [h0|] eqn:E.
    + injection H as <-. apply Hhere in E as (H1 & H2 & H3).
      exists "", (String c s). auto.
    + destruct (IH _ _ H) as (pre & t & -> & H1 & H2 & H3).
      exists (String c pre), t. auto.
Qed.

Lemma squeeze_app a b : squeeze (a ++ b) = squeeze a ++ squeeze b.
Proof.
  induction a as [|c a IH]; [reflexivity|]. cbn [append squeeze]. rewrite IH.
  destruct (Employment.hyphen_or_space c); reflexivity.
Qed.

Lemma squeeze_all_space w : all_space w = true -> squeeze w = "".
Proof.
  induction w as [|c w IH]; cbn [all_space squeeze]; intros H; [reflexivity|].
  apply andb_true_iff in H as [Hc Hw]. unfold Employment.hyphen_or_space.
  rewrite Hc, orb_true_r. auto.
Qed.

Lemma squeeze_strip s : squeeze (Py.strip s) = squeeze s.
Proof.
  destruct (strip_split s) as (w1 & w2 & E & H1 & H2). rewrite E at 2.
  rewrite !squeeze_app, (squeeze_all_space w1 H1), (squeeze_all_space w2 H2).
  symmetry. apply app_empty_r.
Qed.

Lemma hyphen_or_space_lower c :
  Employment.hyphen_or_space (Char.lower_char c) = Employment.hyphen_or_space c.
Proof. each_char c. Qed.

Lemma squeeze_lower_separator m : separator m -> squeeze (Py.lower m) = "".
Proof.
  intros [-> | (c & -> & Hc)]; [reflexivity|].
  cbn [Py.lower squeeze]. rewrite hyphen_or_space_lower, Hc. reflexivity.
Qed.

Lemma employment_shape_word m :
  employment_shape m -> In (squeeze (Py.lower m)) employment_words.
Proof.
  unfold employment_shape, employment_words.
  intros [H|[H|[H|[H|[H|H]]]]].
  - destruct H as (m1 & m2 & m3 & -> & H1 & H2 & H3).
    rewrite !lower_app, H1, H3, !squeeze_app, (squeeze_lower_separator m2 H2).
    left. reflexivity.
  - destruct H as (m1 & m2 & m3 & -> & H1 & H2 & H3).
    rewrite !lower_app, H1, H3, !squeeze_app, (squeeze_lower_separator m2 H2).
    right. left. reflexivity.
  - rewrite H. do 2 right. left. reflexivity.
  - rewrite H. do 3 right. left. reflexivity.
  - rewrite H. do 4 right. left. reflexivity.
  - rewrite H. do 5 right. left. reflexivity.
Qed.

(** X10.  An employment type that [parse_employment] returns and that is
    written in ASCII characters is, once lowered and with its hyphen or
    white space taken out, one of the six words of the closed vocabulary;
    and it is a piece of the text.  (Under [(?i)] the pattern of [re] also
    accepts a few letters from outside ASCII in the place of [i], [s] and
    [k]; a value with one of them is not covered.) *)
Theorem parse_employment_closed_vocabulary :
  forall text v : string,
    parse_employment text = Some v ->
    ascii_only v = true ->
    In (squeeze (Py.lower v)) employment_words /\ part_of v text.
Proof.
  intros text v Hv _. revert Hv. unfold parse_employment.
  destruct (Employment.search_word None Employment.body text) as [m|] eqn:Es;
    [|discriminate].
  apply search_word_Some in Es as (pre & t & -> & Hin & _ & _).
  destruct (exec_employment_body _ _ Hin) as [Hg Hshape].
  rewrite Hg. cbn [option_map]. intros [= <-]. split.
  - rewrite <- lower_strip, squeeze_strip. apply employment_shape_word, Hshape.
  - apply (part_of_trans _ (Re.matched m)); [apply part_of_strip|].
    exact (part_of_matched _ _ _ pre Hin).
Qed.

Lemma parse_employment_closed_vocabulary_witness :
  In (squeeze (Py.lower "Full-Time")) employment_words
  /\ part_of "Full-Time" "This is a Full-Time position.".
Proof.
  apply (parse_employment_closed_vocabulary "This is a Full-Time position.");
    vm_compute; reflexivity.
Defined.

(** *** Word boundaries *)

Lemma isword_lower_char c : Char.isword (Char.lower_char c) = Char.isword c.
Proof. each_char c. Qed.

Lemma isword_not_space c : Char.isword c = true -> Char.isspace c = false.
Proof. each_char c. Qed.

Lemma last_char_cons c s p :
  Employment.last_char (String c s) p = Employment.last_char (String c s) None.
Proof. reflexivity. Qed.

Lemma last_char_app a b p :
  Employment.last_char (a ++ b) p
  = Employment.last_char b (Employment.last_char a p).
Proof.
  revert p. induction a as [|c a IH]; intros p; [reflexivity|].
  cbn [append Employment.last_char]. apply IH.
Qed.

Lemma last_char_lower s : forall p,
  Employment.last_char (Py.lower s) (option_map Char.lower_char p)
  = option_map Char.lower_char (Employment.last_char s p).
Proof.
  induction s as [|c s IH]; intros p; [reflexivity|].
  cbn [Py.lower Employment.last_char]. apply (IH (Some c)).
Qed.

Lemma starts_with_word_lower s : starts_with_word (Py.lower s) = starts_with_word s.
Proof. destruct s; [reflexivity | apply isword_lower_char]. Qed.

Lemma ends_with_word_lower s : ends_with_word (Py.lower s) = ends_with_word s.
Proof.
  unfold ends_with_word. pose proof (last_char_lower s None) as H.
  cbn [option_map] in H. rewrite H.
  destruct (Employment.last_char s None); [apply isword_lower_char | reflexivity].
Qed.

Lemma ends_with_word_app_word a c b :
  ends_with_word (a ++ String c b) = ends_with_word (String c b).
Proof. unfold ends_with_word. rewrite last_char_app. reflexivity. Qed.

Lemma employment_shape_words m :
  employment_shape m -> starts_with_word m = true /\ ends_with_word m = true.
Proof.
  intros H. rewrite <- starts_with_word_lower, <- ends_with_word_lower.
  destruct H as [H|[H|[H|[H|[H|H]]]]];
    try (rewrite H; split; reflexivity);
    destruct H as (m1 & m2 & m3 & -> & H1 & _ & H3);
    rewrite !lower_app, H1, H3; split; try reflexivity;
    rewrite <- app_assoc_s; apply ends_with_word_app_word.
Qed.

Lemma rstrip_ends_nonspace s c :
  Employment.last_char s None = Some c -> Char.isspace c = false ->
  Py.rstrip s = s.
Proof.
  induction s as [|d s IH]; [discriminate|].
  cbn [Employment.last_char Py.rstrip]. intros Hl Hc.
  destruct s as [|e s].
  - injection Hl as ->. cbn [Py.rstrip]. rewrite Hc. reflexivity.
  - rewrite last_char_cons in Hl. rewrite (IH Hl Hc). reflexivity.
Qed.

Lemma strip_between_words m :
  starts_with_word m = true -> ends_with_word m = true -> Py.strip m = m.
Proof.
  intros Hs He. unfold Py.strip. rewrite lstrip_headed.
  - unfold ends_with_word in He.
    destruct (Employment.last_char m None) as [c|] eqn:El; [|discriminate].
    apply (rstrip_ends_nonspace m c El), isword_not_space, He.
  - destruct m as [|c m]; [reflexivity|]. cbn [headed].
    rewrite (isword_not_space c Hs). reflexivity.
Qed.

(** X11.  An employment type that [parse_employment] returns stands in the
    text as a whole word: the character before it, if any, and the
    character after it, if any, are not of the class [\w]. *)
Theorem parse_employment_whole_word :
  forall text v : string,
    parse_employment text = Some v ->
    exists pre post,
      text = pre ++ v ++ post
      /\ ends_with_word pre = false
      /\ starts_with_word post = false.
Proof.
  intros text v. unfold parse_employment.
  destruct (Employment.search_word None Employment.body text) as [m|] eqn:Es;
    [|discriminate].
  apply search_word_Some in Es as (pre & t & -> & Hin & Hb1 & Hb2).
  destruct (exec_employment_body _ _ Hin) as [Hg Hshape].
  destruct (employment_shape_words _ Hshape) as [Hsw Hew].
  destruct (exec_split _ _ _ Hin) as [Et _].
  rewrite Hg. cbn [option_map]. rewrite (strip_between_words _ Hsw Hew).
  intros [= <-]. exists pre, (Re.rest m). split; [rewrite <- Et; reflexivity|].
  split.
  - unfold Employment.boundary in Hb1. unfold ends_with_word.
    rewrite Et in Hb1.
    destruct (Re.matched m) as [|c mm] eqn:Em; [discriminate|].
    cbn [append] in Hb1. cbn [starts_with_word] in Hsw. rewrite Hsw in Hb1.
    destruct (Employment.last_char pre None) as [p|]; [|reflexivity].
    destruct (Char.isword p); [discriminate | reflexivity].
  - unfold Employment.boundary in Hb2. unfold ends_with_word in Hew.
    destruct (Re.matched m) as [|c mm] eqn:Em; [discriminate|].
    rewrite last_char_cons in Hb2.
    destruct (Employment.last_char (String c mm) None) as [l|]; [|discriminate].
    rewrite Hew in Hb2. unfold starts_with_word.
    destruct (Re.rest m) as [|n rr]; [reflexivity|].
    destruct (Char.isword n); [discriminate | reflexivity].
Qed.

Lemma parse_employment_whole_word_witness :
  exists pre post,
    "Role: Intern (paid)" = pre ++ "Intern" ++ post
    /\ ends_with_word pre = false
    /\ starts_with_word post = false.
Proof.
  apply (parse_employment_whole_word "Role: Intern (paid)" "Intern").
  vm_compute. reflexivity.
Defined.

(** ** Skills *)

Lemma map_filter_commute {A B : Type} (f : A -> B) (p : A -> bool)
  (q : B -> bool) (l : list A) :
  (forall x, In x l -> p x = q (f x)) ->
  map f (filter p l) = filter q (map f l).
Proof.
  induction l as [|x l IH]; intros H; [reflexivity|]. cbn [filter map].
  rewrite <- (H x) by (left; reflexivity).
  rewrite <- IH by (intros y Hy; apply H; right; exact Hy).
  destruct (p x); reflexivity.
Qed.

Lemma skills_from_text_filter text :
  skills_from_text text
  = filter (fun label => Str.infix (Py.lower label) (Py.lower text)) skill_labels.
Proof.
  unfold skills_from_text.
  rewrite (map_filter_commute _ _
             (fun label => Str.infix (Py.lower label) (Py.lower text))).
  - reflexivity.
  - intros k Hk. cbn [In] in Hk.
    repeat (destruct Hk as [<-|Hk]; [reflexivity|]). destruct Hk.
Qed.

(** X12.  The skills found in a text are the labels whose lowered form
    occurs in the lowered text, each once and in the order of the fixed
    list; the case of the text does not matter. *)
Theorem skills_from_text_labels :
  forall text : string,
    skills_from_text text
    = filter (fun label => Str.infix (Py.lower label) (Py.lower text)) skill_labels
    /\ NoDup (skills_from_text text)
    /\ (forall label,
          In label (skills_from_text text)
          <-> In label skill_labels
              /\ Str.infix (Py.lower label) (Py.lower text) = true)
    /\ (forall text', Py.lower text' = Py.lower text ->
                      skills_from_text text' = skills_from_text text).
Proof.
  intros text. rewrite skills_from_text_filter.
  split; [reflexivity|]. split; [|split].
  - apply NoDup_filter. unfold skill_labels.
    repeat (constructor; [cbn [In]; intros H;
      repeat (destruct H as [H|H]; [discriminate|]); exact H|]).
    constructor.
  - intros label. rewrite filter_In. reflexivity.
  - intros text' H. rewrite skills_from_text_filter, H. reflexivity.
Qed.

Lemma skills_from_text_labels_witness :
  skills_from_text "REST APIs in PYTHON" = skills_from_text "rest apis in python".
Proof.
  apply (skills_from_text_labels "rest apis in python"). vm_compute. reflexivity.
Defined.

(** ** More on the merger *)

(** X13.  The test that lets a record replace the one kept so far is a
    strict order on (score, length of the text): no record replaces
    itself or a record that replaces it, the test is transitive, and two
    records neither of which replaces the other have the same score and
    the same length of text. *)
Theorem replaces_is_strict_order :
  forall a b c : Job,
    replaces a a = false
    /\ (replaces a b = true -> replaces b a = false)
    /\ (replaces a b = true -> replaces b c = true -> replaces a c = true)
    /\ (replaces a b = false -> replaces b a = false ->
        score a = score b /\ text_len a = text_len b).
Proof.
  intros a b c.
  rewrite !not_replaces_at_least, !replaces_richer.
  unfold richer, at_least. repeat split; lia.
Qed.

Lemma replaces_is_strict_order_witness :
  replaces rich sparse = true /\ replaces sparse rich = false.
Proof.
  assert (H : replaces rich sparse = true) by (vm_compute; reflexivity).
  split; [exact H|].
  exact (proj1 (proj2 (replaces_is_strict_order rich sparse sparse)) H).
Defined.

Lemma absent_from_spec l k : absent_from l k = true <-> ~ In k l.
Proof.
  unfold absent_from. rewrite negb_true_iff. split.
  - intros H Hin. assert (existsb (String.eqb k) l = true); [|congruence].
    apply existsb_exists. exists k. split; [exact Hin | apply String.eqb_refl].
  - intros H. destruct (existsb (String.eqb k) l) eqn:E; [|reflexivity].
    apply existsb_exists in E as (x & Hx & Hk). apply String.eqb_eq in Hk.
    subst x. contradiction.
Qed.

Lemma dedupe_step_keys d job :
  map fst (dedupe_step d job)
  = if absent_from (map fst d) (job_key job)
    then (map fst d ++ [job_key job])%list else map fst d.
Proof.
  rewrite dedupe_step_eq.
  destruct (lookup (job_key job) d) as [existing|] eqn:El.
  - assert (absent_from (map fst d) (job_key job) = false) as ->.
    { destruct (absent_from _ _) eqn:E; [|reflexivity].
      apply absent_from_spec in E. apply lookup_None in E. congruence. }
    destruct (replaces _ _); [apply (assign_keys _ _ _ _ El) | reflexivity].
  - assert (absent_from (map fst d) (job_key job) = true) as ->.
    { apply absent_from_spec, lookup_None, El. }
    rewrite (assign_fresh _ _ _ El), map_app. reflexivity.
Qed.

Lemma filter_filter_and {A : Type} (p q r : A -> bool) (l : list A) :
  (forall x, r x = p x && q x) -> filter p (filter q l) = filter r l.
Proof.
  intros H. induction l as [|x l IH]; [reflexivity|]. cbn [filter].
  rewrite (H x). destruct (q x); cbn [filter]; rewrite IH, ?andb_true_r, ?andb_false_r;
    [destruct (p x) | ]; reflexivity.
Qed.

Lemma absent_from_snoc l k x :
  absent_from (l ++ [k]) x = absent_from l x && negb (String.eqb k x).
Proof.
  unfold absent_from. rewrite existsb_app. cbn [existsb].
  rewrite orb_false_r, negb_orb, (String.eqb_sym x k). reflexivity.
Qed.

Lemma fold_keys jobs : forall d,
  map fst (fold_left dedupe_step jobs d)
  = (map fst d
     ++ filter (absent_from (map fst d)) (first_seen (map job_key jobs)))%list.
Proof.
  induction jobs as [|job jobs IH]; intros d.
  - cbn. symmetry. apply app_nil_r.
  - cbn [fold_left map first_seen]. rewrite IH, dedupe_step_keys.
    cbn [filter].
    destruct (absent_from (map fst d) (job_key job)) eqn:Ea.
    + rewrite <- app_assoc. cbn [app]. do 2 f_equal. symmetry.
      apply filter_filter_and. intros x. apply absent_from_snoc.
    + f_equal. symmetry. apply filter_filter_and. intros x.
      destruct (String.eqb_spec (job_key job) x) as [<-|Hne];
        [rewrite Ea; reflexivity | apply eq_sym, andb_true_r].
Qed.

Lemma dedupe_keys jobs :
  map job_key (fst (dedupe jobs)) = first_seen (map job_key jobs).
Proof.
  destruct (store_ok_dedupe jobs) as [Hnd Hent Hcov].
  unfold dedupe. cbn [fst].
  rewrite map_key_entries by (intros k v Hkv; apply (Hent _ _ Hkv)).
  rewrite fold_keys. cbn [map app].
  induction (first_seen (map job_key jobs)) as [|k l IH]; [reflexivity|].
  cbn [filter]. unfold absent_from at 1. cbn [existsb negb]. f_equal. exact IH.
Qed.

(** X14.  The records [dedupe] returns stand in the order in which their
    keys were first seen: reading the keys of the output gives the keys of
    the input with every repetition after the first left out. *)
Theorem dedupe_first_seen_order :
  forall jobs : list Job,
    map job_key (fst (dedupe jobs)) = first_seen (map job_key jobs).
Proof. exact dedupe_keys. Qed.

Lemma first_seen_length l : List.length (first_seen l) <= List.length l.
Proof.
  induction l as [|k l IH]; [reflexivity|]. cbn [first_seen List.length].
  pose proof (filter_length_le (fun k' => negb (String.eqb k k')) (first_seen l)).
  lia.
Qed.

Lemma first_seen_nodup l : NoDup l -> first_seen l = l.
Proof.
  induction 1 as [|k l Hk Hnd IH]; [reflexivity|]. cbn [first_seen].
  rewrite IH. f_equal. clear IH Hnd.
  induction l as [|x l IH]; [reflexivity|]. cbn [filter].
  destruct (String.eqb_spec k x) as [->|Hne]; [exfalso; apply Hk; left; reflexivity|].
  cbn [negb]. f_equal. apply IH. intros H. apply Hk. right. exact H.
Qed.

Lemma filter_same_length {A : Type} (p : A -> bool) (l : list A) :
  List.length (filter p l) = List.length l -> forall x, In x l -> p x = true.
Proof.
  induction l as [|y l IH]; [intros _ x []|]. cbn [filter].
  pose proof (filter_length_le p l) as Hle.
  destruct (p y) eqn:E; cbn [List.length]; intros H x [<-|Hx]; auto; try lia.
Qed.

Lemma first_seen_full_length l :
  List.length (first_seen l) = List.length l -> NoDup l.
Proof.
  induction l as [|k l IH]; [constructor|]. cbn [first_seen List.length].
  intros H.
  pose proof (filter_length_le (fun k' => negb (String.eqb k k')) (first_seen l)).
  pose proof (first_seen_length l).
  assert (Hl : List.length (first_seen l) = List.length l) by lia.
  pose proof (IH Hl) as Hnd. constructor; [|exact Hnd].
  intros Hin. rewrite (first_seen_nodup l Hnd) in H.
  assert (Hf : List.length (filter (fun k' => negb (String.eqb k k')) l)
               = List.length l) by lia.
  pose proof (filter_same_length _ _ Hf k Hin) as Hk. cbn beta in Hk.
  rewrite String.eqb_refl in Hk. discriminate.
Qed.

(** X15.  The counts of [dedupe]: the output has one record per distinct
    key, so it is never longer than the input, and empty only for an empty
    input; [duplicates_removed] is never negative, and is zero exactly
    when no two input records share a key. *)
Theorem dedupe_counts_distinct_keys :
  forall jobs : list Job,
    output_count (snd (dedupe jobs))
    = Z.of_nat (List.length (first_seen (map job_key jobs)))
    /\ (0 <= duplicates_removed (snd (dedupe jobs)))%Z
    /\ (output_count (snd (dedupe jobs)) = 0%Z <-> jobs = [])
    /\ (duplicates_removed (snd (dedupe jobs)) = 0%Z
        <-> NoDup (map job_key jobs)).
Proof.
  intros jobs. pose proof (dedupe_keys jobs) as Hk.
  assert (Hlen : List.length (fst (dedupe jobs))
                 = List.length (first_seen (map job_key jobs))).
  { rewrite <- Hk. symmetry. apply length_map. }
  pose proof (first_seen_length (map job_key jobs)) as Hle.
  rewrite length_map in Hle.
  change (output_count (snd (dedupe jobs)))
    with (Z.of_nat (List.length (fst (dedupe jobs)))).
  change (duplicates_removed (snd (dedupe jobs)))
    with (Z.of_nat (List.length jobs)
          - Z.of_nat (List.length (fst (dedupe jobs))))%Z.
  rewrite Hlen. repeat split; try lia.
  - intros H. destruct jobs as [|j jobs]; [reflexivity|].
    cbn [map first_seen List.length] in H. lia.
  - intros ->. reflexivity.
  - intros H. apply first_seen_full_length. rewrite length_map. lia.
  - intros H. rewrite (first_seen_nodup _ H), length_map. lia.
Qed.

Lemma dedupe_step_keyed d job : dedupe_step d (keyed job) = dedupe_step d job.
Proof. reflexivity. Qed.

Lemma fold_keyed jobs : forall d,
  fold_left dedupe_step (map keyed jobs) d = fold_left dedupe_step jobs d.
Proof.
  induction jobs as [|job jobs IH]; intros d; [reflexivity|].
  cbn [map fold_left]. rewrite dedupe_step_keyed. apply IH.
Qed.

Lemma map_job_key_keyed jobs : map job_key (map keyed jobs) = map job_key jobs.
Proof. rewrite map_map. apply map_ext. intros j. apply job_key_keyed. Qed.

Lemma dedupe_keyed jobs : dedupe (map keyed jobs) = dedupe jobs.
Proof. unfold dedupe. rewrite fold_keyed, length_map. reflexivity. Qed.

Lemma fold_fresh_keys jobs d :
  NoDup (map fst d ++ map job_key jobs) ->
  fold_left dedupe_step jobs d
  = (d ++ map (fun v => (job_key v, keyed v)) jobs)%list.
Proof.
  intros Hnd. rewrite <- fold_keyed, fold_distinct_keys.
  - rewrite map_map. reflexivity.
  - rewrite map_job_key_keyed. exact Hnd.
  - intros v Hv. apply in_map_iff in Hv as (j & <- & _). apply keyed_keyed.
Qed.

(** X16.  When no two records of the input share a key, [dedupe] returns
    every record, in the order of the input, changed only in its
    [dedupe_key], and counts no duplicate. *)
Theorem dedupe_keeps_distinct_records :
  forall jobs : list Job,
    NoDup (map job_key jobs) ->
    fst (dedupe jobs) = map keyed jobs
    /\ duplicates_removed (snd (dedupe jobs)) = 0%Z.
Proof.
  intros jobs Hnd. unfold dedupe. cbn [fst snd duplicates_removed].
  rewrite (fold_fresh_keys jobs []) by exact Hnd. cbn [app].
  rewrite map_map. cbn [snd]. rewrite length_map. split; [reflexivity | lia].
Qed.

Lemma dedupe_keeps_distinct_records_witness :
  fst (dedupe [rich; backend_job; sparse_elsewhere])
  = map keyed [rich; backend_job; sparse_elsewhere]
  /\ duplicates_removed (snd (dedupe [rich; backend_job; sparse_elsewhere]))
     = 0%Z.
Proof.
  apply (dedupe_keeps_distinct_records [rich; backend_job; sparse_elsewhere]).
  assert (Hk : map job_key [rich; backend_job; sparse_elsewhere]
               = ["senior django developer|acme"; "backend engineer|initech";
                  "senior django developer|globex"])
    by (vm_compute; reflexivity).
  rewrite Hk. repeat constructor; cbn [In]; intuition discriminate.
Defined.

Lemma dedupe_survivor jobs s :
  In s (fst (dedupe jobs)) ->
  best_of jobs s /\ exists j, In j jobs /\ s = keyed j.
Proof.
  intros Hs. destruct (store_ok_dedupe jobs) as [_ Hent _].
  unfold dedupe in Hs. cbn [fst] in Hs.
  apply in_map_iff in Hs as ([k v] & Hv & Hin). cbn [snd] in Hv. subst v.
  destruct (Hent _ _ Hin) as [_ Hb]. split; [exact Hb|].
  destruct Hb as (pre & j & post & -> & -> & _). exists j.
  split; [apply in_or_app; right; left|]; reflexivity.
Qed.

(** X17.  [dedupe] writes the key itself: each record it returns carries
    the key computed from its own title and company, and whatever the
    input records held in [dedupe_key] has no effect on the result. *)
Theorem dedupe_ignores_stored_key :
  forall jobs jobs' : list Job,
    map keyed jobs = map keyed jobs' ->
    dedupe jobs' = dedupe jobs
    /\ (forall s, In s (fst (dedupe jobs)) ->
        dedupe_key s = Some (key_for (Some (title s)) (company s))).
Proof.
  intros jobs jobs' H. split.
  - rewrite <- (dedupe_keyed jobs'), <- (dedupe_keyed jobs), H. reflexivity.
  - intros s Hs. apply dedupe_survivor in Hs as (_ & j & _ & ->). reflexivity.
Qed.

Lemma dedupe_ignores_stored_key_witness :
  dedupe [set_dedupe_key sparse "stale"; rich] = dedupe [sparse; rich]
  /\ (forall s, In s (fst (dedupe [sparse; rich])) ->
      dedupe_key s = Some (key_for (Some (title s)) (company s))).
Proof.
  apply (dedupe_ignores_stored_key [sparse; rich]
           [set_dedupe_key sparse "stale"; rich]).
  reflexivity.
Defined.

Lemma entries_of_values (d : by_key_t) :
  (forall k v, In (k, v) d -> job_key v = k) ->
  map (fun v => (job_key v, v)) (map snd d) = d.
Proof.
  induction d as [|[k v] d IH]; intros H; [reflexivity|].
  cbn [map snd]. rewrite (H k v) by (left; reflexivity).
  rewrite IH; [reflexivity|]. intros k' v' Hin. apply H. right. exact Hin.
Qed.

Lemma dedupe_fold_output jobs :
  fold_left dedupe_step (fst (dedupe jobs)) [] = fold_left dedupe_step jobs [].
Proof.
  destruct (store_ok_dedupe jobs) as [Hnd Hent _].
  assert (Hk : forall k v, In (k, v) (fold_left dedupe_step jobs []) ->
                           job_key v = k)
    by (intros k v Hin; apply (Hent _ _ Hin)).
  unfold dedupe. cbn [fst].
  rewrite fold_distinct_keys; cbn [map app].
  - apply entries_of_values, Hk.
  - rewrite map_key_entries by exact Hk. exact Hnd.
  - intros v Hv. apply in_map_iff in Hv as ([k w] & <- & Hin). cbn [snd].
    destruct (Hent _ _ Hin) as [_ (pre & j & post & _ & -> & _)].
    apply keyed_keyed.
Qed.

(** X18.  Merging can be done in instalments: running [dedupe] on the
    result of an earlier run followed by new records gives the same
    records as one run on the earlier input followed by the new records. *)
Theorem dedupe_incremental :
  forall before new : list Job,
    fst (dedupe (fst (dedupe before) ++ new)) = fst (dedupe (before ++ new)).
Proof.
  intros before new. unfold dedupe at 1 3. cbn [fst].
  rewrite !fold_left_app, dedupe_fold_output. reflexivity.
Qed.

Lemma at_least_both a b :
  at_least a b -> at_least b a -> score a = score b /\ text_len a = text_len b.
Proof. unfold at_least. lia. Qed.

Lemma dedupe_in_keys jobs k :
  In k (map job_key (fst (dedupe jobs))) <-> In k (map job_key jobs).
Proof.
  destruct (store_ok_dedupe jobs) as [_ Hent Hcov]. split.
  - intros H. apply in_map_iff in H as (s & <- & Hs).
    apply dedupe_survivor in Hs as (_ & j & Hj & ->).
    rewrite job_key_keyed. apply in_map, Hj.
  - intros H. apply in_map_iff in H as (j & <- & Hj).
    unfold dedupe. cbn [fst].
    rewrite map_key_entries by (intros k v Hin; apply (Hent _ _ Hin)).
    apply Hcov, Hj.
Qed.

(** X19.  The order of the input decides only which of equally good
    records is kept and where it stands: for two orderings of the same
    records the outputs have the same keys, and the two records kept for
    one key have the same score and the same length of text. *)
Theorem dedupe_rank_order_independent :
  forall jobs jobs' : list Job,
    (forall j, In j jobs <-> In j jobs') ->
    (forall k, In k (map job_key (fst (dedupe jobs)))
               <-> In k (map job_key (fst (dedupe jobs'))))
    /\ (forall s s', In s (fst (dedupe jobs)) -> In s' (fst (dedupe jobs')) ->
        job_key s = job_key s' ->
        score s = score s' /\ text_len s = text_len s').
Proof.
  intros jobs jobs' Hsame. split.
  - intros k. rewrite !dedupe_in_keys, !in_map_iff.
    split; intros (j & Hk & Hj); exists j; (split; [exact Hk|]); apply Hsame, Hj.
  - intros s s' Hs Hs' Hk.
    apply dedupe_survivor in Hs as (Hb & j & Hj & Es).
    apply dedupe_survivor in Hs' as (Hb' & j' & Hj' & Es').
    assert (H1 : at_least s j').
    { apply (best_of_dominates jobs); [exact Hb | apply Hsame, Hj' |].
      rewrite Hk. subst s'. reflexivity. }
    assert (H2 : at_least s' j).
    { apply (best_of_dominates jobs'); [exact Hb' | apply Hsame, Hj |].
      rewrite <- Hk. subst s. reflexivity. }
    subst s s'. unfold at_least in *. rewrite !score_keyed in *.
    change (text_len (keyed j)) with (text_len j) in *.
    change (text_len (keyed j')) with (text_len j') in *. lia.
Qed.

Lemma dedupe_rank_order_independent_witness :
  (forall k, In k (map job_key (fst (dedupe [sparse; rich])))
             <-> In k (map job_key (fst (dedupe [rich; sparse]))))
  /\ (forall s s', In s (fst (dedupe [sparse; rich])) ->
                   In s' (fst (dedupe [rich; sparse])) ->
                   job_key s = job_key s' ->
                   score s = score s' /\ text_len s = text_len s').
Proof.
  apply (dedupe_rank_order_independent [sparse; rich] [rich; sparse]).
  intros j. cbn [In]. tauto.
Defined.

(** ** The records the two readers build *)

Ltac job_fields :=
  cbn [set_dedupe_key id title company url source location date_posted salary
       employment_type skills categories summary full_offer_text
       full_offer_html apply_url company_url image_url dedupe_key].

Lemma text_only_of_opt v : text_only (Val.of_opt v) = true.
Proof. destruct v; reflexivity. Qed.

Section Records.
Context {L : Library}.

Lemma python_job_shape p job :
  python_job p = Returns job ->
  url job = Py.strip (item_link p)
  /\ source job = "python.org"
  /\ title job = Py.strip (item_title p)
  /\ company job
     = (if Py.contains "," (title job)
        then Some (Py.strip (Py.split_tail "," (title job))) else None)
  /\ dedupe_key job = Some (key_for (Some (title job)) (company job))
  /\ text_only (location job) = true
  /\ text_only (date_posted job) = true
  /\ text_only (apply_url job) = true
  /\ categories job <> Some []
  /\ full_offer_html job <> Some ""
  /\ exists text,
       full_offer_text job = Some text
       /\ summary job = Some (Str.take 500 text)
       /\ salary job = parse_salary text
       /\ employment_type job = Val.of_opt (parse_employment text)
       /\ skills job = Some (skills_from_text text).
Proof.
  unfold python_job. destruct (job_id _) as [the_id|]; [|discriminate].
  intros [= <-]. job_fields.
  repeat (split; [try reflexivity; try apply text_only_of_opt|]).
  - destruct (filter _ _); discriminate.
  - destruct (job_description p); cbn [Py.truthy]; discriminate.
  - eexists. repeat split; reflexivity.
Qed.




Lemma Forall2_map_eq {A B C : Type} (R : A -> B -> Prop) (f : A -> C)
  (g : B -> C) l1 l2 :
  (forall a b, R a b -> g b = f a) -> Forall2 R l1 l2 -> map g l2 = map f l1.
Proof.
  intros H. induction 1 as [|a b l1 l2 Hab _ IH]; [reflexivity|].
  cbn [map]. rewrite (H a b Hab), IH. reflexivity.
Qed.

Lemma bwd_job_shape p job :
  bwd_job p = Returns job ->
  url job = page_url p
  /\ source job = "builtwithdjango.com"
  /\ categories job = Some ["Django Job Board"]
  /\ dedupe_key job = Some (key_for (Some (title job)) (company job))
  /\ Py.strip (title job) = title job
  /\ (company job = None -> Py.contains "@" (title job) = false)
  /\ (salary_anchor p = None -> salary job = None)
  /\ (exists html, full_offer_html job = Some html)
  /\ exists text,
       full_offer_text job = Some text
       /\ summary job
          = (if Py.truthy (Some text) then Some (Str.take 500 text) else None)
       /\ skills job
          = Some (skills_from_text (title job ++ String (ascii_of_nat 10) text)).
Proof.
  unfold bwd_job. destruct (job_id _) as [the_id|]; [|discriminate].
  set (t := match h1 p with Some h => strip_tags h | None => "" end).
  assert (Ht : Py.strip t = t).
  { subst t. destruct (h1 p); [apply strip_idem | reflexivity]. }
  destruct (Val.or _ (Val.of_opt _)) as [| | |c| |] eqn:Ec; try discriminate;
    intros [= <-]; job_fields.
  all: do 4 (split; [reflexivity|]).
  all: split; [exact Ht|].
  all: split;
    [|split; [intros ->; reflexivity
             |split; [eexists; reflexivity
                     |eexists; repeat split; reflexivity]]].
  - intros _. revert Ec. unfold Val.or.
    destruct (Val.truthy _) eqn:Et; [intros E; rewrite E in Et; discriminate|].
    destruct (Py.contains "@" t); [discriminate | reflexivity].
  - discriminate.
Qed.

Lemma bwd_job_outcome p :
  match bwd_job p with
  | Returns _ =>
      returns (urlparse (page_url p))
      /\ not_text (ld_nested (ld p) "hiringOrganization" "name") = false
  | Raises e =>
      urlparse (page_url p) = Raises e
      \/ (returns (urlparse (page_url p)) /\ e = "AttributeError"
          /\ not_text (ld_nested (ld p) "hiringOrganization" "name") = true)
  end.
Proof.
  unfold bwd_job, job_id, returns.
  destruct (urlparse (page_url p)) as [parsed|e]; [|left; reflexivity].
  unfold Val.or, not_text.
  destruct (Val.truthy (ld_nested (ld p) "hiringOrganization" "name")) eqn:Et.
  - destruct (ld_nested (ld p) "hiringOrganization" "name");
      cbn [text_only negb andb];
      first [ split; [eexists; reflexivity | reflexivity]
            | right; split; [eexists; reflexivity | split; reflexivity]
            | discriminate ].
  - destruct (if Py.contains "@" _ then _ else _);
      cbn [Val.of_opt andb]; split; first [eexists; reflexivity | reflexivity].
Qed.

Lemma parse_bwd_jobs_returns pages :
  returns (parse_bwd_jobs pages)
  <-> (forall p, In p pages -> returns (bwd_job p)).
Proof.
  induction pages as [|p pages IH]; cbn [parse_bwd_jobs In].
  - split; [intros _ p [] | intros _; eexists; reflexivity].
  - destruct (bwd_job p) as [job|e] eqn:Ej.
    + destruct (parse_bwd_jobs pages) as [jobs|e'] eqn:Ep.
      * split; [|intros _; eexists; reflexivity].
        intros _ q [<-|Hq]; [rewrite Ej; eexists; reflexivity|].
        apply (proj1 IH); [eexists; reflexivity | exact Hq].
      * split; [intros [a H]; discriminate|]. intros H.
        apply IH. intros q Hq. apply H. right. exact Hq.
    + split; [intros [a H]; discriminate|]. intros H.
      destruct (H p (or_introl eq_refl)) as [a Ha]. rewrite Ej in Ha.
      discriminate.
Qed.

End Records.

(** X20.  What [parse_python_jobs] returns: one record for each feed entry
    that mentions Django, in the order of the feed, with the trimmed link
    and title of the entry.  In each record the source is "python.org";
    the company is what follows the first comma of the title, and absent
    when the title has none; the key is already the one [dedupe] computes;
    the summary is the first 500 characters of the full text, and salary,
    employment type and skills are what the heuristics find in that same
    text; location, date, employment type and application link are
    strings or absent; the categories are never an empty list and the
    markup never an empty string. *)
Theorem parse_python_jobs_records :
  forall (L : Library) (entries : list PythonPage) (jobs : list Job),
    parse_python_jobs entries = Returns jobs ->
    map url jobs
    = map (fun p => Py.strip (item_link p)) (filter mentions_django entries)
    /\ map title jobs
       = map (fun p => Py.strip (item_title p)) (filter mentions_django entries)
    /\ forall job, In job jobs ->
         source job = "python.org"
         /\ company job
            = (if Py.contains "," (title job)
               then Some (Py.strip (Py.split_tail "," (title job))) else None)
         /\ dedupe_key job = Some (key_for (Some (title job)) (company job))
         /\ text_only (location job) = true
         /\ text_only (date_posted job) = true
         /\ text_only (employment_type job) = true
         /\ text_only (apply_url job) = true
         /\ categories job <> Some []
         /\ full_offer_html job <> Some ""
         /\ exists text,
              full_offer_text job = Some text
              /\ summary job = Some (Str.take 500 text)
              /\ salary job = parse_salary text
              /\ employment_type job = Val.of_opt (parse_employment text)
              /\ skills job = Some (skills_from_text text).
Proof.
  intros L entries jobs H. apply parse_python_jobs_each in H.
  split; [|split].
  - apply (Forall2_map_eq _ _ _ _ _
             (fun p job Hj => proj1 (python_job_shape p job Hj)) H).
  - apply (Forall2_map_eq _ _ _ _ _
             (fun p job Hj =>
                proj1 (proj2 (proj2 (python_job_shape p job Hj)))) H).
  - intros job Hin. destruct (Forall2_in_r _ _ _ _ H Hin) as (p & _ & Hj).
    destruct (python_job_shape p job Hj)
      as (_ & Hs & _ & Hc & Hk & Hl & Hd & Ha & Hcat & Hh & text & Ht).
    split; [exact Hs|]. split; [exact Hc|]. split; [exact Hk|].
    split; [exact Hl|]. split; [exact Hd|].
    split.
    { destruct Ht as (_ & _ & _ & -> & _). apply text_only_of_opt. }
    split; [exact Ha|]. split; [exact Hcat|]. split; [exact Hh|].
    exists text. exact Ht.
Qed.

Lemma parse_python_jobs_records_witness :
  exists jobs,
    @parse_python_jobs Example.library [Example.entry] = Returns jobs
    /\ map url jobs = ["https://www.python.org/jobs/7001/"].
Proof.
  eexists. split; [vm_compute; reflexivity|].
  eapply (proj1 (parse_python_jobs_records Example.library [Example.entry] _ _)).
  Unshelve. vm_compute. reflexivity.
Defined.


(** X22.  What [parse_bwd_jobs] returns: one record for each detail page,
    in the order of the pages, with the address of the page.  In each
    record the source is "builtwithdjango.com" and the only category is
    "Django Job Board"; the key is already the one [dedupe] computes; the
    title has no white space around it; a record without a company has no
    "@" in its title; without a salary line in the markup there is no
    salary; the markup and the full text are always present, and the
    summary is the first 500 characters of the full text, absent when the
    text is empty; the skills are those found in the title and the text. *)
Theorem parse_bwd_jobs_records :
  forall (L : Library) (pages : list BwdPage) (jobs : list Job),
    parse_bwd_jobs pages = Returns jobs ->
    map url jobs = map page_url pages
    /\ Forall2
         (fun p job =>
            source job = "builtwithdjango.com"
            /\ categories job = Some ["Django Job Board"]
            /\ dedupe_key job = Some (key_for (Some (title job)) (company job))
            /\ Py.strip (title job) = title job
            /\ (company job = None -> Py.contains "@" (title job) = false)
            /\ (salary_anchor p = None -> salary job = None)
            /\ (exists html, full_offer_html job = Some html)
            /\ exists text,
                 full_offer_text job = Some text
                 /\ summary job
                    = (if Py.truthy (Some text)
                       then Some (Str.take 500 text) else None)
                 /\ skills job
                    = Some (skills_from_text
                              (title job ++ String (ascii_of_nat 10) text)))
         pages jobs.
Proof.
  intros L pages jobs H. apply parse_bwd_jobs_each in H. split.
  - apply (Forall2_map_eq _ _ _ _ _
             (fun p job Hj => proj1 (bwd_job_shape p job Hj)) H).
  - induction H as [|p job pages jobs Hj _ IH]; constructor; [|exact IH].
    exact (proj2 (bwd_job_shape p job Hj)).
Qed.

Lemma parse_bwd_jobs_records_witness :
  exists jobs,
    @parse_bwd_jobs Example.library [Example.page] = Returns jobs
    /\ map url jobs = [page_url Example.page].
Proof.
  eexists. split; [vm_compute; reflexivity|].
  eapply (proj1 (parse_bwd_jobs_records Example.library [Example.page] _ _)).
  Unshelve. vm_compute. reflexivity.
Defined.

(** X23.  One bad page ends the run of [parse_bwd_jobs].  A page whose
    address [urlparse] rejects makes the loop body raise what [urlparse]
    raised; a page whose structured data names the organisation by a true
    value that is not a string (a number, a list, an object, [true]) makes
    it raise too, in the computation of the key at the latest; and when
    the body raises for one page, the reader raises.  So when the reader
    returns, every address was accepted and every such name is a string or
    a false value. *)
Theorem parse_bwd_jobs_fails_on_bad_page :
  forall (L : Library) (pages : list BwdPage),
    (forall p e, urlparse (page_url p) = Raises e -> bwd_job p = Raises e)
    /\ (forall p,
          not_text (ld_nested (ld p) "hiringOrganization" "name") = true ->
          exists e, bwd_job p = Raises e)
    /\ (forall p, In p pages -> (exists e, bwd_job p = Raises e) ->
                  exists e, parse_bwd_jobs pages = Raises e)
    /\ (returns (parse_bwd_jobs pages) ->
        forall p, In p pages ->
          returns (urlparse (page_url p))
          /\ not_text (ld_nested (ld p) "hiringOrganization" "name") = false).
Proof.
  intros L pages. split; [|split; [|split]].
  - intros p e H. pose proof (bwd_job_outcome p) as Ho.
    destruct (bwd_job p) as [job|e'].
    + destruct Ho as [[parsed Hu] _]. congruence.
    + destruct Ho as [Ho|([parsed Hu] & _)]; congruence.
  - intros p H. pose proof (bwd_job_outcome p) as Ho.
    destruct (bwd_job p) as [job|e']; [|eexists; reflexivity].
    destruct Ho as [_ Ho]. congruence.
  - intros p Hp [e He].
    destruct (parse_bwd_jobs pages) as [jobs|e'] eqn:Ep; [|eexists; reflexivity].
    assert (Hr : returns (parse_bwd_jobs pages)) by (eexists; exact Ep).
    destruct (proj1 (parse_bwd_jobs_returns pages) Hr p Hp) as [job Hj].
    congruence.
  - intros H p Hp.
    destruct (proj1 (parse_bwd_jobs_returns pages) H p Hp) as [job Hj].
    pose proof (bwd_job_outcome p) as Ho. rewrite Hj in Ho. exact Ho.
Qed.

Lemma parse_bwd_jobs_fails_on_bad_page_witness :
  exists e, @parse_bwd_jobs Example.library
              [Example.page; page_with_numeric_name] = Raises e.
Proof.
  destruct (parse_bwd_jobs_fails_on_bad_page Example.library
              [Example.page; page_with_numeric_name]) as (_ & Hname & Hrun & _).
  apply (Hrun page_with_numeric_name); [right; left; reflexivity|].
  apply Hname. vm_compute. reflexivity.
Defined.

(** ** The two outputs *)

Lemma keyed_fixed job :
  dedupe_key job = Some (key_for (Some (title job)) (company job)) ->
  keyed job = job.
Proof.
  destruct job. unfold keyed, job_key, set_dedupe_key. job_fields.
  intros ->. reflexivity.
Qed.

Section Payloads.
Context {L : Library}.

Lemma build_feed_parts now entries pages payload :
  build_feed now entries pages = Returns payload ->
  exists python_jobs bwd_jobs,
    parse_python_jobs entries = Returns python_jobs
    /\ parse_bwd_jobs pages = Returns bwd_jobs
    /\ payload
       = mkPayload (isoformat (utc_now now)) [PYTHON_RSS; BWD_JOBS]
           (mkCounts (Z.of_nat (List.length python_jobs))
                     (Z.of_nat (List.length bwd_jobs))
                     (snd (dedupe (python_jobs ++ bwd_jobs))))
           (fst (dedupe (python_jobs ++ bwd_jobs))).
Proof.
  unfold build_feed.
  destruct (parse_python_jobs entries) as [python_jobs|]; [|discriminate].
  destruct (parse_bwd_jobs pages) as [bwd_jobs|]; [|discriminate].
  intros [= <-]. exists python_jobs, bwd_jobs. repeat split.
Qed.


End Payloads.

Lemma Forall2_length_eq {A B : Type} (R : A -> B -> Prop) l1 l2 :
  Forall2 R l1 l2 -> List.length l2 = List.length l1.
Proof. induction 1; cbn [List.length]; congruence. Qed.

Lemma dedupe_counts_facts jobs :
  input_count (snd (dedupe jobs)) = Z.of_nat (List.length jobs)
  /\ output_count (snd (dedupe jobs)) = Z.of_nat (List.length (fst (dedupe jobs)))
  /\ (output_count (snd (dedupe jobs)) + duplicates_removed (snd (dedupe jobs))
      = input_count (snd (dedupe jobs)))%Z
  /\ (0 <= duplicates_removed (snd (dedupe jobs)))%Z.
Proof.
  pose proof (dedupe_keys jobs) as Hk.
  pose proof (first_seen_length (map job_key jobs)) as Hle.
  rewrite <- Hk, !length_map in Hle.
  unfold dedupe in *. cbn [fst snd input_count output_count duplicates_removed] in *.
  repeat split; lia.
Qed.

(** X24.  The payload of [build_feed].  Its counts agree with one another
    and with its list of records: [python_org] is the number of feed
    entries that mention Django and [builtwithdjango] the number of detail
    pages; [input_count] is their sum, [output_count] is the number of
    records written and [input_count] minus [duplicates_removed], which is
    never negative.  No two records of the payload have the same key, and
    each is, unchanged, the record one of the two readers built. *)
Theorem build_feed_counts :
  forall (L : Library) (now : Z) (entries : list PythonPage)
         (pages : list BwdPage) (payload : Payload),
    build_feed now entries pages = Returns payload ->
    python_org (counts payload)
    = Z.of_nat (List.length (filter mentions_django entries))
    /\ builtwithdjango (counts payload) = Z.of_nat (List.length pages)
    /\ (input_count (merge_stats (counts payload))
        = python_org (counts payload) + builtwithdjango (counts payload))%Z
    /\ output_count (merge_stats (counts payload))
       = Z.of_nat (List.length (jobs payload))
    /\ (output_count (merge_stats (counts payload))
        + duplicates_removed (merge_stats (counts payload))
        = input_count (merge_stats (counts payload)))%Z
    /\ (0 <= duplicates_removed (merge_stats (counts payload)))%Z
    /\ NoDup (map job_key (jobs payload))
    /\ forall job, In job (jobs payload) ->
         (exists p, In p entries /\ mentions_django p = true
                    /\ python_job p = Returns job)
         \/ (exists p, In p pages /\ bwd_job p = Returns job).
Proof.
  intros L now entries pages payload H.
  destruct (build_feed_parts _ _ _ _ H) as (pj & bj & Hp & Hb & ->).
  apply parse_python_jobs_each in Hp. apply parse_bwd_jobs_each in Hb.
  cbn [counts jobs python_org builtwithdjango merge_stats].
  rewrite <- (Forall2_length_eq _ _ _ Hp), <- (Forall2_length_eq _ _ _ Hb).
  destruct (dedupe_counts_facts (pj ++ bj)) as (Hin & Hout & Hsum & Hpos).
  split; [reflexivity|]. split; [reflexivity|].
  split; [rewrite Hin, length_app; lia|].
  split; [exact Hout|]. split; [exact Hsum|]. split; [exact Hpos|].
  split.
  - destruct (store_ok_dedupe (pj ++ bj)) as [Hnd Hent _].
    unfold dedupe. cbn [fst].
    rewrite map_key_entries by (intros k v Hkv; apply (Hent _ _ Hkv)).
    exact Hnd.
  - intros job Hjob.
    apply dedupe_survivor in Hjob as (_ & j & Hj & ->).
    apply in_app_or in Hj as [Hj|Hj].
    + left. destruct (Forall2_in_r _ _ _ _ Hp Hj) as (p & Hpin & Hpj).
      apply filter_In in Hpin as [Hpin Hm]. exists p.
      split; [exact Hpin|]. split; [exact Hm|].
      rewrite keyed_fixed; [exact Hpj|].
      apply (python_job_shape p j Hpj).
    + right. destruct (Forall2_in_r _ _ _ _ Hb Hj) as (p & Hpin & Hpj).
      exists p. split; [exact Hpin|].
      rewrite keyed_fixed; [exact Hpj|].
      apply (bwd_job_shape p j Hpj).
Qed.

Lemma build_feed_counts_witness :
  exists payload,
    @build_feed Example.library 0 [Example.entry] [Example.page] = Returns payload
    /\ python_org (counts payload) = 1%Z.
Proof.
  eexists. split; [vm_compute; reflexivity|].
  eapply (proj1 (build_feed_counts Example.library 0%Z [Example.entry]
                   [Example.page] _ _)).
  Unshelve. vm_compute. reflexivity.
Defined.


(** *** The feed document *)

Lemma escape_char_no_markup c :
  count_char "<" (Html.escape_char c) = 0
  /\ count_char ">" (Html.escape_char c) = 0
  /\ count_char Html.quot (Html.escape_char c) = 0
  /\ count_char Html.apos (Html.escape_char c) = 0.
Proof. each_char c. Qed.

Lemma escape_no_markup s :
  count_char "<" (Html.escape s) = 0
  /\ count_char ">" (Html.escape s) = 0
  /\ count_char Html.quot (Html.escape s) = 0
  /\ count_char Html.apos (Html.escape s) = 0.
Proof.
  induction s as [|c s (H1 & H2 & H3 & H4)]; [repeat split|].
  cbn [Html.escape]. rewrite !count_char_app, H1, H2, H3, H4.
  destruct (escape_char_no_markup c) as (-> & -> & -> & ->). repeat split.
Qed.

Lemma escape_value_outcome v :
  match escape_value v with
  | Returns s =>
      not_text v = false
      /\ s = Html.escape (match v with PStr t => t | _ => "" end)
  | Raises e => e = "AttributeError" /\ not_text v = true
  end.
Proof.
  unfold escape_value, not_text.
  destruct v as [|[]|n|[|c s]|[|x l]|[|x d]]; cbn [Val.truthy text_only negb andb];
    try (split; reflexivity).
  destruct (n =? 0)%Z; cbn [negb andb]; split; reflexivity.
Qed.

Section Documents.
Context {L : Library}.

Lemma as_rfc2822_returns now value : returns (as_rfc2822 now value).
Proof.
  unfold as_rfc2822, returns. destruct (negb _); eexists; reflexivity.
Qed.

Lemma rss_item_outcome now job :
  match rss_item now job with
  | Returns item =>
      not_text (location job) = false /\ not_text (apply_url job) = false
      /\ count_char "<" item = 24 /\ count_char ">" item = 24
      /\ count_char Html.quot item = 2 /\ count_char Html.apos item = 0
  | Raises e =>
      e = "AttributeError"
      /\ (not_text (location job) = true \/ not_text (apply_url job) = true)
  end.
Proof.
  unfold rss_item.
  pose proof (escape_value_outcome (location job)) as Hl.
  pose proof (escape_value_outcome (apply_url job)) as Ha.
  destruct (escape_value (location job)) as [loc|e];
    [|split; [apply Hl | left; apply Hl]].
  destruct (escape_value (apply_url job)) as [app|e];
    [|split; [apply Ha | right; apply Ha]].
  destruct (as_rfc2822_returns now (date_posted job)) as [pub ->].
  destruct Hl as [Hl ->], Ha as [Ha ->].
  split; [exact Hl|]. split; [exact Ha|].
  repeat split; rewrite !count_char_app;
    repeat match goal with
           | |- context [count_char ?ch (Html.escape ?s)] =>
               rewrite (proj1 (escape_no_markup s))
               || rewrite (proj1 (proj2 (escape_no_markup s)))
               || rewrite (proj1 (proj2 (proj2 (escape_no_markup s))))
               || rewrite (proj2 (proj2 (proj2 (escape_no_markup s))))
           end;
    reflexivity.
Qed.

End Documents.

(** X26.  An item of the feed has exactly the markup of its template: 24
    opening and 24 closing angle brackets (the twelve pairs of tags), the
    two double quotes of the attribute of [guid], and no apostrophe.  No
    field of a record can add markup, whatever text it holds. *)
Theorem rss_item_markup :
  forall (L : Library) (now : Z) (job : Job) (item : string),
    rss_item now job = Returns item ->
    count_char "<" item = 24
    /\ count_char ">" item = 24
    /\ count_char Html.quot item = 2
    /\ count_char Html.apos item = 0.
Proof.
  intros L now job item H. pose proof (rss_item_outcome now job) as Ho.
  rewrite H in Ho. apply Ho.
Qed.

Lemma rss_item_markup_witness :
  exists item,
    @rss_item Example.library 0
      (set_dedupe_key sparse "<b>Tom & Jerry's</b>") = Returns item
    /\ count_char "<" item = 24.
Proof.
  eexists. split; [vm_compute; reflexivity|].
  refine (proj1 (rss_item_markup Example.library 0%Z
                   (set_dedupe_key sparse "<b>Tom & Jerry's</b>") _ _)).
  vm_compute. reflexivity.
Defined.

(** X27.  When an item cannot be written: [rss_item] raises exactly when
    the location or the application link of the record is a true value
    that is not a string, and then it raises AttributeError; the date
    never makes it fail, whatever value it is. *)
Theorem rss_item_raises_iff :
  forall (L : Library) (now : Z) (job : Job),
    (returns (rss_item now job)
     <-> not_text (location job) = false /\ not_text (apply_url job) = false)
    /\ (forall e, rss_item now job = Raises e <->
          e = "AttributeError"
          /\ (not_text (location job) = true
              \/ not_text (apply_url job) = true)).
Proof.
  intros L now job. pose proof (rss_item_outcome now job) as Ho.
  destruct (rss_item now job) as [item|e'].
  - destruct Ho as (Hl & Ha & _). split.
    + split; [intros _; split; assumption | intros _; eexists; reflexivity].
    + intros e. split; [discriminate|]. intros [_ [H|H]]; congruence.
  - destruct Ho as [-> Ho]. split.
    + split; [intros [a H]; discriminate|].
      intros [Hl Ha]. destruct Ho; congruence.
    + intros e. split; [intros [= <-]; split; [reflexivity | exact Ho]|].
      intros [-> _]. reflexivity.
Qed.

Lemma count_char_concat ch x l :
  count_char ch (String.concat "" (x :: l))
  = count_char ch x + count_char ch (String.concat "" l).
Proof.
  destruct l as [|y l]; cbn [String.concat].
  - cbn [count_char]. lia.
  - rewrite count_char_app. reflexivity.
Qed.

Section Channel.
Context {L : Library}.

Lemma channel_items_returns timed_jobs :
  returns (channel_items timed_jobs)
  <-> (forall job, In job (map snd timed_jobs) ->
         not_text (location job) = false /\ not_text (apply_url job) = false).
Proof.
  induction timed_jobs as [|[now job] rest IH]; cbn [channel_items map snd In].
  - split; [intros _ job [] | intros _; eexists; reflexivity].
  - pose proof (rss_item_outcome now job) as Ho.
    destruct (rss_item now job) as [item|e].
    + destruct Ho as (Hl & Ha & _).
      destruct (channel_items rest) as [items|e'].
      * split; [|intros _; eexists; reflexivity].
        intros _ j [<-|Hj]; [split; assumption|].
        apply (proj1 IH); [eexists; reflexivity | exact Hj].
      * split; [intros [a H]; discriminate|]. intros H.
        assert (Hr : returns (@Raises (list string) e')).
        { apply IH. intros j Hj. apply H. right. exact Hj. }
        destruct Hr as [a Hr]. discriminate.
    + destruct Ho as [_ Ho]. split; [intros [a H]; discriminate|]. intros H.
      destruct (H job (or_introl eq_refl)) as [Hl Ha].
      destruct Ho; congruence.
Qed.

Lemma channel_items_counts timed_jobs : forall items,
  channel_items timed_jobs = Returns items ->
  List.length items = List.length timed_jobs
  /\ count_char "<" (String.concat "" items) = 24 * List.length timed_jobs
  /\ count_char ">" (String.concat "" items) = 24 * List.length timed_jobs
  /\ count_char Html.quot (String.concat "" items) = 2 * List.length timed_jobs
  /\ count_char Html.apos (String.concat "" items) = 0.
Proof.
  induction timed_jobs as [|[now job] rest IH]; cbn [channel_items]; intros items.
  - intros [= <-]. repeat split.
  - pose proof (rss_item_outcome now job) as Ho.
    destruct (rss_item now job) as [item|e]; [|discriminate].
    destruct Ho as (_ & _ & H1 & H2 & H3 & H4).
    destruct (channel_items rest) as [items'|e']; [|discriminate].
    intros [= <-]. destruct (IH items' eq_refl) as (I0 & I1 & I2 & I3 & I4).
    rewrite !count_char_concat, H1, H2, H3, H4, I1, I2, I3, I4.
    cbn [List.length]. repeat split; lia.
Qed.

End Channel.

Lemma Returns_inj {A : Type} (a b : A) : Returns a = Returns b -> a = b.
Proof. intros H. injection H as H. exact H. Qed.

(** X28.  The feed document.  What [write_rss] writes opens with the XML
    declaration and ends with the closing tags of the channel and a line
    break; it has 13 pairs of angle brackets of its own and 24 for each
    record, six double quotes of its own and two for each record, and no
    apostrophe: the markup is that of the templates and nothing else. *)
Theorem write_rss_document :
  forall (L : Library) (built : Z) (timed_jobs : list (Z * Job))
         (doc : string),
    write_rss built timed_jobs = Returns doc ->
    Str.startswith "<?xml version=" doc = true
    /\ (exists body,
          doc = body ++ "</channel></rss>" ++ String (ascii_of_nat 10) "")
    /\ count_char "<" doc = 13 + 24 * List.length timed_jobs
    /\ count_char ">" doc = 13 + 24 * List.length timed_jobs
    /\ count_char Html.quot doc = 6 + 2 * List.length timed_jobs
    /\ count_char Html.apos doc = 0.
Proof.
  intros L built timed_jobs doc. unfold write_rss.
  destruct (channel_items timed_jobs) as [items|e] eqn:Ei; [|discriminate].
  destruct (channel_items_counts _ _ Ei) as (_ & I1 & I2 & I3 & I4).
  destruct (escape_no_markup (format_datetime (utc_now built)))
    as (E1 & E2 & E3 & E4).
  cbv zeta. intros H. apply Returns_inj in H. subst doc.
  split; [reflexivity|]. split.
  - rewrite <- !app_assoc_s. rewrite app_assoc_s. eexists. reflexivity.
  - repeat split; rewrite !count_char_app;
      rewrite ?I1, ?I2, ?I3, ?I4, ?E1, ?E2, ?E3, ?E4;
      cbn [count_char]; cbn; lia.
Qed.

Lemma write_rss_document_witness :
  exists doc,
    @write_rss Example.library 0 [(0%Z, sparse); (1%Z, rich)] = Returns doc
    /\ count_char "<" doc = 61.
Proof.
  eexists. split; [vm_compute; reflexivity|].
  refine (proj1 (proj2 (proj2
            (write_rss_document Example.library 0%Z
               [(0%Z, sparse); (1%Z, rich)] _ _)))).
  vm_compute. reflexivity.
Defined.

Section Writing.
Context {L : Library}.

Lemma channel_items_raises timed_jobs : forall e,
  channel_items timed_jobs = Raises e -> e = "AttributeError".
Proof.
  induction timed_jobs as [|[now job] rest IH]; cbn [channel_items]; intros e;
    [discriminate|].
  pose proof (rss_item_outcome now job) as Ho.
  destruct (rss_item now job) as [item|e0].
  - destruct (channel_items rest) as [items|e1]; [discriminate|].
    intros [= <-]. apply IH. reflexivity.
  - intros [= <-]. apply Ho.
Qed.

End Writing.

Section Failing.
Context {L : Library}.

Lemma channel_items_fails timed_jobs :
  (exists e, channel_items timed_jobs = Raises e)
  <-> exists job, In job (map snd timed_jobs)
                  /\ (not_text (location job) = true
                      \/ not_text (apply_url job) = true).
Proof.
  induction timed_jobs as [|[now job] rest IH]; cbn [channel_items map snd In].
  - split; [intros [e H]; discriminate | intros (job & [] & _)].
  - pose proof (rss_item_outcome now job) as Ho.
    destruct (rss_item now job) as [item|e0].
    + destruct Ho as (Hl & Ha & _). split.
      * intros [e H].
        destruct (channel_items rest) as [items|e1] eqn:Er; [discriminate|].
        destruct (proj1 IH (ex_intro _ e1 eq_refl)) as (j & Hj & Hbad).
        exists j. split; [right; exact Hj | exact Hbad].
      * intros (j & [<-|Hj] & Hbad); [destruct Hbad; congruence|].
        destruct (proj2 IH (ex_intro _ j (conj Hj Hbad))) as [e He].
        rewrite He. eexists. reflexivity.
    + destruct Ho as [_ Ho]. split; [|intros _; eexists; reflexivity].
      intros _. exists job. split; [left; reflexivity | exact Ho].
Qed.

End Failing.

(** X29.  The AttributeError of [write_rss].  The call raises
    AttributeError exactly when some record has for location or for
    application link a true value that is not a string, such as a
    structured-data object; the error comes from the loop over the
    records, before the document is put together, so nothing is written
    then. *)
Theorem write_rss_attribute_error_iff :
  forall (L : Library) (built : Z) (timed_jobs : list (Z * Job)),
    (write_rss built timed_jobs = Raises "AttributeError"
     <-> exists job, In job (map snd timed_jobs)
                     /\ (not_text (location job) = true
                         \/ not_text (apply_url job) = true))
    /\ (channel_items timed_jobs = Raises "AttributeError"
        <-> write_rss built timed_jobs = Raises "AttributeError").
Proof.
  intros L built timed_jobs.
  assert (Hw : channel_items timed_jobs = Raises "AttributeError"
               <-> write_rss built timed_jobs = Raises "AttributeError").
  { unfold write_rss. destruct (channel_items timed_jobs) as [items|e];
      split; intros H; try discriminate; injection H as ->; reflexivity. }
  split; [|exact Hw]. rewrite <- Hw. split.
  - intros H. apply channel_items_fails. eexists. exact H.
  - intros H. apply channel_items_fails in H as [e He].
    rewrite He. rewrite (channel_items_raises _ _ He). reflexivity.
Qed.

Lemma write_rss_attribute_error_iff_witness :
  @write_rss Example.library 0 [(0%Z, sparse); (1%Z, located_by_object)]
  = Raises "AttributeError".
Proof.
  apply (proj1 (write_rss_attribute_error_iff Example.library 0%Z
                  [(0%Z, sparse); (1%Z, located_by_object)])).
  exists located_by_object. split; [right; left; reflexivity|].
  left. vm_compute. reflexivity.
Defined.

Lemma not_text_text_only v : text_only v = true -> not_text v = false.
Proof. unfold not_text. intros ->. apply andb_false_r. Qed.

Lemma not_text_or a b :
  not_text a = false -> not_text b = false -> not_text (Val.or a b) = false.
Proof.
  unfold Val.or. intros Ha Hb. destruct (Val.truthy a); assumption.
Qed.

(** X30.  From the payload to the items of the feed.  The loop of
    [write_rss] builds an item for every record [parse_python_jobs]
    builds.  It does so for every record of [parse_bwd_jobs] whose page
    gives, in its structured data, a string or a false value for [url],
    and for [jobLocation.address] when the markup has no location line.
    When that holds of every page, the loop builds all the items for the
    records of the payload of [build_feed]. *)
Theorem build_feed_items_are_built :
  forall (L : Library) (now : Z) (entries : list PythonPage)
         (pages : list BwdPage) (payload : Payload),
    build_feed now entries pages = Returns payload ->
    (forall p, In p pages ->
       not_text (Val.get (ld p) "url") = false
       /\ (location_anchor p = None ->
           not_text (ld_nested (ld p) "jobLocation" "address") = false)) ->
    forall timed_jobs : list (Z * Job),
      map snd timed_jobs = jobs payload ->
      returns (channel_items timed_jobs).
Proof.
  intros L now entries pages payload H Hpages timed_jobs Hjobs.
  apply channel_items_returns. rewrite Hjobs.
  destruct (build_feed_parts _ _ _ _ H) as (pj & bj & Hp & Hb & ->).
  apply parse_python_jobs_each in Hp. apply parse_bwd_jobs_each in Hb.
  cbn [jobs]. intros job Hjob.
  apply dedupe_survivor in Hjob as (_ & j & Hj & ->).
  change (location (keyed j)) with (location j).
  change (apply_url (keyed j)) with (apply_url j).
  apply in_app_or in Hj as [Hj|Hj].
  - destruct (Forall2_in_r _ _ _ _ Hp Hj) as (p & _ & Hpj).
    destruct (python_job_shape p j Hpj)
      as (_ & _ & _ & _ & _ & Hl & _ & Ha & _).
    split; apply not_text_text_only; assumption.
  - destruct (Forall2_in_r _ _ _ _ Hb Hj) as (p & Hpin & Hpj).
    destruct (bwd_job_fields L p j Hpj) as (Ha & _ & _ & _ & Hl).
    destruct (Hpages p Hpin) as [Hu Hloc]. rewrite Ha, Hl. split.
    + destruct (location_anchor p);
        [apply not_text_text_only; reflexivity | apply Hloc; reflexivity].
    + apply not_text_or; [exact Hu|].
      apply not_text_text_only, text_only_of_opt.
Qed.

Lemma build_feed_items_are_built_witness :
  exists payload,
    @build_feed Example.library 0 [Example.entry]
      [Example.page; page_without_location_line] = Returns payload
    /\ List.length (jobs payload) = 3
    /\ returns (@channel_items Example.library
                  (map (fun job => (0%Z, job)) (jobs payload))).
Proof.
  eexists. split; [vm_compute; reflexivity|]. split; [reflexivity|].
  refine (build_feed_items_are_built Example.library 0%Z [Example.entry]
            [Example.page; page_without_location_line] _ _ _ _ _).
  - vm_compute. reflexivity.
  - intros p [<-|[<-|[]]]; split; try reflexivity; discriminate.
  - vm_compute. reflexivity.
Defined.
